(** * Terraform state manager: the state-document core

    A shallow embedding of [terraform-aws/python/terraform_state.py]
    (class [TerraformStateManager]) together with the parts of Python's
    [json] module that [download_state] and [upload_state] call, and the
    properties of the state-document model proved about them. *)

From Stdlib Require Import List NArith ZArith Lia Bool String Ascii.
From Stdlib.Strings Require Import Byte.
From Stdlib Require Import Decimal DecimalFacts DecimalN.
Import ListNotations.

Local Open Scope N_scope.

(** ** Python values *)

(** A Python [str] is the sequence of its code points. *)
Definition str := list N.

(** A Python [bytes] object. *)
Definition bytes := list byte.

(** [pystr "resources"] is the Python literal ['resources']. *)
Definition pystr (s : string) : str :=
  map N_of_ascii (list_ascii_of_string s).

Fixpoint str_eqb (a b : str) : bool :=
  match a, b with
  | [], [] => true
  | x :: a', y :: b' => (x =? y) && str_eqb a' b'
  | _, _ => false
  end.

(** The values [json.load] builds: [None], [bool], [int], [float], [str],
    [list] and [dict] (insertion ordered, keyed by [str]).

    Floating-point arithmetic is not modelled.  A [float] is represented by
    the text [json.dump] prints for it: [float.__repr__] of a finite float,
    or one of [NaN], [Infinity], [-Infinity]. *)
Unset Elimination Schemes.
Inductive value : Type :=
| VNone
| VBool (b : bool)
| VInt (z : Z)
| VFloat (r : str)
| VStr (s : str)
| VList (l : list value)
| VDict (d : list (str * value)).
Set Elimination Schemes.

(** The ways in which a request to the blob store fails. *)
Inductive error_kind : Type :=
| NotFound
| PermissionDenied
| NetworkError.

(** The exceptions that the modelled code can raise, all of them subclasses
    of [Exception]. *)
Inductive exn : Type :=
| KeyError (key : str)
| AttributeError
| TypeError
| JSONDecodeError
| UnicodeDecodeError
| ClientError (kind : error_kind).

(** The outcome of evaluating a Python expression or statement. *)
Inductive result (A : Type) : Type :=
| Ok (a : A)
| Raise (e : exn).
Arguments Ok {A} a.
Arguments Raise {A} e.

Definition bind {A B} (m : result A) (f : A -> result B) : result B :=
  match m with
  | Ok a => f a
  | Raise e => Raise e
  end.

Declare Scope py_scope.
Delimit Scope py_scope with py.
Notation "x <- m ;; k" := (bind m (fun x => k))
  (at level 61, m at next level, right associativity) : py_scope.

(** [bool(v)]: the truth value of [v], as tested by [if not v].  The two
    zeros of [float] are printed [0.0] and [-0.0]. *)
Definition truthy (v : value) : bool :=
  match v with
  | VNone => false
  | VBool b => b
  | VInt z => negb (z =? 0)%Z
  | VFloat r => negb (str_eqb r (pystr "0.0") || str_eqb r (pystr "-0.0"))
  | VStr s => match s with [] => false | _ => true end
  | VList l => match l with [] => false | _ => true end
  | VDict d => match d with [] => false | _ => true end
  end.

(** Lookup in a [dict]. *)
Fixpoint dict_lookup (d : list (str * value)) (k : str) : option value :=
  match d with
  | [] => None
  | (k', v) :: d' => if str_eqb k' k then Some v else dict_lookup d' k
  end.

(** [d[k] = v]: an existing key keeps its position. *)
Fixpoint dict_set (d : list (str * value)) (k : str) (v : value)
  : list (str * value) :=
  match d with
  | [] => [(k, v)]
  | (k', v') :: d' =>
      if str_eqb k' k then (k', v) :: d' else (k', v') :: dict_set d' k v
  end.

(** [dict(pairs)]. *)
Definition dict (pairs : list (str * value)) : list (str * value) :=
  fold_left (fun d kv => dict_set d (fst kv) (snd kv)) pairs [].

(** [o.get(k, default)]: only a [dict] has the attribute [get]. *)
Definition py_get (o : value) (k : str) (default : value) : result value :=
  match o with
  | VDict d =>
      match dict_lookup d k with
      | Some v => Ok v
      | None => Ok default
      end
  | _ => Raise AttributeError
  end.

(** [o[k]] for a [str] key [k]: a lookup in a [dict], and a [TypeError]
    on the other values. *)
Definition py_getitem (o : value) (k : str) : result value :=
  match o with
  | VDict d =>
      match dict_lookup d k with
      | Some v => Ok v
      | None => Raise (KeyError k)
      end
  | _ => Raise TypeError
  end.

(** The items that [for x in o] visits: the elements of a [list], the keys
    of a [dict], the characters of a [str]; the other values are not
    iterable. *)
Definition py_iter (o : value) : result (list value) :=
  match o with
  | VList l => Ok l
  | VDict d => Ok (map (fun kv => VStr (fst kv)) d)
  | VStr s => Ok (map (fun c => VStr [c]) s)
  | _ => Raise TypeError
  end.

(** [v == s] for a [str] [s]: only an equal [str] compares equal. *)
Definition py_eq_str (v : value) (s : str) : bool :=
  match v with
  | VStr s' => str_eqb s' s
  | _ => false
  end.

(** ** [json.load]: decoding the bytes *)

Module Codecs.

Inductive encoding : Type :=
| utf_8 | utf_8_sig | utf_16 | utf_16_be | utf_16_le
| utf_32 | utf_32_be | utf_32_le.

(** [b.startswith(p)]. *)
Fixpoint startswith (p b : list N) : bool :=
  match p, b with
  | [], _ => true
  | x :: p', y :: b' => (x =? y) && startswith p' b'
  | _ :: _, [] => false
  end.

Definition BOM_UTF32_BE : list N := [0; 0; 254; 255].
Definition BOM_UTF32_LE : list N := [255; 254; 0; 0].
Definition BOM_UTF16_BE : list N := [254; 255].
Definition BOM_UTF16_LE : list N := [255; 254].
Definition BOM_UTF8 : list N := [239; 187; 191].

(** [json.detect_encoding], on the values of the bytes. *)
Definition detect_encoding (b : list N) : encoding :=
  if startswith BOM_UTF32_BE b || startswith BOM_UTF32_LE b then utf_32
  else if startswith BOM_UTF16_BE b || startswith BOM_UTF16_LE b then utf_16
  else if startswith BOM_UTF8 b then utf_8_sig
  else
    match b with
    | b0 :: b1 :: b2 :: b3 :: _ =>
        if b0 =? 0 then
          if b1 =? 0 then utf_32_be else utf_16_be
        else if b1 =? 0 then
          if (b2 =? 0) && (b3 =? 0) then utf_32_le else utf_16_le
        else utf_8
    | [b0; b1] =>
        if b0 =? 0 then utf_16_be
        else if b1 =? 0 then utf_16_le
        else utf_8
    | _ => utf_8
    end.

Definition is_cont (b : N) : bool := (128 <=? b) && (b <=? 191).
Definition is_high (u : N) : bool := (55296 <=? u) && (u <=? 56319).
Definition is_low (u : N) : bool := (56320 <=? u) && (u <=? 57343).

Definition emit (c : N) (rest : option str) : option str :=
  option_map (cons c) rest.

(** UTF-8 with the [surrogatepass] error handler: the strict decoder, and
    the three-byte forms of the surrogates accepted as well. *)
Fixpoint decode_utf_8 (b : list N) : option str :=
  match b with
  | [] => Some []
  | b0 :: r0 =>
      if b0 <? 128 then emit b0 (decode_utf_8 r0)
      else if b0 <? 194 then None
      else if b0 <? 224 then
        match r0 with
        | b1 :: r1 =>
            if is_cont b1
            then emit ((b0 - 192) * 64 + (b1 - 128)) (decode_utf_8 r1)
            else None
        | _ => None
        end
      else if b0 <? 240 then
        match r0 with
        | b1 :: b2 :: r2 =>
            let c := (b0 - 224) * 4096 + (b1 - 128) * 64 + (b2 - 128) in
            if is_cont b1 && is_cont b2 && (2048 <=? c)
            then emit c (decode_utf_8 r2)
            else None
        | _ => None
        end
      else if b0 <? 245 then
        match r0 with
        | b1 :: b2 :: b3 :: r3 =>
            let c := (b0 - 240) * 262144 + (b1 - 128) * 4096
                     + (b2 - 128) * 64 + (b3 - 128) in
            if is_cont b1 && is_cont b2 && is_cont b3
               && (65536 <=? c) && (c <? 1114112)
            then emit c (decode_utf_8 r3)
            else None
        | _ => None
        end
      else None
  end.

(** The 16-bit units of a UTF-16 buffer; an odd length is truncated data. *)
Fixpoint units_16 (little : bool) (b : list N) : option (list N) :=
  match b with
  | [] => Some []
  | [_] => None
  | x :: y :: r =>
      emit (if little then x + 256 * y else 256 * x + y) (units_16 little r)
  end.

(** A high surrogate followed by a low one is one code point; with
    [surrogatepass] a lone surrogate stands for itself. *)
Fixpoint join_16 (u : list N) : str :=
  match u with
  | [] => []
  | h :: r =>
      match r with
      | l :: r' =>
          if is_high h && is_low l
          then (65536 + (h - 55296) * 1024 + (l - 56320)) :: join_16 r'
          else h :: join_16 r
      | [] => [h]
      end
  end.

Definition decode_utf_16 (little : bool) (b : list N) : option str :=
  option_map join_16 (units_16 little b).

Fixpoint decode_utf_32 (little : bool) (b : list N) : option str :=
  match b with
  | [] => Some []
  | w :: x :: y :: z :: r =>
      let c := if little then w + 256 * x + 65536 * y + 16777216 * z
               else 16777216 * w + 65536 * x + 256 * y + z in
      if c <? 1114112 then emit c (decode_utf_32 little r) else None
  | _ => None
  end.

(** The codecs; [utf_16], [utf_32] and [utf_8_sig] read the byte order
    from the mark at the start and drop it. *)
Definition decode_with (e : encoding) (b : list N) : option str :=
  match e with
  | utf_8 => decode_utf_8 b
  | utf_8_sig =>
      if startswith BOM_UTF8 b then decode_utf_8 (skipn 3 b)
      else decode_utf_8 b
  | utf_16 =>
      if startswith BOM_UTF16_LE b then decode_utf_16 true (skipn 2 b)
      else if startswith BOM_UTF16_BE b then decode_utf_16 false (skipn 2 b)
      else decode_utf_16 true b
  | utf_16_be => decode_utf_16 false b
  | utf_16_le => decode_utf_16 true b
  | utf_32 =>
      if startswith BOM_UTF32_LE b then decode_utf_32 true (skipn 4 b)
      else if startswith BOM_UTF32_BE b then decode_utf_32 false (skipn 4 b)
      else decode_utf_32 true b
  | utf_32_be => decode_utf_32 false b
  | utf_32_le => decode_utf_32 true b
  end.

(** [b.decode(detect_encoding(b), 'surrogatepass')]. *)
Definition decode (b : bytes) : option str :=
  let v := map Byte.to_N b in
  decode_with (detect_encoding v) v.

End Codecs.

(** ** [json.load]: the scanner *)

(** The scanner of Python's [json] module, with the default hooks and
    [strict=True].  Characters are written as their code points: 34 is the
    double quote, 92 the backslash, 117 the letter [u], 44 the comma, 58
    the colon, 91 and 93 the square brackets, 123 and 125 the braces, 45
    the minus sign, 46 the dot, 48 to 57 the digits.  The limits of the
    interpreter (recursion depth, number of digits of an integer) are not
    modelled. *)

Module Decoder.

(** The text that [json.dump] prints for [float(literal)], that is
    [float.__repr__(float(literal))] or [Infinity] or [-Infinity]; the
    conversion itself is floating-point arithmetic and stays a
    parameter. *)
Definition float_parser := str -> str.

Definition is_ws (c : N) : bool :=
  (c =? 32) || (c =? 9) || (c =? 10) || (c =? 13).

(** [WHITESPACE.match(s, end).end()]. *)
Fixpoint skip_ws (s : str) : str :=
  match s with
  | c :: r => if is_ws c then skip_ws r else s
  | [] => []
  end.

Definition is_digit (c : N) : bool := (48 <=? c) && (c <=? 57).

(** The longest run of digits at the head of [s], and what follows it. *)
Fixpoint span_digits (s : str) : str * str :=
  match s with
  | c :: r =>
      if is_digit c
      then let (ds, rest) := span_digits r in (c :: ds, rest)
      else ([], s)
  | [] => ([], [])
  end.

(** The first group of [NUMBER_RE]: an optional minus sign, then a zero or
    a nonzero digit followed by digits. *)
Definition match_integer (s : str) : option (str * str) :=
  let (sign, s1) :=
    match s with
    | c :: r => if c =? 45 then ([45], r) else ([], s)
    | [] => ([], s)
    end in
  match s1 with
  | c :: r =>
      if c =? 48 then Some (sign ++ [48], r)
      else if is_digit c
      then let (ds, rest) := span_digits r in Some (sign ++ c :: ds, rest)
      else None
  | [] => None
  end.

(** The second group: a dot and at least one digit; empty when the group
    does not match. *)
Definition match_frac (s : str) : str * str :=
  match s with
  | c :: r =>
      if c =? 46 then
        match span_digits r with
        | ([], _) => ([], s)
        | (ds, rest) => (46 :: ds, rest)
        end
      else ([], s)
  | [] => ([], s)
  end.

(** The third group: [e] or [E], an optional sign and at least one digit;
    empty when the group does not match. *)
Definition match_exp (s : str) : str * str :=
  match s with
  | e :: r =>
      if (e =? 101) || (e =? 69) then
        let (sign, r1) :=
          match r with
          | c :: r' => if (c =? 45) || (c =? 43) then ([c], r') else ([], r)
          | [] => ([], r)
          end in
        match span_digits r1 with
        | ([], _) => ([], s)
        | (ds, rest) => (e :: sign ++ ds, rest)
        end
      else ([], s)
  | [] => ([], s)
  end.

(** [NUMBER_RE.match]: the groups [integer], [frac], [exp] and the rest. *)
Definition match_number (s : str) : option (str * str * str * str) :=
  match match_integer s with
  | Some (integer, s1) =>
      let (frac, s2) := match_frac s1 in
      let (exp, s3) := match_exp s2 in
      Some (integer, frac, exp, s3)
  | None => None
  end.

Definition digit_of_char (c : N) (u : uint) : uint :=
  if c =? 48 then D0 u else if c =? 49 then D1 u
  else if c =? 50 then D2 u else if c =? 51 then D3 u
  else if c =? 52 then D4 u else if c =? 53 then D5 u
  else if c =? 54 then D6 u else if c =? 55 then D7 u
  else if c =? 56 then D8 u else D9 u.

Fixpoint uint_of_digits (ds : str) : uint :=
  match ds with
  | [] => Nil
  | c :: r => digit_of_char c (uint_of_digits r)
  end.

(** [int(integer)] on a match of the integer part. *)
Definition parse_int (integer : str) : Z :=
  match integer with
  | c :: ds =>
      if c =? 45 then Z.opp (Z.of_N (N.of_uint (uint_of_digits ds)))
      else Z.of_N (N.of_uint (uint_of_digits integer))
  | [] => 0%Z
  end.

Definition hexval (c : N) : option N :=
  if is_digit c then Some (c - 48)
  else if (97 <=? c) && (c <=? 102) then Some (c - 87)
  else if (65 <=? c) && (c <=? 70) then Some (c - 55)
  else None.

(** The four hex digits of a unicode escape. *)
Definition decode_uXXXX (h1 h2 h3 h4 : N) : option N :=
  match hexval h1, hexval h2, hexval h3, hexval h4 with
  | Some a, Some b, Some c, Some d => Some (a * 4096 + b * 256 + c * 16 + d)
  | _, _, _, _ => None
  end.

(** The table [BACKSLASH]. *)
Definition BACKSLASH (esc : N) : option N :=
  if esc =? 34 then Some 34
  else if esc =? 92 then Some 92
  else if esc =? 47 then Some 47
  else if esc =? 98 then Some 8
  else if esc =? 102 then Some 12
  else if esc =? 110 then Some 10
  else if esc =? 114 then Some 13
  else if esc =? 116 then Some 9
  else None.

Definition emit (c : N) (r : option (str * str)) : option (str * str) :=
  match r with
  | Some (k, rest) => Some (c :: k, rest)
  | None => None
  end.

(** [s[idx:idx + len(p)] == p]: what follows [p] when [s] starts with it. *)
Fixpoint strip_prefix (p s : str) : option str :=
  match p, s with
  | [], _ => Some s
  | x :: p', y :: s' => if x =? y then strip_prefix p' s' else None
  | _ :: _, [] => None
  end.

(** [0x10000 + (((uni - 0xd800) << 10) | (uni2 - 0xdc00))]. *)
Definition join_surrogates (uni uni2 : N) : N :=
  65536 + N.lor (N.shiftl (uni - 55296) 10) (uni2 - 56320).

(** [scanstring(s, end, strict=True)], from the character after the opening
    quote: the decoded string and what follows the closing quote. *)
Fixpoint scanstring (s : str) : option (str * str) :=
  match s with
  | [] => None
  | c :: s1 =>
      if c =? 34 then Some ([], s1)
      else if c =? 92 then
        match s1 with
        | [] => None
        | esc :: s2 =>
            if esc =? 117 then
              match s2 with
              | h1 :: h2 :: h3 :: h4 :: s6 =>
                  match decode_uXXXX h1 h2 h3 h4 with
                  | None => None
                  | Some uni =>
                      match s6 with
                      | b :: u :: s8 =>
                          if Codecs.is_high uni && (b =? 92) && (u =? 117)
                          then
                            match s8 with
                            | g1 :: g2 :: g3 :: g4 :: s12 =>
                                match decode_uXXXX g1 g2 g3 g4 with
                                | None => None
                                | Some uni2 =>
                                    if Codecs.is_low uni2
                                    then emit (join_surrogates uni uni2)
                                              (scanstring s12)
                                    else emit uni (scanstring s6)
                                end
                            | _ => None
                            end
                          else emit uni (scanstring s6)
                      | _ => emit uni (scanstring s6)
                      end
                  end
              | _ => None
              end
            else
              match BACKSLASH esc with
              | Some char => emit char (scanstring s2)
              | None => None
              end
        end
      else if c <=? 31 then None
      else emit c (scanstring s1)
  end.

Section Scanner.

Variable parse_float : float_parser.

(** The part of [_scan_once] that reads a constant or a number. *)
Definition scan_atom (s : str) : option (value * str) :=
  match strip_prefix (pystr "null") s with
  | Some r => Some (VNone, r)
  | None =>
  match strip_prefix (pystr "true") s with
  | Some r => Some (VBool true, r)
  | None =>
  match strip_prefix (pystr "false") s with
  | Some r => Some (VBool false, r)
  | None =>
  match match_number s with
  | Some (integer, frac, exp, rest) =>
      match frac, exp with
      | [], [] => Some (VInt (parse_int integer), rest)
      | _, _ => Some (VFloat (parse_float (integer ++ frac ++ exp)), rest)
      end
  | None =>
  match strip_prefix (pystr "NaN") s with
  | Some r => Some (VFloat (pystr "NaN"), r)
  | None =>
  match strip_prefix (pystr "Infinity") s with
  | Some r => Some (VFloat (pystr "Infinity"), r)
  | None =>
  match strip_prefix (pystr "-Infinity") s with
  | Some r => Some (VFloat (pystr "-Infinity"), r)
  | None => None
  end end end end end end end.

(** The loop of [JSONArray], entered at a value. *)
Fixpoint array_items (scan : str -> option (value * str)) (n : nat)
  (s : str) : option (list value * str) :=
  match n with
  | O => None
  | S n' =>
      match scan s with
      | None => None
      | Some (v, s1) =>
          match skip_ws s1 with
          | c :: s2 =>
              if c =? 93 then Some ([v], s2)
              else if c =? 44 then
                match array_items scan n' (skip_ws s2) with
                | Some (vs, rest) => Some (v :: vs, rest)
                | None => None
                end
              else None
          | [] => None
          end
      end
  end.

Definition JSONArray (scan : str -> option (value * str)) (s : str)
  : option (value * str) :=
  match skip_ws s with
  | c :: r =>
      if c =? 93 then Some (VList [], r)
      else
        match array_items scan (S (List.length s)) (skip_ws s) with
        | Some (vs, rest) => Some (VList vs, rest)
        | None => None
        end
  | [] => None
  end.

(** The loop of [JSONObject], entered after the opening quote of a key. *)
Fixpoint object_pairs (scan : str -> option (value * str)) (n : nat)
  (s : str) : option (list (str * value) * str) :=
  match n with
  | O => None
  | S n' =>
      match scanstring s with
      | None => None
      | Some (key, s1) =>
          match skip_ws s1 with
          | c :: s2 =>
              if c =? 58 then
                match scan (skip_ws s2) with
                | None => None
                | Some (v, s3) =>
                    match skip_ws s3 with
                    | c' :: s4 =>
                        if c' =? 125 then Some ([(key, v)], s4)
                        else if c' =? 44 then
                          match skip_ws s4 with
                          | q :: s5 =>
                              if q =? 34 then
                                match object_pairs scan n' s5 with
                                | Some (ps, rest) => Some ((key, v) :: ps, rest)
                                | None => None
                                end
                              else None
                          | [] => None
                          end
                        else None
                    | [] => None
                    end
                end
              else None
          | [] => None
          end
      end
  end.

Definition JSONObject (scan : str -> option (value * str)) (s : str)
  : option (value * str) :=
  match skip_ws s with
  | c :: r =>
      if c =? 125 then Some (VDict [], r)
      else if c =? 34 then
        match object_pairs scan (S (List.length s)) r with
        | Some (ps, rest) => Some (VDict (dict ps), rest)
        | None => None
        end
      else None
  | [] => None
  end.

(** [_scan_once(string, idx)] on the text from [idx] on.  Every nested call
    comes after an opening bracket has been read, so a depth of one more
    than the length of the text is never exceeded. *)
Fixpoint scan_once (depth : nat) (s : str) : option (value * str) :=
  match depth with
  | O => None
  | S depth' =>
      match s with
      | [] => None
      | c :: r =>
          if c =? 34 then
            match scanstring r with
            | Some (k, rest) => Some (VStr k, rest)
            | None => None
            end
          else if c =? 123 then JSONObject (scan_once depth') r
          else if c =? 91 then JSONArray (scan_once depth') r
          else scan_atom s
      end
  end.

(** [JSONDecoder.decode]: one value between white space, and nothing
    else. *)
Definition decode (s : str) : option value :=
  match scan_once (S (List.length s)) (skip_ws s) with
  | Some (v, rest) =>
      match skip_ws rest with
      | [] => Some v
      | _ => None
      end
  | None => None
  end.

(** [json.loads(b)] for a [bytes] object [b]. *)
Definition loads (b : bytes) : result value :=
  match Codecs.decode b with
  | None => Raise UnicodeDecodeError
  | Some s =>
      match decode s with
      | Some v => Ok v
      | None => Raise JSONDecodeError
      end
  end.

End Scanner.

End Decoder.

(** ** [json.dump] with [indent=2] *)

Module Encoder.

Definition hexdigit (d : N) : N := if d <? 10 then 48 + d else 87 + d.

(** [format(n, '04x')] for [n] below [0x10000]. *)
Definition hex4 (n : N) : str :=
  [hexdigit (n / 4096 mod 16); hexdigit (n / 256 mod 16);
   hexdigit (n / 16 mod 16); hexdigit (n mod 16)].

(** The function [replace] of [py_encode_basestring_ascii], applied to every
    character: the table [ESCAPE_DCT], the characters from space to tilde
    kept, and a unicode escape or a surrogate pair for the others. *)
Definition escape_char (c : N) : str :=
  if c =? 92 then [92; 92]
  else if c =? 34 then [92; 34]
  else if c =? 8 then [92; 98]
  else if c =? 12 then [92; 102]
  else if c =? 10 then [92; 110]
  else if c =? 13 then [92; 114]
  else if c =? 9 then [92; 116]
  else if (32 <=? c) && (c <=? 126) then [c]
  else if c <? 65536 then 92 :: 117 :: hex4 c
  else
    let n := c - 65536 in
    let s1 := N.lor 55296 (N.land (N.shiftr n 10) 1023) in
    let s2 := N.lor 56320 (N.land n 1023) in
    92 :: 117 :: hex4 s1 ++ 92 :: 117 :: hex4 s2.

Definition encode_basestring_ascii (s : str) : str :=
  34 :: flat_map escape_char s ++ [34].

Fixpoint chars_of_uint (u : uint) : str :=
  match u with
  | Nil => []
  | D0 u' => 48 :: chars_of_uint u'
  | D1 u' => 49 :: chars_of_uint u'
  | D2 u' => 50 :: chars_of_uint u'
  | D3 u' => 51 :: chars_of_uint u'
  | D4 u' => 52 :: chars_of_uint u'
  | D5 u' => 53 :: chars_of_uint u'
  | D6 u' => 54 :: chars_of_uint u'
  | D7 u' => 55 :: chars_of_uint u'
  | D8 u' => 56 :: chars_of_uint u'
  | D9 u' => 57 :: chars_of_uint u'
  end.

(** [int.__repr__]. *)
Definition intstr (z : Z) : str :=
  match z with
  | Zneg _ => 45 :: chars_of_uint (N.to_uint (Z.abs_N z))
  | _ => chars_of_uint (N.to_uint (Z.abs_N z))
  end.

(** ['\n' + ' ' * (2 * level)]. *)
Definition newline_indent (level : nat) : str :=
  10 :: repeat 32 (2 * level)%nat.

(** The chunks of a container, with the separator between them. *)
Fixpoint join (sep : str) (chunks : list str) : str :=
  match chunks with
  | [] => []
  | [c] => c
  | c :: cs => c ++ sep ++ join sep cs
  end.

(** [_iterencode(o, _current_indent_level)], the chunks concatenated. *)
Fixpoint iterencode (level : nat) (o : value) : str :=
  match o with
  | VStr s => encode_basestring_ascii s
  | VNone => pystr "null"
  | VBool true => pystr "true"
  | VBool false => pystr "false"
  | VInt z => intstr z
  | VFloat r => r
  | VList [] => pystr "[]"
  | VList l =>
      91 :: newline_indent (S level)
        ++ join (44 :: newline_indent (S level))
                (map (iterencode (S level)) l)
        ++ newline_indent level ++ [93]
  | VDict [] => pystr "{}"
  | VDict d =>
      123 :: newline_indent (S level)
        ++ join (44 :: newline_indent (S level))
                (map (fun kv : str * value =>
                        let (k, v) := kv in
                        encode_basestring_ascii k ++ [58; 32]
                          ++ iterencode (S level) v) d)
        ++ newline_indent level ++ [125]
  end.

(** [json.dumps(o, indent=2)]. *)
Definition dumps (o : value) : str := iterencode 0 o.

(** The bytes of a text file holding [s]; what [json.dump] writes is
    ASCII. *)
Definition file_bytes (s : str) : bytes :=
  map (fun c => match Byte.of_N c with Some b => b | None => x3f end) s.

End Encoder.

(** ** The blob store client *)

Module Blob.

(** Modelled from the spec: the Blob Store Client of section 6, an external
    key/value object store that is not part of the repository.  [get] fails
    with a transport or not-found error, [put] with a transport or
    permission error. *)
Record store : Type := mkStore {
  objects : list (str * str * bytes);
  get_fault : option error_kind;
  put_fault : option error_kind
}.

Fixpoint lookup (os : list (str * str * bytes)) (bucket key : str)
  : option bytes :=
  match os with
  | [] => None
  | (b, k, data) :: os' =>
      if str_eqb b bucket && str_eqb k key then Some data
      else lookup os' bucket key
  end.

Fixpoint replace (os : list (str * str * bytes)) (bucket key : str)
  (data : bytes) : list (str * str * bytes) :=
  match os with
  | [] => [(bucket, key, data)]
  | (b, k, d) :: os' =>
      if str_eqb b bucket && str_eqb k key then (b, k, data) :: os'
      else (b, k, d) :: replace os' bucket key data
  end.

Definition get (s : store) (bucket key : str) : result bytes :=
  match get_fault s with
  | Some kind => Raise (ClientError kind)
  | None =>
      match lookup (objects s) bucket key with
      | Some data => Ok data
      | None => Raise (ClientError NotFound)
      end
  end.

Definition put (s : store) (bucket key : str) (data : bytes)
  : result store :=
  match put_fault s with
  | Some kind => Raise (ClientError kind)
  | None =>
      Ok (mkStore (replace (objects s) bucket key data)
                  (get_fault s) (put_fault s))
  end.

End Blob.

(** ** The program state *)

(** A record of the module-level logger. *)
Inductive log_record : Type :=
| INFO (message : string)
| ERROR (message : string) (cause : exn).

(** What the methods read and write: the blob store behind the client
    [self.s3], the objects in memory that the caller holds references to,
    and the log.  The temporary files of [download_state] and
    [upload_state] are local to one call: what is read from one is what
    was written to it, and creating, flushing and unlinking one does not
    fail. *)
Record world : Type := mkWorld {
  s3 : Blob.store;
  memory : nat -> value;
  journal : list log_record
}.

(** A statement or expression with effects: it ends with a value or with
    an exception, in a new state. *)
Definition M (A : Type) : Type := world -> result A * world.

Definition ret {A} (a : A) : M A := fun w => (Ok a, w).

Definition raise {A} (e : exn) : M A := fun w => (Raise e, w).

Definition bindM {A B} (m : M A) (f : A -> M B) : M B :=
  fun w =>
    match m w with
    | (Ok a, w') => f a w'
    | (Raise e, w') => (Raise e, w')
    end.

(** [try: body except Exception as e: handler]. *)
Definition try_except {A} (body : M A) (handler : exn -> M A) : M A :=
  fun w =>
    match body w with
    | (Ok a, w') => (Ok a, w')
    | (Raise e, w') => handler e w'
    end.

Definition lift {A} (r : result A) : M A := fun w => (r, w).

Declare Scope M_scope.
Delimit Scope M_scope with M.
Notation "x <- m ;; k" := (bindM m (fun x => k))
  (at level 61, m at next level, right associativity) : M_scope.
Notation "m ;;; k" := (bindM m (fun _ => k))
  (at level 61, right associativity) : M_scope.

Definition logged (w : world) (r : log_record) : world :=
  mkWorld (s3 w) (memory w) (journal w ++ [r]).

Definition logger_info (message : string) : M unit :=
  fun w => (Ok tt, logged w (INFO message)).

Definition logger_error (message : string) (e : exn) : M unit :=
  fun w => (Ok tt, logged w (ERROR message e)).

(** [self.s3.download_fileobj(bucket, key, temp_file)] followed by
    [temp_file.seek(0)]: the bytes then in the temporary file. *)
Definition download_fileobj (bucket key : str) : M bytes :=
  fun w => (Blob.get (s3 w) bucket key, w).

(** [self.s3.upload_file(temp_file.name, bucket, key)] for a temporary file
    that holds [data]. *)
Definition upload_file (data : bytes) (bucket key : str) : M unit :=
  fun w =>
    match Blob.put (s3 w) bucket key data with
    | Ok s' => (Ok tt, mkWorld s' (memory w) (journal w))
    | Raise e => (Raise e, w)
    end.

(** The object that a reference points to. *)
Definition deref (ref : nat) : M value := fun w => (Ok (memory w ref), w).

(** ** [class TerraformStateManager] *)

Record TerraformStateManager : Type := mkManager {
  bucket_name : str;
  state_key : str;
  region : str
}.

Section Manager.

Variable parse_float : Decoder.float_parser.
Variable self : TerraformStateManager.

Local Open Scope M_scope.

(** [json.load(temp_file)]. *)
Definition json_load (data : bytes) : M value :=
  lift (Decoder.loads parse_float data).

(** [json.dump(state_data, temp_file, indent=2)] and [temp_file.flush()]:
    the bytes then in the temporary file. *)
Definition json_dump (state_data : value) : M bytes :=
  ret (Encoder.file_bytes (Encoder.dumps state_data)).

Definition download_state : M value :=
  try_except
    (data <- download_fileobj (bucket_name self) (state_key self) ;;
     state_data <- json_load data ;;
     logger_info "Successfully downloaded Terraform state" ;;;
     ret state_data)
    (fun e =>
       logger_error "Error downloading Terraform state" e ;;;
       ret VNone).

(** [state_data] is a reference to the caller's document. *)
Definition upload_state (state_data : nat) : M bool :=
  try_except
    (doc <- deref state_data ;;
     data <- json_dump doc ;;
     upload_file data (bucket_name self) (state_key self) ;;;
     logger_info "Successfully uploaded Terraform state" ;;;
     ret true)
    (fun e =>
       logger_error "Error uploading Terraform state" e ;;;
       ret false).

(** A [for] loop whose body appends to the list [resources]. *)
Fixpoint for_each (body : value -> result (list value)) (items : list value)
  : result (list value) :=
  match items with
  | [] => Ok []
  | x :: items' =>
      (appended <- body x ;;
       more <- for_each body items' ;;
       Ok (appended ++ more))%py
  end.

(** The dictionary display appended for one instance of one resource. *)
Definition flat_resource (resource instance : value) : result (list value) :=
  (type <- py_getitem resource (pystr "type") ;;
   name <- py_getitem resource (pystr "name") ;;
   provider <- py_getitem resource (pystr "provider") ;;
   state <- py_get instance (pystr "attributes") (VDict []) ;;
   dependencies <- py_get resource (pystr "depends_on") (VList []) ;;
   Ok [VDict [(pystr "type", type);
              (pystr "name", name);
              (pystr "provider", provider);
              (pystr "state", state);
              (pystr "dependencies", dependencies)]])%py.

(** The body of the outer loop of [get_resources]: the inner loop over the
    instances of [resource]. *)
Definition block_entries (resource : value) : result (list value) :=
  (instances <- py_get resource (pystr "instances") (VList []) ;;
   items <- py_iter instances ;;
   for_each (flat_resource resource) items)%py.

(** The two nested loops of [get_resources]. *)
Definition flatten (state_data : value) : result (list value) :=
  (resources <- py_get state_data (pystr "resources") (VList []) ;;
   blocks <- py_iter resources ;;
   for_each block_entries blocks)%py.

Definition get_resources : M (list value) :=
  state_data <- download_state ;;
  if negb (truthy state_data) then ret []
  else lift (flatten state_data).

(** [[r for r in all_resources if r['type'] == resource_type]]. *)
Fixpoint select_type (resource_type : str) (all_resources : list value)
  : result (list value) :=
  match all_resources with
  | [] => Ok []
  | r :: rest =>
      (type <- py_getitem r (pystr "type") ;;
       selected <- select_type resource_type rest ;;
       Ok (if py_eq_str type resource_type then r :: selected
           else selected))%py
  end.

Definition get_resource_by_type (resource_type : str) : M (list value) :=
  all_resources <- get_resources ;;
  lift (select_type resource_type all_resources).

(** The loop of [get_resource_by_name], with its [return None] at the
    end. *)
Fixpoint first_named (resource_name : str) (all_resources : list value)
  : result value :=
  match all_resources with
  | [] => Ok VNone
  | resource :: rest =>
      (name <- py_getitem resource (pystr "name") ;;
       if py_eq_str name resource_name then Ok resource
       else first_named resource_name rest)%py
  end.

Definition get_resource_by_name (resource_name : str) : M value :=
  all_resources <- get_resources ;;
  lift (first_named resource_name all_resources).

Definition list_outputs : M value :=
  state_data <- download_state ;;
  if negb (truthy state_data) then ret (VDict [])
  else lift (py_get state_data (pystr "outputs") (VDict [])).

End Manager.

(** ** Documents that serialize and parse back *)

Module Wf.

Import Decoder Encoder.

Definition is_ascii (c : N) : bool := (0 <? c) && (c <? 128).

(** What follows a value in the output of [json.dump]: a comma, a new line
    or the end of the text. *)
Definition delimited (rest : str) : Prop :=
  match rest with
  | [] => True
  | c :: _ => c = 44 \/ c = 10
  end.

(** A text that [json.dump] prints for a float and that the scanner reads
    back as that float. *)
Definition printed_float (pf : float_parser) (r : str) : Prop :=
  forallb is_ascii r = true
  /\ forall rest, delimited rest ->
       scan_atom pf (r ++ rest) = Some (VFloat r, rest).

(** What Python's [float] and [float.__repr__] provide together: the text
    printed for the float of a number literal reads back as that float. *)
Definition float_parser_ok (pf : float_parser) : Prop :=
  forall s integer frac exp rest,
    match_number s = Some (integer, frac, exp, rest) ->
    frac <> [] \/ exp <> [] ->
    printed_float pf (pf (integer ++ frac ++ exp)).

(** Code points are below [0x110000]. *)
Definition in_range (s : str) : bool := forallb (fun c => c <? 1114112) s.

(** No high surrogate is immediately followed by a low surrogate. *)
Fixpoint no_pair (s : str) : bool :=
  match s with
  | [] => true
  | h :: r =>
      negb (Codecs.is_high h
            && match r with
               | l :: _ => Codecs.is_low l
               | [] => false
               end)
      && no_pair r
  end.

(** No string of the document, key or value, holds such a pair. *)
Fixpoint no_surrogate_pair (v : value) : bool :=
  match v with
  | VStr s => no_pair s
  | VList l => forallb no_surrogate_pair l
  | VDict d =>
      forallb (fun kv : str * value =>
                 let (k, x) := kv in no_pair k && no_surrogate_pair x) d
  | _ => true
  end.

(** What every value built by [json.load] satisfies: floats in printed
    form, code points in range, distinct keys. *)
Unset Elimination Schemes.
Inductive parsed_form (pf : float_parser) : value -> Prop :=
| pf_none : parsed_form pf VNone
| pf_bool b : parsed_form pf (VBool b)
| pf_int z : parsed_form pf (VInt z)
| pf_float r : printed_float pf r -> parsed_form pf (VFloat r)
| pf_str s : in_range s = true -> parsed_form pf (VStr s)
| pf_list l : Forall (parsed_form pf) l -> parsed_form pf (VList l)
| pf_dict d :
    NoDup (map fst d) ->
    Forall (fun kv => in_range (fst kv) = true /\ parsed_form pf (snd kv)) d ->
    parsed_form pf (VDict d).
Set Elimination Schemes.

(** The nesting depth of a value. *)
Fixpoint depth (v : value) : nat :=
  match v with
  | VList l => S (list_max (map depth l))
  | VDict d => S (list_max (map (fun kv : str * value =>
                                   let (_, x) := kv in depth x) d))
  | _ => O
  end.

(** The four ways in which a character is printed. *)
Inductive escape_form (c : N) : str -> Prop :=
| escape_plain :
    c <> 34 -> c <> 92 -> 31 < c -> escape_form c [c]
| escape_short e :
    e <> 117 -> BACKSLASH e = Some c -> escape_form c [92; e]
| escape_bmp h1 h2 h3 h4 :
    decode_uXXXX h1 h2 h3 h4 = Some c ->
    escape_form c [92; 117; h1; h2; h3; h4]
| escape_astral h1 h2 h3 h4 g1 g2 g3 g4 s1 s2 :
    decode_uXXXX h1 h2 h3 h4 = Some s1 -> Codecs.is_high s1 = true ->
    decode_uXXXX g1 g2 g3 g4 = Some s2 -> Codecs.is_low s2 = true ->
    join_surrogates s1 s2 = c ->
    escape_form c [92; 117; h1; h2; h3; h4; 92; 117; g1; g2; g3; g4].

(** The text after a unicode escape does not start with the escape of a low
    surrogate. *)
Definition follow_ok (t : str) : Prop :=
  match t with
  | b :: u :: s8 =>
      if (b =? 92) && (u =? 117) then
        match s8 with
        | g1 :: g2 :: g3 :: g4 :: _ =>
            match decode_uXXXX g1 g2 g3 g4 with
            | Some uni2 => Codecs.is_low uni2 = false
            | None => False
            end
        | _ => False
        end
      else True
  | _ => True
  end.

(** The text starts with no digit. *)
Definition no_digit_ahead (rest : str) : Prop :=
  match rest with
  | c :: _ => is_digit c = false
  | [] => True
  end.

(** The first character of a printed value: no white space and no closing
    bracket. *)
Definition value_head (s : str) : Prop :=
  exists c t, s = c :: t /\ is_ws c = false /\ c <> 93.

(** [x] is printed at [level] in a way that [scan] reads back. *)
Definition reads (scan : str -> option (value * str)) (level : nat)
  (x : value) : Prop :=
  value_head (iterencode level x)
  /\ forall rest, delimited rest ->
       scan (iterencode level x ++ rest) = Some (x, rest).

(** A key and its value as [json.dump] prints them. *)
Definition member (level : nat) (kv : str * value) : str :=
  let (k, v) := kv in
  encode_basestring_ascii k ++ [58; 32] ++ iterencode (S level) v.

(** A key that prints and reads back. *)
Definition key_ok (k : str) : Prop := in_range k = true /\ no_pair k = true.

(** A text of ASCII characters other than NUL. *)
Definition ascii_text (s : str) : Prop := forallb is_ascii s = true.

(** The shapes of the three groups of a number. *)
Definition integer_form (i : str) : Prop :=
  exists sign body, i = sign ++ body
    /\ (sign = [] \/ sign = [45])
    /\ (body = [48]
        \/ exists c ds, body = c :: ds /\ c <> 48 /\ is_digit c = true
             /\ forallb is_digit ds = true).

Definition frac_form (f : str) : Prop :=
  f = [] \/ exists d ds, f = 46 :: d :: ds /\ forallb is_digit (d :: ds) = true.

Definition exp_form (e : str) : Prop :=
  e = []
  \/ exists c sign d ds, e = c :: sign ++ d :: ds
       /\ (c = 101 \/ c = 69)
       /\ (sign = [] \/ sign = [45] \/ sign = [43])
       /\ forallb is_digit (d :: ds) = true.

(** What a scanning function returns is in parsed form, and what is left
    of the text is code points. *)
Definition well_scanned (pf : float_parser)
  (scan : str -> option (value * str)) : Prop :=
  forall s v rest,
    in_range s = true -> scan s = Some (v, rest) ->
    parsed_form pf v /\ in_range rest = true.

(** A key with its value, as the members of a parsed [dict] are. *)
Definition field_form (pf : float_parser) (kv : str * value) : Prop :=
  in_range (fst kv) = true /\ parsed_form pf (snd kv).

(** The values of bytes. *)
Definition byte_values (b : list N) : Prop := Forall (fun x => x <= 255) b.

(** A scanning function that reads at least one character. *)
Definition consuming (scan : str -> option (value * str)) : Prop :=
  forall s v rest,
    scan s = Some (v, rest) -> (List.length rest < List.length s)%nat.

(** Two scanning functions that agree on the texts of at most [n]
    characters. *)
Definition agree (n : nat) (scan1 scan2 : str -> option (value * str))
  : Prop :=
  forall t, (List.length t <= n)%nat -> scan1 t = scan2 t.

End Wf.

(** ** The state-document model of the specification *)

Module Spec.

(** The field [k] of a mapping. *)
Definition field (o : value) (k : str) : option value :=
  match o with
  | VDict d => dict_lookup d k
  | _ => None
  end.

Definition has_field (o : value) (k : str) : bool :=
  match field o k with
  | Some _ => true
  | None => false
  end.

Definition is_dict (o : value) : bool :=
  match o with
  | VDict _ => true
  | _ => false
  end.

(** The instances of a ResourceBlock, none when the field is missing. *)
Definition instances_of (block : value) : list value :=
  match field block (pystr "instances") with
  | Some (VList l) => l
  | _ => []
  end.

Definition or_default (o : option value) (default : value) : value :=
  match o with
  | Some v => v
  | None => default
  end.

(** A ResourceBlock as the persisted layout has it: a mapping whose
    [instances], when present, is a sequence of mappings. *)
Definition block_shape (block : value) : bool :=
  is_dict block &&
  match field block (pystr "instances") with
  | None => true
  | Some (VList l) => forallb is_dict l
  | Some _ => false
  end.

Definition has_identity (block : value) : bool :=
  has_field block (pystr "type") && has_field block (pystr "name")
  && has_field block (pystr "provider").

(** A ResourceBlock with its [type], [name] and [provider]. *)
Definition block_ok (block : value) : bool :=
  block_shape block && has_identity block.

(** The FlatResource of a (ResourceBlock, ResourceInstance) pair. *)
Definition FlatResource (block instance : value) : value :=
  VDict [(pystr "type", or_default (field block (pystr "type")) VNone);
         (pystr "name", or_default (field block (pystr "name")) VNone);
         (pystr "provider",
           or_default (field block (pystr "provider")) VNone);
         (pystr "state",
           or_default (field instance (pystr "attributes")) (VDict []));
         (pystr "dependencies",
           or_default (field block (pystr "depends_on")) (VList []))].

(** Every pair in document order. *)
Definition list_all (blocks : list value) : list value :=
  flat_map (fun block => map (FlatResource block) (instances_of block))
           blocks.

(** The number of instances over all blocks. *)
Definition instance_count (blocks : list value) : nat :=
  list_sum (map (fun block => List.length (instances_of block)) blocks).

Definition has_type (resource_type : str) (r : value) : bool :=
  match field r (pystr "type") with
  | Some v => py_eq_str v resource_type
  | None => false
  end.

Definition has_name (resource_name : str) (r : value) : bool :=
  match field r (pystr "name") with
  | Some v => py_eq_str v resource_name
  | None => false
  end.

(** The first element that satisfies [p], or the not-found sentinel. *)
Definition first_or_none (p : value -> bool) (l : list value) : value :=
  match find p l with
  | Some r => r
  | None => VNone
  end.

End Spec.

(** What [get_resources] appends: a dictionary with the five keys. *)
Definition is_entry (r : value) : Prop :=
  exists type name provider state dependencies,
    r = VDict [(pystr "type", type);
               (pystr "name", name);
               (pystr "provider", provider);
               (pystr "state", state);
               (pystr "dependencies", dependencies)].

(** ** Example documents *)

(** A float parser that keeps the literal as it is written. *)
Definition float_as_written : Decoder.float_parser := fun literal => literal.

(** The bytes of an ASCII text in which ['] stands for the double quote. *)
Definition json_text (s : string) : bytes :=
  map (fun a => if Ascii.eqb a "'"%char then x22 else byte_of_ascii a)
      (list_ascii_of_string s).

Definition manager : TerraformStateManager :=
  mkManager (pystr "your-terraform-state-bucket")
            (pystr "dev/terraform.tfstate") (pystr "us-east-1").

(** A world whose bucket holds [data] under the key of [manager]. *)
Definition world_with (data : bytes) : world :=
  mkWorld (Blob.mkStore [(bucket_name manager, state_key manager, data)]
                        None None)
          (fun _ => VNone) [].

Definition empty_world : world :=
  mkWorld (Blob.mkStore [] None None) (fun _ => VNone) [].

(** The document of the end-to-end scenario. *)
Definition scenario : bytes :=
  json_text "{'resources':[{'type':'bucket','name':'logs','provider':'p','instances':[{'attributes':{'id':'logs-1'}}],'depends_on':[]}],'outputs':{'logs_arn':{'value':'arn:x:logs'}}}".



(** Two blocks of different types that share the name [x]. *)
Definition shared_name : bytes :=
  json_text "{'resources':[{'type':'bucket','name':'x','provider':'p','instances':[{}]},{'type':'queue','name':'x','provider':'p','instances':[{}]}]}".

(** A buffer that is not well-formed. *)
Definition truncated : bytes := json_text "{'resources':[".

(** The parsed form of [scenario]. *)
Definition scenario_blocks : list value :=
  [VDict [(pystr "type", VStr (pystr "bucket"));
          (pystr "name", VStr (pystr "logs"));
          (pystr "provider", VStr (pystr "p"));
          (pystr "instances",
            VList [VDict [(pystr "attributes",
                           VDict [(pystr "id", VStr (pystr "logs-1"))])]]);
          (pystr "depends_on", VList [])]].

Definition scenario_fields : list (str * value) :=
  [(pystr "resources", VList scenario_blocks);
   (pystr "outputs",
     VDict [(pystr "logs_arn",
             VDict [(pystr "value", VStr (pystr "arn:x:logs"))])])].



(** The three-byte forms of a high and of a low surrogate, which the
    [surrogatepass] handler of [json.load] accepts. *)
Definition surrogate_bytes : bytes := [xed; xa0; xbd; xed; xb8; x80].

(** A document with such a string in an output. *)
Definition surrogate_output : bytes :=
  json_text "{'outputs':{'icon':{'value':'" ++ surrogate_bytes
    ++ json_text "'}}}".


(** A world in which the caller holds [doc] and the bucket is empty. *)
Definition world_holding (doc : value) : world :=
  mkWorld (Blob.mkStore [] None None) (fun _ => doc) [].

(** ** What the properties below speak of *)

(** What a query leaves of the state it started in: the store and the
    objects in memory, and one more record in the log. *)
Definition only_logged (w w' : world) : Prop :=
  s3 w' = s3 w /\ memory w' = memory w
  /\ exists r, journal w' = journal w ++ [r].


(** The ways in which a text is stored besides plain UTF-8: with the UTF-8
    signature, or in 16-bit or 32-bit units of either byte order, with or
    without a byte order mark. *)
Inductive layout : Type :=
| signed_utf_8
| wide_16 (little mark : bool)
| wide_32 (little mark : bool).

(** The bytes of one ASCII character. *)
Definition code_unit (l : layout) (c : N) : list N :=
  match l with
  | signed_utf_8 => [c]
  | wide_16 true _ => [c; 0]
  | wide_16 false _ => [0; c]
  | wide_32 true _ => [c; 0; 0; 0]
  | wide_32 false _ => [0; 0; 0; c]
  end.

Definition byte_order_mark (l : layout) : list N :=
  match l with
  | signed_utf_8 => Codecs.BOM_UTF8
  | wide_16 true true => Codecs.BOM_UTF16_LE
  | wide_16 false true => Codecs.BOM_UTF16_BE
  | wide_32 true true => Codecs.BOM_UTF32_LE
  | wide_32 false true => Codecs.BOM_UTF32_BE
  | _ => []
  end.

(** The bytes of an ASCII text stored in the layout [l]. *)
Definition laid_out (l : layout) (s : str) : bytes :=
  Encoder.file_bytes (byte_order_mark l ++ flat_map (code_unit l) s).

(** ** [str] and [repr] *)

Module Display.

(** [format(n, 'x')] in at least [width] digits, for the widths 2, 4 and 8
    of the escapes. *)
Fixpoint hex (width : nat) (n : N) : str :=
  match width with
  | O => []
  | S width' => hex width' (n / 16) ++ [Encoder.hexdigit (n mod 16)]
  end.

Section Repr.

(** [str.isprintable] on a character above the ASCII range: a table of the
    Unicode database, which stays a parameter. *)
Variable isprintable : N -> bool.

(** The loop of [unicode_repr] on one character. *)
Definition repr_char (quote c : N) : str :=
  if (c =? quote) || (c =? 92) then [92; c]
  else if c =? 9 then [92; 116]
  else if c =? 10 then [92; 110]
  else if c =? 13 then [92; 114]
  else if (c <? 32) || (c =? 127) then 92 :: 120 :: hex 2 c
  else if c <? 127 then [c]
  else if isprintable c then [c]
  else if c <=? 255 then 92 :: 120 :: hex 2 c
  else if c <=? 65535 then 92 :: 117 :: hex 4 c
  else 92 :: 85 :: hex 8 c.

(** [repr(s)] for a [str]: double quotes when the string has a single
    quote and no double quote, single quotes otherwise. *)
Definition repr_str (s : str) : str :=
  let quote :=
    if existsb (N.eqb 39) s && negb (existsb (N.eqb 34) s) then 34 else 39 in
  quote :: flat_map (repr_char quote) s ++ [quote].

(** [repr(f)] for a [float], from the text that [json.dump] prints for
    it. *)
Definition repr_float (r : str) : str :=
  if str_eqb r (pystr "NaN") then pystr "nan"
  else if str_eqb r (pystr "Infinity") then pystr "inf"
  else if str_eqb r (pystr "-Infinity") then pystr "-inf"
  else r.

Fixpoint repr (v : value) : str :=
  match v with
  | VNone => pystr "None"
  | VBool true => pystr "True"
  | VBool false => pystr "False"
  | VInt z => Encoder.intstr z
  | VFloat r => repr_float r
  | VStr s => repr_str s
  | VList l => 91 :: Encoder.join (pystr ", ") (map repr l) ++ [93]
  | VDict d =>
      123 :: Encoder.join (pystr ", ")
               (map (fun kv : str * value =>
                       let (k, x) := kv in
                       repr_str k ++ pystr ": " ++ repr x) d)
        ++ [125]
  end.

(** [str(v)], which a replacement field of an f-string applies. *)
Definition format (v : value) : str :=
  match v with
  | VStr s => s
  | _ => repr v
  end.

End Repr.

End Display.

(** ** The script *)

(** The running script: the state of the methods and the lines written to
    the standard output, which takes every string. *)
Record process : Type := mkProcess {
  state : world;
  stdout : list str
}.

Definition IO (A : Type) : Type := process -> result A * process.

Definition bindIO {A B} (m : IO A) (f : A -> IO B) : IO B :=
  fun p =>
    match m p with
    | (Ok a, p') => f a p'
    | (Raise e, p') => (Raise e, p')
    end.

Declare Scope IO_scope.
Delimit Scope IO_scope with IO.
Notation "x <- m ;; k" := (bindIO m (fun x => k))
  (at level 61, m at next level, right associativity) : IO_scope.
Notation "m ;;; k" := (bindIO m (fun _ => k))
  (at level 61, right associativity) : IO_scope.

(** [print(line)]. *)
Definition print (line : str) : IO unit :=
  fun p => (Ok tt, mkProcess (state p) (stdout p ++ [line])).

(** A call of a method. *)
Definition call {A} (m : M A) : IO A :=
  fun p => let (r, w) := m (state p) in (r, mkProcess w (stdout p)).

(** The evaluation of an expression. *)
Definition eval {A} (r : result A) : IO A := fun p => (r, p).

(** A [for] loop. *)
Fixpoint for_in {A} (items : list A) (body : A -> IO unit) : IO unit :=
  match items with
  | [] => fun p => (Ok tt, p)
  | x :: items' => bindIO (body x) (fun _ => for_in items' body)
  end.

(** [TerraformStateManager(bucket_name, state_key, region)]; the record of
    the log keeps the message as the f-string is written, its fields being
    the attributes of the manager.  Making the client fails in no way. *)
Definition __init__ (bucket_name state_key region : str)
  : M TerraformStateManager :=
  (logger_info
     "Initialized Terraform state manager for s3://{bucket_name}/{state_key}" ;;;
   ret (mkManager bucket_name state_key region))%M.

(** [o.items()]: only a [dict] has the attribute. *)
Definition py_items (o : value) : result (list (str * value)) :=
  match o with
  | VDict d => Ok d
  | _ => Raise AttributeError
  end.

(** ['=' * 40]. *)
Definition rule : str := repeat 61 40%nat.

Section Script.

Variable parse_float : Decoder.float_parser.
Variable isprintable : N -> bool.

Local Open Scope IO_scope.

(** The lines before the download. *)
Definition banner : list str :=
  [pystr "Terraform State Management Demo";
   rule;
   pystr "Note: This demo uses example bucket '"
     ++ pystr "your-terraform-state-bucket" ++ pystr "' and key '"
     ++ pystr "dev/terraform.tfstate" ++ pystr "'";
   pystr "Replace these with your actual Terraform state location";
   10 :: pystr "1. Attempting to download Terraform state..."].

(** [f"   {resource['type']}.{resource['name']}"]. *)
Definition resource_line (resource : value) : result str :=
  (type <- py_getitem resource (pystr "type") ;;
   name <- py_getitem resource (pystr "name") ;;
   Ok (pystr "   " ++ Display.format isprintable type ++ [46]
         ++ Display.format isprintable name))%py.

(** [f"   {name}: {output.get('value', 'N/A')}"]. *)
Definition output_line (item : str * value) : result str :=
  let (name, output) := item in
  (value <- py_get output (pystr "value") (VStr (pystr "N/A")) ;;
   Ok (pystr "   " ++ name ++ pystr ": "
         ++ Display.format isprintable value))%py.

Definition main : IO unit :=
  print (pystr "Terraform State Management Demo") ;;;
  print rule ;;;
  let bucket_name := pystr "your-terraform-state-bucket" in
  let state_key := pystr "dev/terraform.tfstate" in
  print (pystr "Note: This demo uses example bucket '" ++ bucket_name
           ++ pystr "' and key '" ++ state_key ++ pystr "'") ;;;
  print (pystr "Replace these with your actual Terraform state location") ;;;
  state_manager <- call (__init__ bucket_name state_key (pystr "us-east-1")) ;;
  print (10 :: pystr "1. Attempting to download Terraform state...") ;;;
  state_data <- call (download_state parse_float state_manager) ;;
  (if truthy state_data then
     print (pystr "   " ++ 10003 :: pystr " Successfully downloaded state") ;;;
     print (10 :: pystr "2. Resources in state:") ;;;
     resources <- call (get_resources parse_float state_manager) ;;
     match resources with
     | _ :: _ =>
         for_in resources
           (fun resource => line <- eval (resource_line resource) ;;
                            print line)
     | [] => print (pystr "   No resources found")
     end ;;;
     print (10 :: pystr "3. Terraform outputs:") ;;;
     outputs <- call (list_outputs parse_float state_manager) ;;
     if truthy outputs then
       items <- eval (py_items outputs) ;;
       for_in items
         (fun item => line <- eval (output_line item) ;; print line)
     else print (pystr "   No outputs found")
   else
     print (pystr "   " ++ 10007
              :: pystr " Failed to download state (expected with example bucket)") ;;;
     print (pystr "   This is normal - replace bucket_name and state_key with real values")) ;;;
  print (10 :: rule) ;;;
  print (pystr "Demo completed!").

End Script.


(** The lines after a download that gave none. *)
Definition failure_lines : list str :=
  [pystr "   " ++ 10007
     :: pystr " Failed to download state (expected with example bucket)";
   pystr "   This is normal - replace bucket_name and state_key with real values"].

(** The last lines. *)
Definition closing : list str := [10 :: rule; pystr "Demo completed!"].

(** The records of the log. *)
Definition initialized : log_record :=
  INFO "Initialized Terraform state manager for s3://{bucket_name}/{state_key}".


(** [str.isprintable] with no printable character above the ASCII range. *)
Definition ascii_printable : N -> bool := fun _ => false.

(** A process that has written nothing, in a world whose bucket holds
    [data]. *)
Definition process_with (data : bytes) : process :=
  mkProcess (world_with data) [].

(** * AWS infrastructure manager

    A shallow embedding of [terraform-aws/python/aws_infrastructure.py]
    (class [AWSInfrastructureManager]).  The clients of [boto3] are not
    part of the repository: a call of a client is an oracle that, in the
    current state of the account, returns a response or raises, and leaves
    the account in a new state. *)

Module Aws.

(** A [datetime] of a response.  The methods only format it, with a format
    that reads neither the microseconds nor the time zone. *)
Record datetime : Type := mkDatetime {
  year : N;
  month : N;
  day : N;
  hour : N;
  minute : N;
  second : N;
  microsecond : N
}.

(** The values of a response and of the results: [None], [bool], [int],
    [str], [datetime], [list] and [dict] (insertion ordered).  Floats,
    bytes, tuples and sets are left out. *)
Unset Elimination Schemes.
Inductive obj : Type :=
| ONone
| OBool (b : bool)
| OInt (z : Z)
| OStr (s : str)
| OTime (t : datetime)
| OList (l : list obj)
| ODict (d : list (obj * obj)).
Set Elimination Schemes.

Definition datetime_eqb (a b : datetime) : bool :=
  (year a =? year b) && (month a =? month b) && (day a =? day b)
  && (hour a =? hour b) && (minute a =? minute b) && (second a =? second b)
  && (microsecond a =? microsecond b).

(** The number that a [bool] or an [int] is. *)
Definition number (k : obj) : option Z :=
  match k with
  | OBool true => Some 1%Z
  | OBool false => Some 0%Z
  | OInt z => Some z
  | _ => None
  end.

(** [a == b] on the keys of a [dict]: [True] is the key [1]. *)
Definition key_eqb (a b : obj) : bool :=
  match a, b with
  | ONone, ONone => true
  | OStr s, OStr t => str_eqb s t
  | OTime s, OTime t => datetime_eqb s t
  | _, _ =>
      match number a, number b with
      | Some x, Some y => (x =? y)%Z
      | _, _ => false
      end
  end.

(** Two keys are the same key when they are equal values, [True] being 1
    and [False] 0. *)
Definition same_key (a b : obj) : Prop :=
  match a, b with
  | ONone, ONone => True
  | OStr s, OStr t => s = t
  | OTime s, OTime t => s = t
  | _, _ =>
      match number a, number b with
      | Some x, Some y => x = y
      | _, _ => False
      end
  end.

(** A [list] and a [dict] have no hash. *)
Definition hashable (k : obj) : bool :=
  match k with
  | OList _ | ODict _ => false
  | _ => true
  end.

Fixpoint lookup (d : list (obj * obj)) (k : obj) : option obj :=
  match d with
  | [] => None
  | (k', v) :: d' => if key_eqb k' k then Some v else lookup d' k
  end.

(** [d[k] = v]: an existing key keeps its position and stays the key. *)
Fixpoint store (d : list (obj * obj)) (k v : obj) : list (obj * obj) :=
  match d with
  | [] => [(k, v)]
  | (k', v') :: d' =>
      if key_eqb k' k then (k', v) :: d' else (k', v') :: store d' k v
  end.

(** [o[k]] for a [str] key [k]. *)
Definition getitem (o : obj) (k : str) : result obj :=
  match o with
  | ODict d =>
      match lookup d (OStr k) with
      | Some v => Ok v
      | None => Raise (KeyError k)
      end
  | _ => Raise TypeError
  end.

(** [o.get(k, default)]. *)
Definition get (o : obj) (k : str) (default : obj) : result obj :=
  match o with
  | ODict d =>
      match lookup d (OStr k) with
      | Some v => Ok v
      | None => Ok default
      end
  | _ => Raise AttributeError
  end.

(** The items that [for x in o] visits. *)
Definition iter (o : obj) : result (list obj) :=
  match o with
  | OList l => Ok l
  | ODict d => Ok (map fst d)
  | OStr s => Ok (map (fun c => OStr [c]) s)
  | _ => Raise TypeError
  end.

(** [format(n, 'd')]. *)
Definition decimal (n : N) : str := Encoder.chars_of_uint (N.to_uint n).

(** [format(n, '02d')]. *)
Definition two_digits (n : N) : str :=
  if n <? 10 then 48 :: decimal n else decimal n.

(** [t.strftime('%Y-%m-%d %H:%M:%S')], the year written without padding as
    the C library on Linux does. *)
Definition strftime (t : datetime) : str :=
  decimal (year t) ++ [45] ++ two_digits (month t) ++ [45]
    ++ two_digits (day t) ++ [32] ++ two_digits (hour t) ++ [58]
    ++ two_digits (minute t) ++ [58] ++ two_digits (second t).

(** [o.strftime('%Y-%m-%d %H:%M:%S')]: only a [datetime] has the
    attribute. *)
Definition py_strftime (o : obj) : result obj :=
  match o with
  | OTime t => Ok (OStr (strftime t))
  | _ => Raise AttributeError
  end.

(** A loop whose body appends to a list. *)
Fixpoint for_each {A} (body : A -> result (list obj)) (items : list A)
  : result (list obj) :=
  match items with
  | [] => Ok []
  | x :: items' =>
      (appended <- body x ;;
       more <- for_each body items' ;;
       Ok (appended ++ more))%py
  end.

(** [{tag['Key']: tag['Value'] for tag in tags}], from the dictionary
    [acc]. *)
Fixpoint tags_from (acc : list (obj * obj)) (tags : list obj)
  : result (list (obj * obj)) :=
  match tags with
  | [] => Ok acc
  | tag :: tags' =>
      (key <- getitem tag (pystr "Key") ;;
       value <- getitem tag (pystr "Value") ;;
       if hashable key then tags_from (store acc key value) tags'
       else Raise TypeError)%py
  end.

(** [{tag['Key']: tag['Value'] for tag in o.get('Tags', [])}]. *)
Definition tags_of (o : obj) : result obj :=
  (tags <- get o (pystr "Tags") (OList []) ;;
   items <- iter tags ;;
   d <- tags_from [] items ;;
   Ok (ODict d))%py.

(** The dictionary appended for one instance. *)
Definition instance_entry (instance : obj) : result (list obj) :=
  (instance_id <- getitem instance (pystr "InstanceId") ;;
   instance_type <- getitem instance (pystr "InstanceType") ;;
   state <- getitem instance (pystr "State") ;;
   state_name <- getitem state (pystr "Name") ;;
   public_ip <- get instance (pystr "PublicIpAddress") (OStr (pystr "N/A")) ;;
   private_ip <- get instance (pystr "PrivateIpAddress") (OStr (pystr "N/A")) ;;
   launched <- getitem instance (pystr "LaunchTime") ;;
   launch_time <- py_strftime launched ;;
   tags <- tags_of instance ;;
   Ok [ODict [(OStr (pystr "instance_id"), instance_id);
              (OStr (pystr "instance_type"), instance_type);
              (OStr (pystr "state"), state_name);
              (OStr (pystr "public_ip"), public_ip);
              (OStr (pystr "private_ip"), private_ip);
              (OStr (pystr "launch_time"), launch_time);
              (OStr (pystr "tags"), tags)]])%py.

(** The inner loop of [list_ec2_instances]. *)
Definition reservation_entries (reservation : obj) : result (list obj) :=
  (instances <- getitem reservation (pystr "Instances") ;;
   items <- iter instances ;;
   for_each instance_entry items)%py.

(** The two loops of [list_ec2_instances]. *)
Definition instances_of (response : obj) : result (list obj) :=
  (reservations <- getitem response (pystr "Reservations") ;;
   items <- iter reservations ;;
   for_each reservation_entries items)%py.

(** The dictionary appended for one stack. *)
Definition stack_entry (stack : obj) : result (list obj) :=
  (stack_name <- getitem stack (pystr "StackName") ;;
   stack_status <- getitem stack (pystr "StackStatus") ;;
   created <- getitem stack (pystr "CreationTime") ;;
   creation_time <- py_strftime created ;;
   description <- get stack (pystr "StackStatusReason") (OStr (pystr "N/A")) ;;
   Ok [ODict [(OStr (pystr "stack_name"), stack_name);
              (OStr (pystr "stack_status"), stack_status);
              (OStr (pystr "creation_time"), creation_time);
              (OStr (pystr "description"), description)]])%py.

(** The loop of [list_cloudformation_stacks]. *)
Definition stacks_of (response : obj) : result (list obj) :=
  (summaries <- getitem response (pystr "StackSummaries") ;;
   items <- iter summaries ;;
   for_each stack_entry items)%py.

(** The dictionary appended for one VPC. *)
Definition vpc_entry (vpc : obj) : result (list obj) :=
  (vpc_id <- getitem vpc (pystr "VpcId") ;;
   cidr_block <- getitem vpc (pystr "CidrBlock") ;;
   state <- getitem vpc (pystr "State") ;;
   is_default <- getitem vpc (pystr "IsDefault") ;;
   tags <- tags_of vpc ;;
   Ok [ODict [(OStr (pystr "vpc_id"), vpc_id);
              (OStr (pystr "cidr_block"), cidr_block);
              (OStr (pystr "state"), state);
              (OStr (pystr "is_default"), is_default);
              (OStr (pystr "tags"), tags)]])%py.

(** The loop of [get_vpc_info]. *)
Definition vpcs_of (response : obj) : result (list obj) :=
  (vpcs <- getitem response (pystr "Vpcs") ;;
   items <- iter vpcs ;;
   for_each vpc_entry items)%py.

Section Manager.

(** The state of the account behind the clients. *)
Variable cloud : Type.

(** The calls of the clients that the methods make; the arguments are the
    keyword arguments of the call. *)
Record Clients : Type := mkClients {
  sts_get_caller_identity : cloud -> result obj * cloud;
  ec2_describe_instances : cloud -> result obj * cloud;
  ec2_describe_vpcs : cloud -> result obj * cloud;
  ec2_create_security_group :
    forall (GroupName Description VpcId : str), cloud -> result obj * cloud;
  s3_list_buckets : cloud -> result obj * cloud;
  s3_get_bucket_location : forall (Bucket : obj), cloud -> result obj * cloud;
  s3_create_bucket :
    forall (Bucket : str) (LocationConstraint : option str),
      cloud -> result obj * cloud;
  s3_upload_file :
    forall (Filename Bucket Key : str), cloud -> result unit * cloud;
  cloudformation_list_stacks :
    forall (StackStatusFilter : list str), cloud -> result obj * cloud
}.

(** What the methods read and write: the account and the log. *)
Record account : Type := mkAccount {
  remote : cloud;
  journal : list log_record
}.

Definition M (A : Type) : Type := account -> result A * account.

Definition ret {A} (a : A) : M A := fun w => (Ok a, w).

Definition bindM {A B} (m : M A) (f : A -> M B) : M B :=
  fun w =>
    match m w with
    | (Ok a, w') => f a w'
    | (Raise e, w') => (Raise e, w')
    end.

(** [try: body except Exception as e: handler]. *)
Definition try_except {A} (body : M A) (handler : exn -> M A) : M A :=
  fun w =>
    match body w with
    | (Ok a, w') => (Ok a, w')
    | (Raise e, w') => handler e w'
    end.

Definition lift {A} (r : result A) : M A := fun w => (r, w).

(** A call of a client. *)
Definition call {A} (request : cloud -> result A * cloud) : M A :=
  fun w =>
    let (r, c) := request (remote w) in (r, mkAccount c (journal w)).

Definition logger_info (message : string) : M unit :=
  fun w => (Ok tt, mkAccount (remote w) (journal w ++ [INFO message])).

Definition logger_error (message : string) (e : exn) : M unit :=
  fun w => (Ok tt, mkAccount (remote w) (journal w ++ [ERROR message e])).

Declare Scope aws_scope.
Delimit Scope aws_scope with aws.
Notation "x <- m ;; k" := (bindM m (fun x => k))
  (at level 61, m at next level, right associativity) : aws_scope.
Notation "m ;;; k" := (bindM m (fun _ => k))
  (at level 61, right associativity) : aws_scope.

(** A loop whose body calls a client and appends to a list. *)
Fixpoint for_eachM {A} (body : A -> M (list obj)) (items : list A)
  : M (list obj) :=
  match items with
  | [] => ret []
  | x :: items' =>
      (appended <- body x ;;
       more <- for_eachM body items' ;;
       ret (appended ++ more))%aws
  end.

Record AWSInfrastructureManager : Type := mkManager {
  region : str;
  clients : Clients
}.

Variable self : AWSInfrastructureManager.

Local Open Scope aws_scope.

Definition get_account_info : M obj :=
  try_except
    (response <- call (sts_get_caller_identity (clients self)) ;;
     account_id <- lift (getitem response (pystr "Account")) ;;
     user_id <- lift (getitem response (pystr "UserId")) ;;
     arn <- lift (getitem response (pystr "Arn")) ;;
     ret (ODict [(OStr (pystr "account_id"), account_id);
                 (OStr (pystr "user_id"), user_id);
                 (OStr (pystr "arn"), arn)]))
    (fun e =>
       logger_error "Error getting account info" e ;;;
       ret (ODict [])).

Definition list_ec2_instances : M obj :=
  try_except
    (response <- call (ec2_describe_instances (clients self)) ;;
     instances <- lift (instances_of response) ;;
     ret (OList instances))
    (fun e =>
       logger_error "Error listing EC2 instances" e ;;;
       ret (OList [])).

(** The inner [try] of [list_s3_buckets], whose [except] takes every
    exception and logs nothing. *)
Definition bucket_region (bucket : obj) : M obj :=
  try_except
    (name <- lift (getitem bucket (pystr "Name")) ;;
     location_response <- call (s3_get_bucket_location (clients self) name) ;;
     lift (get location_response (pystr "LocationConstraint")
             (OStr (pystr "us-east-1"))))
    (fun _ => ret (OStr (pystr "unknown"))).

(** The body of the loop of [list_s3_buckets]. *)
Definition bucket_entry (bucket : obj) : M (list obj) :=
  region <- bucket_region bucket ;;
  name <- lift (getitem bucket (pystr "Name")) ;;
  created <- lift (getitem bucket (pystr "CreationDate")) ;;
  creation_date <- lift (py_strftime created) ;;
  ret [ODict [(OStr (pystr "name"), name);
              (OStr (pystr "creation_date"), creation_date);
              (OStr (pystr "region"), region)]].

Definition list_s3_buckets : M obj :=
  try_except
    (response <- call (s3_list_buckets (clients self)) ;;
     listed <- lift (getitem response (pystr "Buckets")) ;;
     items <- lift (iter listed) ;;
     buckets <- for_eachM bucket_entry items ;;
     ret (OList buckets))
    (fun e =>
       logger_error "Error listing S3 buckets" e ;;;
       ret (OList [])).

(** [region or self.region]. *)
Definition region_or (given : option str) : str :=
  match given with
  | Some (c :: s) => c :: s
  | _ => region self
  end.

Definition create_s3_bucket (bucket_name : str) (region : option str)
  : M bool :=
  try_except
    (let region := region_or region in
     (if str_eqb region (pystr "us-east-1")
      then call (s3_create_bucket (clients self) bucket_name None)
      else call (s3_create_bucket (clients self) bucket_name (Some region))) ;;;
     logger_info "Created S3 bucket: {bucket_name}" ;;;
     ret true)
    (fun e =>
       logger_error "Error creating S3 bucket {bucket_name}" e ;;;
       ret false).

Definition upload_file_to_s3 (file_path bucket_name key : str) : M bool :=
  try_except
    (call (s3_upload_file (clients self) file_path bucket_name key) ;;;
     logger_info "Uploaded {file_path} to s3://{bucket_name}/{key}" ;;;
     ret true)
    (fun e =>
       logger_error "Error uploading file to S3" e ;;;
       ret false).

Definition list_cloudformation_stacks : M obj :=
  try_except
    (response <-
       call (cloudformation_list_stacks (clients self)
               [pystr "CREATE_COMPLETE"; pystr "UPDATE_COMPLETE"]) ;;
     stacks <- lift (stacks_of response) ;;
     ret (OList stacks))
    (fun e =>
       logger_error "Error listing CloudFormation stacks" e ;;;
       ret (OList [])).

Definition get_vpc_info : M obj :=
  try_except
    (response <- call (ec2_describe_vpcs (clients self)) ;;
     vpcs <- lift (vpcs_of response) ;;
     ret (OList vpcs))
    (fun e =>
       logger_error "Error getting VPC info" e ;;;
       ret (OList [])).

Definition create_security_group (group_name description vpc_id : str)
  : M obj :=
  try_except
    (response <-
       call (ec2_create_security_group (clients self)
               group_name description vpc_id) ;;
     security_group_id <- lift (getitem response (pystr "GroupId")) ;;
     logger_info "Created security group: {security_group_id}" ;;;
     ret security_group_id)
    (fun e =>
       logger_error "Error creating security group" e ;;;
       ret ONone).

End Manager.

(** ** Responses of the documented shapes *)

(** The field [k] of a mapping. *)
Definition field (o : obj) (k : str) : option obj :=
  match o with
  | ODict d => lookup d (OStr k)
  | _ => None
  end.

Definition has_field (o : obj) (k : str) : bool :=
  match field o k with
  | Some _ => true
  | None => false
  end.

Definition is_dict (o : obj) : bool :=
  match o with
  | ODict _ => true
  | _ => false
  end.

Definition or_default (o : option obj) (default : obj) : obj :=
  match o with
  | Some v => v
  | None => default
  end.

(** The sequence under the key [k], none when the field is missing. *)
Definition items_of (o : obj) (k : str) : list obj :=
  match field o k with
  | Some (OList l) => l
  | _ => []
  end.

(** The field [k] is a [datetime]. *)
Definition has_time (o : obj) (k : str) : bool :=
  match field o k with
  | Some (OTime _) => true
  | _ => false
  end.

(** The text of the [datetime] under [k]. *)
Definition time_text (o : obj) (k : str) : obj :=
  match field o k with
  | Some (OTime t) => OStr (strftime t)
  | _ => ONone
  end.

(** A tag: a mapping with a hashable [Key] and a [Value]. *)
Definition tag_ok (tag : obj) : bool :=
  is_dict tag && has_field tag (pystr "Value")
  && match field tag (pystr "Key") with
     | Some key => hashable key
     | None => false
     end.

(** The [Tags] of a resource, when present, are a sequence of tags. *)
Definition tags_ok (o : obj) : bool :=
  match field o (pystr "Tags") with
  | None => true
  | Some (OList tags) => forallb tag_ok tags
  | Some _ => false
  end.

(** The key and the value of a tag. *)
Definition tag_pair (tag : obj) : obj * obj :=
  (or_default (field tag (pystr "Key")) ONone,
   or_default (field tag (pystr "Value")) ONone).

(** The dictionary of the tags, each stored in turn. *)
Definition tags_dict (o : obj) : obj :=
  ODict (fold_left (fun acc tag => store acc (fst (tag_pair tag))
                                         (snd (tag_pair tag)))
                   (items_of o (pystr "Tags")) []).

(** An instance as [describe_instances] documents it. *)
Definition instance_ok (instance : obj) : bool :=
  is_dict instance
  && has_field instance (pystr "InstanceId")
  && has_field instance (pystr "InstanceType")
  && match field instance (pystr "State") with
     | Some state => is_dict state && has_field state (pystr "Name")
     | None => false
     end
  && has_time instance (pystr "LaunchTime")
  && tags_ok instance.

(** What [list_ec2_instances] shows of an instance. *)
Definition instance_view (instance : obj) : obj :=
  ODict [(OStr (pystr "instance_id"),
           or_default (field instance (pystr "InstanceId")) ONone);
         (OStr (pystr "instance_type"),
           or_default (field instance (pystr "InstanceType")) ONone);
         (OStr (pystr "state"),
           or_default
             (field (or_default (field instance (pystr "State")) ONone)
                    (pystr "Name")) ONone);
         (OStr (pystr "public_ip"),
           or_default (field instance (pystr "PublicIpAddress"))
             (OStr (pystr "N/A")));
         (OStr (pystr "private_ip"),
           or_default (field instance (pystr "PrivateIpAddress"))
             (OStr (pystr "N/A")));
         (OStr (pystr "launch_time"),
           time_text instance (pystr "LaunchTime"));
         (OStr (pystr "tags"), tags_dict instance)].

(** A reservation: a mapping with a sequence of instances. *)
Definition reservation_ok (reservation : obj) : bool :=
  is_dict reservation
  && match field reservation (pystr "Instances") with
     | Some (OList instances) => forallb instance_ok instances
     | _ => false
     end.

(** Every instance of every reservation, in the order of the response. *)
Definition all_instances (reservations : list obj) : list obj :=
  flat_map (fun reservation =>
              map instance_view (items_of reservation (pystr "Instances")))
           reservations.

(** A bucket as [list_buckets] documents it. *)
Definition bucket_ok (bucket : obj) : bool :=
  is_dict bucket && has_field bucket (pystr "Name")
  && has_time bucket (pystr "CreationDate").

(** The entry of a bucket whose region was found to be [region]. *)
Definition bucket_view (bucket region : obj) : obj :=
  ODict [(OStr (pystr "name"),
           or_default (field bucket (pystr "Name")) ONone);
         (OStr (pystr "creation_date"),
           time_text bucket (pystr "CreationDate"));
         (OStr (pystr "region"), region)].

(** The region that [list_s3_buckets] shows for an answer of
    [get_bucket_location]. *)
Definition region_shown (answer : result obj) : obj :=
  match answer with
  | Ok (ODict d) =>
      or_default (lookup d (OStr (pystr "LocationConstraint")))
        (OStr (pystr "us-east-1"))
  | _ => OStr (pystr "unknown")
  end.

(** The entries of [buckets], the region of each asked for in turn from the
    account in the state [c]; and the state of the account afterwards. *)
Fixpoint located {cloud} (ask : obj -> cloud -> result obj * cloud)
  (buckets : list obj) (c : cloud) : list obj * cloud :=
  match buckets with
  | [] => ([], c)
  | bucket :: rest =>
      let (answer, c1) :=
        ask (or_default (field bucket (pystr "Name")) ONone) c in
      let (entries, c2) := located ask rest c1 in
      (bucket_view bucket (region_shown answer) :: entries, c2)
  end.

(** A stack summary as [list_stacks] documents it. *)
Definition stack_ok (stack : obj) : bool :=
  is_dict stack && has_field stack (pystr "StackName")
  && has_field stack (pystr "StackStatus")
  && has_time stack (pystr "CreationTime").

Definition stack_view (stack : obj) : obj :=
  ODict [(OStr (pystr "stack_name"),
           or_default (field stack (pystr "StackName")) ONone);
         (OStr (pystr "stack_status"),
           or_default (field stack (pystr "StackStatus")) ONone);
         (OStr (pystr "creation_time"),
           time_text stack (pystr "CreationTime"));
         (OStr (pystr "description"),
           or_default (field stack (pystr "StackStatusReason"))
             (OStr (pystr "N/A")))].

(** A VPC as [describe_vpcs] documents it. *)
Definition vpc_ok (vpc : obj) : bool :=
  is_dict vpc && has_field vpc (pystr "VpcId")
  && has_field vpc (pystr "CidrBlock") && has_field vpc (pystr "State")
  && has_field vpc (pystr "IsDefault") && tags_ok vpc.

Definition vpc_view (vpc : obj) : obj :=
  ODict [(OStr (pystr "vpc_id"),
           or_default (field vpc (pystr "VpcId")) ONone);
         (OStr (pystr "cidr_block"),
           or_default (field vpc (pystr "CidrBlock")) ONone);
         (OStr (pystr "state"),
           or_default (field vpc (pystr "State")) ONone);
         (OStr (pystr "is_default"),
           or_default (field vpc (pystr "IsDefault")) ONone);
         (OStr (pystr "tags"), tags_dict vpc)].

(** What a method does about exceptions: it returns in every case, and
    when its request to the client raises it returns [fallback] and logs
    the exception. *)
Definition falls_back {cloud A B} (method : M cloud A)
  (request : cloud -> result B * cloud) (fallback : A) (message : string)
  (w : account cloud) : Prop :=
  (exists a, fst (method w) = Ok a)
  /\ forall e,
       fst (request (remote cloud w)) = Raise e ->
       method w
       = (Ok fallback,
          mkAccount cloud (snd (request (remote cloud w)))
            (journal cloud w ++ [ERROR message e])).


(** The order in time of two [datetime]s, to the second. *)
Definition earlier (a b : datetime) : bool :=
  (year a <? year b)
  || (year a =? year b)
     && ((month a <? month b)
         || (month a =? month b)
            && ((day a <? day b)
                || (day a =? day b)
                   && ((hour a <? hour b)
                       || (hour a =? hour b)
                          && ((minute a <? minute b)
                              || (minute a =? minute b)
                                 && (second a <? second b))))).


End Aws.

(** ** Example accounts *)

(** Clients of an account that never changes: every listing call returns
    [response], and the other calls return [None]. *)
Definition fixed_clients (response : Aws.obj) : Aws.Clients unit :=
  Aws.mkClients unit
    (fun c => (Ok response, c))
    (fun c => (Ok response, c))
    (fun c => (Ok response, c))
    (fun _ _ _ c => (Ok Aws.ONone, c))
    (fun c => (Ok response, c))
    (fun _ c => (Raise (ClientError PermissionDenied), c))
    (fun _ _ c => (Ok Aws.ONone, c))
    (fun _ _ _ c => (Ok tt, c))
    (fun _ c => (Ok response, c)).

Definition fixed_manager (response : Aws.obj)
  : Aws.AWSInfrastructureManager unit :=
  Aws.mkManager unit (pystr "us-east-1") (fixed_clients response).

Definition fresh_account : Aws.account unit := Aws.mkAccount unit tt [].

(** A response of every listing call at once: one reservation of two
    instances, the first tagged twice with the same key; two buckets; one
    stack; one VPC. *)
Definition launch : Aws.datetime := Aws.mkDatetime 2024 3 9 7 5 0 0.

Definition relaunch : Aws.datetime := Aws.mkDatetime 2024 11 9 7 5 0 0.

Definition tag (key value : string) : Aws.obj :=
  Aws.ODict [(Aws.OStr (pystr "Key"), Aws.OStr (pystr key));
             (Aws.OStr (pystr "Value"), Aws.OStr (pystr value))].

Definition web_server : Aws.obj :=
  Aws.ODict [(Aws.OStr (pystr "InstanceId"), Aws.OStr (pystr "i-0a1"));
             (Aws.OStr (pystr "InstanceType"), Aws.OStr (pystr "t3.micro"));
             (Aws.OStr (pystr "State"),
               Aws.ODict [(Aws.OStr (pystr "Code"), Aws.OInt 16);
                          (Aws.OStr (pystr "Name"),
                            Aws.OStr (pystr "running"))]);
             (Aws.OStr (pystr "PrivateIpAddress"),
               Aws.OStr (pystr "10.0.0.4"));
             (Aws.OStr (pystr "LaunchTime"), Aws.OTime launch);
             (Aws.OStr (pystr "Tags"),
               Aws.OList [tag "Name" "web"; tag "Team" "core";
                          tag "Name" "api"])].

Definition worker : Aws.obj :=
  Aws.ODict [(Aws.OStr (pystr "InstanceId"), Aws.OStr (pystr "i-0b2"));
             (Aws.OStr (pystr "InstanceType"), Aws.OStr (pystr "t3.small"));
             (Aws.OStr (pystr "State"),
               Aws.ODict [(Aws.OStr (pystr "Name"),
                            Aws.OStr (pystr "stopped"))]);
             (Aws.OStr (pystr "LaunchTime"), Aws.OTime relaunch)].

(** An instance without its [InstanceId]. *)
Definition unnamed_instance : Aws.obj :=
  Aws.ODict [(Aws.OStr (pystr "InstanceType"), Aws.OStr (pystr "t3.nano"))].

Definition reservation_of (instances : list Aws.obj) : Aws.obj :=
  Aws.ODict [(Aws.OStr (pystr "Instances"), Aws.OList instances)].

Definition bucket_named (name : string) : Aws.obj :=
  Aws.ODict [(Aws.OStr (pystr "Name"), Aws.OStr (pystr name));
             (Aws.OStr (pystr "CreationDate"), Aws.OTime launch)].

Definition network_stack : Aws.obj :=
  Aws.ODict [(Aws.OStr (pystr "StackName"), Aws.OStr (pystr "network"));
             (Aws.OStr (pystr "StackStatus"),
               Aws.OStr (pystr "CREATE_COMPLETE"));
             (Aws.OStr (pystr "CreationTime"), Aws.OTime launch)].

Definition default_vpc : Aws.obj :=
  Aws.ODict [(Aws.OStr (pystr "VpcId"), Aws.OStr (pystr "vpc-01"));
             (Aws.OStr (pystr "CidrBlock"), Aws.OStr (pystr "10.0.0.0/16"));
             (Aws.OStr (pystr "State"), Aws.OStr (pystr "available"));
             (Aws.OStr (pystr "IsDefault"), Aws.OBool true);
             (Aws.OStr (pystr "Tags"), Aws.OList [tag "Name" "main"])].

Definition inventory (reservations : list Aws.obj) : Aws.obj :=
  Aws.ODict [(Aws.OStr (pystr "Reservations"), Aws.OList reservations);
             (Aws.OStr (pystr "Buckets"),
               Aws.OList [bucket_named "logs"; bucket_named "state"]);
             (Aws.OStr (pystr "StackSummaries"), Aws.OList [network_stack]);
             (Aws.OStr (pystr "Vpcs"), Aws.OList [default_vpc])].

(** * Properties *)

(** ** Strings and dictionaries *)

Lemma str_eqb_eq (a b : str) : str_eqb a b = true <-> a = b.
Proof.
  revert b; induction a as [|x a IH]; intros [|y b]; simpl;
    try (split; [discriminate | discriminate]); try tauto.
  rewrite andb_true_iff, N.eqb_eq, IH.
  split; [intros [-> ->]; reflexivity | intros H; inversion H; auto].
Qed.

Lemma str_eqb_refl (a : str) : str_eqb a a = true.
Proof. apply str_eqb_eq; reflexivity. Qed.

Lemma str_eqb_neq (a b : str) : str_eqb a b = false <-> a <> b.
Proof.
  rewrite <- str_eqb_eq. destruct (str_eqb a b); split; congruence.
Qed.

(** ** The state monad *)

Section ManagerFacts.

Variable parse_float : Decoder.float_parser.
Variable self : TerraformStateManager.

(** [download_state] by cases on the fetch and on the parse. *)
Lemma download_state_eq (w : world) :
  download_state parse_float self w =
  match Blob.get (s3 w) (bucket_name self) (state_key self) with
  | Raise e =>
      (Ok VNone, logged w (ERROR "Error downloading Terraform state" e))
  | Ok data =>
      match Decoder.loads parse_float data with
      | Ok state_data =>
          (Ok state_data,
           logged w (INFO "Successfully downloaded Terraform state"))
      | Raise e =>
          (Ok VNone, logged w (ERROR "Error downloading Terraform state" e))
      end
  end.
Proof.
  unfold download_state, try_except, bindM, download_fileobj, json_load,
    lift.
  destruct (Blob.get _ _ _) as [data|e]; [|reflexivity].
  destruct (Decoder.loads _ _) as [v|e]; reflexivity.
Qed.

(** No exception leaves [download_state]. *)
Lemma download_state_returns (w : world) :
  exists state_data, fst (download_state parse_float self w) = Ok state_data.
Proof.
  rewrite download_state_eq.
  destruct (Blob.get _ _ _) as [data|e]; [|eexists; reflexivity].
  destruct (Decoder.loads _ _) as [v|e]; eexists; reflexivity.
Qed.

(** [download_state] only adds to the log. *)
Lemma download_state_frame (w : world) :
  s3 (snd (download_state parse_float self w)) = s3 w /\
  memory (snd (download_state parse_float self w)) = memory w.
Proof.
  rewrite download_state_eq.
  destruct (Blob.get _ _ _) as [data|e]; [|split; reflexivity].
  destruct (Decoder.loads _ _) as [v|e]; split; reflexivity.
Qed.

Lemma get_resources_eq (w : world) :
  fst (get_resources parse_float self w) =
  match fst (download_state parse_float self w) with
  | Ok state_data =>
      if truthy state_data then flatten state_data else Ok []
  | Raise e => Raise e
  end.
Proof.
  unfold get_resources, bindM.
  destruct (download_state parse_float self w) as [[v|e] w']; simpl; [|reflexivity].
  destruct (truthy v); reflexivity.
Qed.

Lemma list_outputs_eq (w : world) :
  fst (list_outputs parse_float self w) =
  match fst (download_state parse_float self w) with
  | Ok state_data =>
      if truthy state_data
      then py_get state_data (pystr "outputs") (VDict [])
      else Ok (VDict [])
  | Raise e => Raise e
  end.
Proof.
  unfold list_outputs, bindM.
  destruct (download_state parse_float self w) as [[v|e] w']; simpl; [|reflexivity].
  destruct (truthy v); reflexivity.
Qed.

Lemma get_resource_by_type_eq (resource_type : str) (w : world) :
  fst (get_resource_by_type parse_float self resource_type w) =
  match fst (get_resources parse_float self w) with
  | Ok all_resources => select_type resource_type all_resources
  | Raise e => Raise e
  end.
Proof.
  unfold get_resource_by_type, bindM.
  destruct (get_resources parse_float self w) as [[v|e] w']; reflexivity.
Qed.

Lemma get_resource_by_name_eq (resource_name : str) (w : world) :
  fst (get_resource_by_name parse_float self resource_name w) =
  match fst (get_resources parse_float self w) with
  | Ok all_resources => first_named resource_name all_resources
  | Raise e => Raise e
  end.
Proof.
  unfold get_resource_by_name, bindM.
  destruct (get_resources parse_float self w) as [[v|e] w']; reflexivity.
Qed.

End ManagerFacts.

(** ** Flattening *)

Lemma for_each_Forall (P : value -> Prop) body items rs :
  (forall x l, body x = Ok l -> Forall P l) ->
  for_each body items = Ok rs -> Forall P rs.
Proof.
  intros Hbody; revert rs; induction items as [|x items IH]; simpl; intros rs H.
  - inversion H; constructor.
  - destruct (body x) as [l|e] eqn:Hx; simpl in H; [|discriminate].
    destruct (for_each body items) as [m|e]; simpl in H; [|discriminate].
    inversion H; subst. apply Forall_app; split; eauto.
Qed.

Lemma flat_resource_entry resource instance l :
  flat_resource resource instance = Ok l -> Forall is_entry l.
Proof.
  unfold flat_resource. intros H.
  destruct (py_getitem resource (pystr "type")) as [t|]; [|discriminate].
  destruct (py_getitem resource (pystr "name")) as [n|]; [|discriminate].
  destruct (py_getitem resource (pystr "provider")) as [p|]; [|discriminate].
  destruct (py_get instance (pystr "attributes") (VDict [])) as [st|];
    [|discriminate].
  destruct (py_get resource (pystr "depends_on") (VList [])) as [dp|];
    [|discriminate].
  simpl in H; inversion H; subst. constructor; [|constructor].
  repeat eexists.
Qed.

Lemma flatten_entries state_data rs :
  flatten state_data = Ok rs -> Forall is_entry rs.
Proof.
  unfold flatten. intros H.
  destruct (py_get state_data (pystr "resources") (VList [])) as [r|];
    [|discriminate].
  simpl in H. destruct (py_iter r) as [blocks|]; [|discriminate].
  simpl in H. revert H. apply for_each_Forall.
  intros resource l Hl. unfold block_entries in Hl.
  destruct (py_get resource (pystr "instances") (VList [])) as [i|];
    [|discriminate].
  simpl in Hl. destruct (py_iter i) as [items|]; [|discriminate].
  simpl in Hl. revert Hl. apply for_each_Forall.
  apply flat_resource_entry.
Qed.

Lemma get_resources_entries pf self w rs :
  fst (get_resources pf self w) = Ok rs -> Forall is_entry rs.
Proof.
  rewrite get_resources_eq.
  destruct (fst (download_state pf self w)) as [sd|]; [|discriminate].
  destruct (truthy sd).
  - apply flatten_entries.
  - intros H; inversion H; constructor.
Qed.

Lemma field_identity d :
  Spec.has_identity (VDict d) = true ->
  exists t n p,
    dict_lookup d (pystr "type") = Some t /\
    dict_lookup d (pystr "name") = Some n /\
    dict_lookup d (pystr "provider") = Some p.
Proof.
  unfold Spec.has_identity, Spec.has_field, Spec.field.
  destruct (dict_lookup d (pystr "type")) as [t|]; [|discriminate].
  destruct (dict_lookup d (pystr "name")) as [n|]; [|discriminate].
  destruct (dict_lookup d (pystr "provider")) as [p|]; [|discriminate].
  intros _; exists t, n, p; auto.
Qed.

(** The inner loop on a block that has [type], [name] and [provider]. *)
Lemma for_each_instances block items :
  Spec.is_dict block = true ->
  Spec.has_identity block = true ->
  forallb Spec.is_dict items = true ->
  for_each (flat_resource block) items
  = Ok (map (Spec.FlatResource block) items).
Proof.
  destruct block as [| | | | | |d]; try discriminate. intros _ Hid.
  destruct (field_identity d Hid) as (t & n & p & Ht & Hn & Hp).
  induction items as [|i items IH]; simpl; intros Hall; [reflexivity|].
  apply andb_true_iff in Hall as [Hi Hall].
  destruct i as [| | | | | |a]; try discriminate.
  rewrite (IH Hall).
  unfold flat_resource, Spec.FlatResource, py_getitem, py_get, Spec.field.
  rewrite Ht, Hn, Hp. simpl.
  destruct (dict_lookup a (pystr "attributes"));
    destruct (dict_lookup d (pystr "depends_on")); reflexivity.
Qed.

(** The items that the inner loop visits. *)
Lemma block_items block :
  Spec.block_shape block = true ->
  (instances <- py_get block (pystr "instances") (VList []) ;;
   py_iter instances)%py = Ok (Spec.instances_of block)
  /\ forallb Spec.is_dict (Spec.instances_of block) = true.
Proof.
  unfold Spec.block_shape, Spec.instances_of, Spec.field.
  destruct block as [| | | | | |d]; try discriminate. simpl.
  destruct (dict_lookup d (pystr "instances")) as [[| | | | |l|]|];
    try discriminate; simpl; auto.
Qed.

Lemma for_each_blocks blocks :
  forallb Spec.block_ok blocks = true ->
  for_each block_entries blocks = Ok (Spec.list_all blocks).
Proof.
  induction blocks as [|b blocks IH]; simpl; intros Hall; [reflexivity|].
  apply andb_true_iff in Hall as [Hb Hall].
  apply andb_true_iff in Hb as [Hshape Hid].
  rewrite (IH Hall).
  destruct (block_items b Hshape) as [Hitems Hdicts].
  assert (Hd : Spec.is_dict b = true)
    by (unfold Spec.block_shape in Hshape;
        apply andb_true_iff in Hshape; tauto).
  unfold block_entries, bind in Hitems |- *.
  destruct (py_get b (pystr "instances") (VList [])) as [i|e];
    [|discriminate].
  rewrite Hitems, (for_each_instances b _ Hd Hid Hdicts). reflexivity.
Qed.

Lemma flatten_blocks d blocks :
  dict_lookup d (pystr "resources") = Some (VList blocks) ->
  forallb Spec.block_ok blocks = true ->
  flatten (VDict d) = Ok (Spec.list_all blocks).
Proof.
  intros Hres Hall. unfold flatten, py_get. rewrite Hres. simpl.
  apply for_each_blocks, Hall.
Qed.

Lemma list_all_length blocks :
  List.length (Spec.list_all blocks) = Spec.instance_count blocks.
Proof.
  unfold Spec.list_all, Spec.instance_count.
  induction blocks as [|b blocks IH]; simpl; [reflexivity|].
  rewrite length_app, length_map, IH. reflexivity.
Qed.

Lemma truthy_dict d k v : dict_lookup d k = Some v -> truthy (VDict d) = true.
Proof. destruct d; [discriminate | reflexivity]. Qed.

(** C1.  For a state document whose [resources] holds the blocks [blocks],
    [get_resources] returns one entry per (block, instance) pair, in
    document order, with the block's [type], [name], [provider], the
    instance's [attributes] as [state] and the block's [depends_on] as
    [dependencies]; their number is the sum of the numbers of instances;
    and an empty [resources] gives the empty list. *)
Theorem get_resources_flattens pf self w d blocks :
  fst (download_state pf self w) = Ok (VDict d) ->
  dict_lookup d (pystr "resources") = Some (VList blocks) ->
  forallb Spec.block_ok blocks = true ->
  fst (get_resources pf self w) = Ok (Spec.list_all blocks)
  /\ List.length (Spec.list_all blocks) = Spec.instance_count blocks
  /\ (blocks = [] -> fst (get_resources pf self w) = Ok []).
Proof.
  intros Hdown Hres Hall.
  assert (H : fst (get_resources pf self w) = Ok (Spec.list_all blocks)).
  { rewrite get_resources_eq, Hdown, (truthy_dict _ _ _ Hres).
    apply flatten_blocks; assumption. }
  split; [exact H|]. split; [apply list_all_length|].
  intros ->. exact H.
Qed.

(** ** Failures of the download *)

(** C3.  When the fetch from the blob store fails, whatever the kind of
    failure, or when the fetched bytes do not parse, [download_state]
    returns [None] and raises nothing, and a following [get_resources]
    returns the empty list. *)
Theorem download_state_fail_soft pf self w :
  (exists e,
     Blob.get (s3 w) (bucket_name self) (state_key self) = Raise e)
  \/ (exists data e,
        Blob.get (s3 w) (bucket_name self) (state_key self) = Ok data
        /\ Decoder.loads pf data = Raise e) ->
  fst (download_state pf self w) = Ok VNone
  /\ fst (get_resources pf self (snd (download_state pf self w))) = Ok [].
Proof.
  intros H.
  assert (Hnone : forall w',
    s3 w' = s3 w -> fst (download_state pf self w') = Ok VNone).
  { intros w' Hs. rewrite download_state_eq, Hs.
    destruct H as [[e He]|(data & e & Hd & He)].
    - rewrite He; reflexivity.
    - rewrite Hd, He; reflexivity. }
  split; [apply Hnone; reflexivity|].
  rewrite get_resources_eq, Hnone; [reflexivity|].
  apply download_state_frame.
Qed.

Lemma download_state_fail_soft_witness :
  fst (download_state float_as_written manager (world_with truncated))
  = Ok VNone
  /\ fst (get_resources float_as_written manager
            (snd (download_state float_as_written manager
                    (world_with truncated)))) = Ok [].
Proof.
  apply (download_state_fail_soft float_as_written manager
           (world_with truncated)).
  right. exists truncated, JSONDecodeError. split; vm_compute; reflexivity.
Defined.

(** ** Queries *)

Lemma select_type_filter resource_type rs :
  Forall is_entry rs ->
  select_type resource_type rs
  = Ok (filter (Spec.has_type resource_type) rs).
Proof.
  induction 1 as [|r rs (t & n & p & st & dp & ->) _ IH]; [reflexivity|].
  simpl select_type. rewrite IH. reflexivity.
Qed.

Lemma first_named_find resource_name rs :
  Forall is_entry rs ->
  first_named resource_name rs
  = Ok (Spec.first_or_none (Spec.has_name resource_name) rs).
Proof.
  unfold Spec.first_or_none.
  induction 1 as [|r rs (t & n & p & st & dp & ->) _ IH]; [reflexivity|].
  simpl first_named. simpl find.
  change (Spec.has_name resource_name
            (VDict [(pystr "type", t); (pystr "name", n);
                    (pystr "provider", p); (pystr "state", st);
                    (pystr "dependencies", dp)]))
    with (py_eq_str n resource_name).
  change (py_getitem
            (VDict [(pystr "type", t); (pystr "name", n);
                    (pystr "provider", p); (pystr "state", st);
                    (pystr "dependencies", dp)]) (pystr "name"))
    with (Ok n).
  simpl bind. destruct (py_eq_str n resource_name); [reflexivity|exact IH].
Qed.

(** C4.  [get_resource_by_type] returns the entries of [get_resources]
    whose [type] is the string asked for, in their order, and raises what
    [get_resources] raises; when no entry has that type the result is the
    empty list. *)
Theorem get_resource_by_type_filters pf self resource_type w :
  fst (get_resource_by_type pf self resource_type w)
  = match fst (get_resources pf self w) with
    | Ok rs => Ok (filter (Spec.has_type resource_type) rs)
    | Raise e => Raise e
    end
  /\ (forall rs,
        fst (get_resources pf self w) = Ok rs ->
        forallb (fun r => negb (Spec.has_type resource_type r)) rs = true ->
        fst (get_resource_by_type pf self resource_type w) = Ok []).
Proof.
  assert (H : fst (get_resource_by_type pf self resource_type w)
    = match fst (get_resources pf self w) with
      | Ok rs => Ok (filter (Spec.has_type resource_type) rs)
      | Raise e => Raise e
      end).
  { rewrite get_resource_by_type_eq.
    destruct (fst (get_resources pf self w)) as [rs|e] eqn:Hrs;
      [|reflexivity].
    apply select_type_filter, (get_resources_entries pf self w), Hrs. }
  split; [exact H|].
  intros rs Hrs Hnone. rewrite H, Hrs. f_equal.
  clear - Hnone. induction rs as [|r rs IH]; [reflexivity|].
  simpl in *. apply andb_true_iff in Hnone as [Hr Hnone].
  destruct (Spec.has_type resource_type r); [discriminate|auto].
Qed.

(** C5.  [get_resource_by_name] returns the first entry of
    [get_resources], in document order, whose [name] is the string asked
    for, and [None] when there is none; it raises only what
    [get_resources] raises. *)
Theorem get_resource_by_name_first pf self resource_name w :
  fst (get_resource_by_name pf self resource_name w)
  = match fst (get_resources pf self w) with
    | Ok rs => Ok (Spec.first_or_none (Spec.has_name resource_name) rs)
    | Raise e => Raise e
    end
  /\ (forall before r after,
        fst (get_resources pf self w) = Ok (before ++ r :: after) ->
        forallb (fun x => negb (Spec.has_name resource_name x)) before
        = true ->
        Spec.has_name resource_name r = true ->
        fst (get_resource_by_name pf self resource_name w) = Ok r).
Proof.
  assert (H : fst (get_resource_by_name pf self resource_name w)
    = match fst (get_resources pf self w) with
      | Ok rs => Ok (Spec.first_or_none (Spec.has_name resource_name) rs)
      | Raise e => Raise e
      end).
  { rewrite get_resource_by_name_eq.
    destruct (fst (get_resources pf self w)) as [rs|e] eqn:Hrs;
      [|reflexivity].
    apply first_named_find, (get_resources_entries pf self w), Hrs. }
  split; [exact H|].
  intros before r after Hrs Hbefore Hr. rewrite H, Hrs. f_equal.
  unfold Spec.first_or_none. clear - Hbefore Hr.
  induction before as [|x before IH]; simpl in *.
  - rewrite Hr. reflexivity.
  - apply andb_true_iff in Hbefore as [Hx Hbefore].
    destruct (Spec.has_name resource_name x); [discriminate|auto].
Qed.

(** Of two blocks that share a name, the one stored first is returned. *)
Example get_resource_by_name_shared :
  fst (get_resource_by_name float_as_written manager (pystr "x")
         (world_with shared_name))
  = Ok (VDict [(pystr "type", VStr (pystr "bucket"));
               (pystr "name", VStr (pystr "x"));
               (pystr "provider", VStr (pystr "p"));
               (pystr "state", VDict []);
               (pystr "dependencies", VList [])]).
Proof. vm_compute. reflexivity. Qed.

(** C8.  [list_outputs] returns the value stored under [outputs] in the
    downloaded document as it is, and the empty mapping when the document
    has no outputs. *)
Theorem list_outputs_verbatim pf self w d :
  fst (download_state pf self w) = Ok (VDict d) ->
  fst (list_outputs pf self w)
  = Ok (Spec.or_default (dict_lookup d (pystr "outputs")) (VDict [])).
Proof.
  intros Hdown. rewrite list_outputs_eq, Hdown.
  destruct d as [|kv d]; [reflexivity|].
  unfold truthy, py_get.
  destruct (dict_lookup (kv :: d) (pystr "outputs")); reflexivity.
Qed.

Lemma list_outputs_verbatim_witness :
  fst (list_outputs float_as_written manager (world_with scenario))
  = Ok (VDict [(pystr "logs_arn",
                VDict [(pystr "value", VStr (pystr "arn:x:logs"))])]).
Proof.
  refine (eq_trans
    (list_outputs_verbatim float_as_written manager (world_with scenario)
       _ _) _);
    vm_compute; reflexivity.
Defined.



Lemma get_resources_flattens_witness :
  fst (get_resources float_as_written manager (world_with scenario))
  = Ok (Spec.list_all scenario_blocks)
  /\ List.length (Spec.list_all scenario_blocks)
     = Spec.instance_count scenario_blocks
  /\ (scenario_blocks = [] ->
      fst (get_resources float_as_written manager (world_with scenario))
      = Ok []).
Proof.
  apply (get_resources_flattens float_as_written manager
           (world_with scenario) scenario_fields scenario_blocks);
    vm_compute; reflexivity.
Defined.

(** The end-to-end scenario of the specification. *)
Example scenario_resources :
  fst (get_resources float_as_written manager (world_with scenario))
  = Ok [VDict [(pystr "type", VStr (pystr "bucket"));
               (pystr "name", VStr (pystr "logs"));
               (pystr "provider", VStr (pystr "p"));
               (pystr "state", VDict [(pystr "id", VStr (pystr "logs-1"))]);
               (pystr "dependencies", VList [])]].
Proof. vm_compute. reflexivity. Qed.

(** ** Upload *)


(** ** Blocks without their identity *)







(** * Serializing and parsing back *)

Import Decoder Encoder Wf.

(** ** Arithmetic of the escapes *)

Lemma hexval_hexdigit d : d < 16 -> Decoder.hexval (Encoder.hexdigit d) = Some d.
Proof.
  intros H.
  assert (Hd : d = 0 \/ d = 1 \/ d = 2 \/ d = 3 \/ d = 4 \/ d = 5 \/ d = 6
               \/ d = 7 \/ d = 8 \/ d = 9 \/ d = 10 \/ d = 11 \/ d = 12
               \/ d = 13 \/ d = 14 \/ d = 15) by lia.
  repeat (destruct Hd as [->|Hd]; [reflexivity|]). subst; reflexivity.
Qed.

Lemma hex_digits_sum n :
  n < 65536 ->
  n / 4096 mod 16 * 4096 + n / 256 mod 16 * 256 + n / 16 mod 16 * 16
  + n mod 16 = n.
Proof.
  intros Hn.
  pose proof (N.div_mod n 16 ltac:(discriminate)).
  pose proof (N.div_mod (n / 16) 16 ltac:(discriminate)).
  pose proof (N.div_mod (n / 16 / 16) 16 ltac:(discriminate)).
  replace (n / 256) with (n / 16 / 16)
    by (rewrite N.Div0.div_div; reflexivity).
  replace (n / 4096) with (n / 16 / 16 / 16)
    by (rewrite !N.Div0.div_div; reflexivity).
  assert (n / 16 / 16 / 16 < 16)
    by (rewrite !N.Div0.div_div; apply N.Div0.div_lt_upper_bound;
        simpl; lia).
  rewrite (N.mod_small (n / 16 / 16 / 16)) by assumption.
  lia.
Qed.

Lemma div_1024_lt n : n < 1048576 -> n / 1024 < 1024.
Proof. intros Hn. apply N.Div0.div_lt_upper_bound. simpl; lia. Qed.

Lemma decode_hex4 n h1 h2 h3 h4 :
  n < 65536 ->
  Encoder.hex4 n = [h1; h2; h3; h4] ->
  Decoder.decode_uXXXX h1 h2 h3 h4 = Some n.
Proof.
  intros Hn H. inversion H; subst; clear H. unfold Decoder.decode_uXXXX.
  rewrite !hexval_hexdigit by (apply N.mod_lt; discriminate).
  f_equal. apply hex_digits_sum, Hn.
Qed.

Lemma land_shiftl_low a b k : a < 2 ^ k -> N.land (N.shiftl b k) a = 0.
Proof.
  intros Ha. apply N.bits_inj. intros m.
  rewrite N.land_spec, N.bits_0.
  destruct (N.ltb_spec m k) as [Hm|Hm].
  - rewrite N.shiftl_spec_low by exact Hm. reflexivity.
  - destruct (N.eq_dec a 0) as [->|Hz].
    + rewrite N.bits_0. apply andb_false_r.
    + rewrite (N.bits_above_log2 a m), andb_false_r; [reflexivity|].
      apply N.lt_le_trans with k; [|exact Hm].
      apply N.log2_lt_pow2; lia.
Qed.

Lemma lor_shiftl_add a b k : a < 2 ^ k -> N.lor (N.shiftl b k) a = b * 2 ^ k + a.
Proof.
  intros Ha.
  rewrite <- N.lxor_lor, <- N.add_nocarry_lxor, N.shiftl_mul_pow2
    by (apply land_shiftl_low; exact Ha).
  reflexivity.
Qed.

Lemma high_surrogate n :
  n < 1048576 ->
  N.lor 55296 (N.land (N.shiftr n 10) 1023) = 55296 + n / 1024.
Proof.
  intros Hn. change 1023 with (N.ones 10). rewrite N.land_ones, N.shiftr_div_pow2.
  change 55296 with (N.shiftl 54 10) at 1.
  change (2 ^ 10) with 1024.
  rewrite N.mod_small by (apply div_1024_lt, Hn).
  rewrite (lor_shiftl_add (n / 1024) 54 10)
    by (change (2 ^ 10) with 1024; apply div_1024_lt, Hn).
  reflexivity.
Qed.

Lemma low_surrogate n :
  N.lor 56320 (N.land n 1023) = 56320 + n mod 1024.
Proof.
  change 1023 with (N.ones 10). rewrite N.land_ones.
  change 56320 with (N.shiftl 55 10) at 1. change (2 ^ 10) with 1024.
  rewrite (lor_shiftl_add (n mod 1024) 55 10)
    by (change (2 ^ 10) with 1024; apply N.mod_lt; discriminate).
  reflexivity.
Qed.

Lemma join_surrogates_split n :
  n < 1048576 ->
  Decoder.join_surrogates (55296 + n / 1024) (56320 + n mod 1024) = 65536 + n.
Proof.
  intros Hn. unfold Decoder.join_surrogates.
  rewrite (N.add_comm 55296), (N.add_comm 56320), !N.add_sub.
  rewrite lor_shiftl_add
    by (change (2 ^ 10) with 1024; apply N.mod_lt; discriminate).
  change (2 ^ 10) with 1024.
  pose proof (N.div_mod n 1024 ltac:(discriminate)). lia.
Qed.

(** ** Strings *)

Lemma is_high_surrogate n : n < 1048576 -> Codecs.is_high (55296 + n / 1024) = true.
Proof.
  intros Hn. pose proof (div_1024_lt n Hn) as H. unfold Codecs.is_high.
  revert H. generalize (n / 1024). intros q H.
  apply andb_true_iff; split; apply N.leb_le; lia.
Qed.

Lemma is_low_surrogate n : Codecs.is_low (56320 + n mod 1024) = true.
Proof.
  pose proof (N.mod_lt n 1024 ltac:(discriminate)) as H.
  unfold Codecs.is_low. revert H. generalize (n mod 1024). intros q H.
  apply andb_true_iff; split; apply N.leb_le; lia.
Qed.

Lemma high_not_low u : Codecs.is_high u = true -> Codecs.is_low u = false.
Proof.
  unfold Codecs.is_high, Codecs.is_low. intros H.
  apply andb_true_iff in H as [_ H]. apply N.leb_le in H.
  apply andb_false_iff; left. apply N.leb_gt. lia.
Qed.

Lemma escape_char_form c : c < 1114112 -> escape_form c (escape_char c).
Proof.
  intros Hc. unfold escape_char.
  destruct (N.eqb_spec c 92) as [->|H92];
    [apply (escape_short 92 92); [discriminate|reflexivity]|].
  destruct (N.eqb_spec c 34) as [->|H34];
    [apply (escape_short 34 34); [discriminate|reflexivity]|].
  destruct (N.eqb_spec c 8) as [->|H8];
    [apply (escape_short 8 98); [discriminate|reflexivity]|].
  destruct (N.eqb_spec c 12) as [->|H12];
    [apply (escape_short 12 102); [discriminate|reflexivity]|].
  destruct (N.eqb_spec c 10) as [->|H10];
    [apply (escape_short 10 110); [discriminate|reflexivity]|].
  destruct (N.eqb_spec c 13) as [->|H13];
    [apply (escape_short 13 114); [discriminate|reflexivity]|].
  destruct (N.eqb_spec c 9) as [->|H9];
    [apply (escape_short 9 116); [discriminate|reflexivity]|].
  destruct ((32 <=? c) && (c <=? 126)) eqn:Hp.
  - apply andb_true_iff in Hp as [Hlo _]. apply N.leb_le in Hlo.
    apply escape_plain; [assumption..|lia].
  - destruct (N.ltb_spec c 65536) as [Hb|Hb].
    + apply escape_bmp. apply decode_hex4; [exact Hb|reflexivity].
    + assert (Hn : c - 65536 < 1048576) by lia.
      rewrite (high_surrogate _ Hn), low_surrogate.
      eapply escape_astral.
      * apply decode_hex4; [|reflexivity].
        pose proof (div_1024_lt _ Hn) as H. revert H.
        generalize ((c - 65536) / 1024). intros q H. lia.
      * apply is_high_surrogate, Hn.
      * apply decode_hex4; [|reflexivity].
        pose proof (N.mod_lt (c - 65536) 1024 ltac:(discriminate)) as H.
        revert H. generalize ((c - 65536) mod 1024). intros q H. lia.
      * apply is_low_surrogate.
      * rewrite join_surrogates_split by exact Hn. lia.
Qed.

Lemma scanstring_plain c t :
  c <> 34 -> c <> 92 -> 31 < c ->
  scanstring (c :: t) = emit c (scanstring t).
Proof.
  intros H34 H92 H31. simpl.
  apply N.eqb_neq in H34, H92. rewrite H34, H92.
  replace (c <=? 31) with false by (symmetry; apply N.leb_gt; exact H31).
  reflexivity.
Qed.

Lemma scanstring_short c e t :
  e <> 117 -> BACKSLASH e = Some c ->
  scanstring (92 :: e :: t) = emit c (scanstring t).
Proof.
  intros H117 Hb. simpl. apply N.eqb_neq in H117. rewrite H117, Hb.
  reflexivity.
Qed.

Lemma scanstring_bmp uni h1 h2 h3 h4 t :
  decode_uXXXX h1 h2 h3 h4 = Some uni ->
  (Codecs.is_high uni = true -> follow_ok t) ->
  scanstring (92 :: 117 :: h1 :: h2 :: h3 :: h4 :: t)
  = emit uni (scanstring t).
Proof.
  intros Hd Hf. cbn [scanstring]. cbv beta iota.
  change (92 =? 34) with false. change (92 =? 92) with true.
  change (117 =? 117) with true. cbv iota. rewrite Hd.
  destruct t as [|b [|u s8]]; try reflexivity.
  destruct (Codecs.is_high uni); [|reflexivity].
  specialize (Hf eq_refl). unfold follow_ok in Hf. simpl andb.
  destruct ((b =? 92) && (u =? 117)); [|reflexivity].
  destruct s8 as [|g1 [|g2 [|g3 [|g4 s12]]]]; try contradiction.
  destruct (decode_uXXXX g1 g2 g3 g4); [|contradiction].
  rewrite Hf. reflexivity.
Qed.

Lemma scanstring_astral s1 s2 h1 h2 h3 h4 g1 g2 g3 g4 t :
  decode_uXXXX h1 h2 h3 h4 = Some s1 -> Codecs.is_high s1 = true ->
  decode_uXXXX g1 g2 g3 g4 = Some s2 -> Codecs.is_low s2 = true ->
  scanstring (92 :: 117 :: h1 :: h2 :: h3 :: h4
                :: 92 :: 117 :: g1 :: g2 :: g3 :: g4 :: t)
  = emit (join_surrogates s1 s2) (scanstring t).
Proof.
  intros Hd1 Hh Hd2 Hl. cbn [scanstring]. cbv beta iota.
  change (92 =? 34) with false. change (92 =? 92) with true.
  change (117 =? 117) with true. cbv iota. rewrite Hd1, Hh. simpl andb.
  cbv iota. rewrite Hd2, Hl. reflexivity.
Qed.

Lemma follow_ok_escapes r rest :
  in_range r = true ->
  match r with l :: _ => Codecs.is_low l = false | [] => True end ->
  follow_ok (flat_map escape_char r ++ 34 :: rest).
Proof.
  destruct r as [|l r]; simpl.
  - intros _ _. destruct rest; exact I.
  - intros Hr Hl. apply andb_true_iff in Hr as [Hc _]. apply N.ltb_lt in Hc.
    destruct (escape_char_form l Hc) as
      [H34 H92 H31 | e H117 Hb | h1 h2 h3 h4 Hd
      | h1 h2 h3 h4 g1 g2 g3 g4 s1 s2 Hd1 Hh Hd2 Hlo Hj]; simpl.
    + apply N.eqb_neq in H92. rewrite H92. simpl.
      destruct (flat_map escape_char r ++ 34 :: rest); exact I.
    + apply N.eqb_neq in H117. rewrite H117. exact I.
    + rewrite Hd. exact Hl.
    + rewrite Hd1. apply high_not_low, Hh.
Qed.

(** A printed string reads back, unless a high surrogate stands right
    before a low one. *)
Lemma scanstring_escapes s rest :
  in_range s = true -> no_pair s = true ->
  scanstring (flat_map escape_char s ++ 34 :: rest) = Some (s, rest).
Proof.
  induction s as [|c r IH]; [reflexivity|].
  intros Hr Hp. simpl in Hr, Hp.
  apply andb_true_iff in Hr as [Hc Hr]. apply N.ltb_lt in Hc.
  apply andb_true_iff in Hp as [Hcl Hp].
  specialize (IH Hr Hp).
  simpl flat_map. rewrite <- List.app_assoc.
  destruct (escape_char_form c Hc) as
    [H34 H92 H31 | e H117 Hb | h1 h2 h3 h4 Hd
    | h1 h2 h3 h4 g1 g2 g3 g4 s1 s2 Hd1 Hh Hd2 Hlo Hj].
  - cbn [List.app]. rewrite scanstring_plain, IH by assumption. reflexivity.
  - cbn [List.app]. rewrite (scanstring_short c), IH by assumption. reflexivity.
  - cbn [List.app]. rewrite (scanstring_bmp c), IH; [reflexivity|exact Hd|].
    intros Hh. apply follow_ok_escapes; [exact Hr|].
    rewrite Hh in Hcl. destruct r as [|l r']; [exact I|].
    simpl in Hcl. destruct (Codecs.is_low l); [discriminate|reflexivity].
  - cbn [List.app]. rewrite (scanstring_astral s1 s2), IH, Hj by assumption.
    reflexivity.
Qed.

(** ** Numbers *)

Lemma span_digits_app s ds t rest :
  span_digits s = (ds, t) -> no_digit_ahead rest ->
  span_digits (s ++ rest) = (ds, t ++ rest).
Proof.
  revert ds t; induction s as [|c s IH]; simpl; intros ds t H Hrest.
  - inversion H; subst. destruct rest as [|c rest]; [reflexivity|].
    simpl in *. rewrite Hrest. reflexivity.
  - destruct (is_digit c).
    + destruct (span_digits s) as [ds' t'] eqn:Hs. inversion H; subst.
      rewrite (IH ds' t eq_refl Hrest). reflexivity.
    + inversion H; subst. reflexivity.
Qed.

Lemma span_digits_chars u : span_digits (chars_of_uint u) = (chars_of_uint u, []).
Proof.
  induction u; simpl; try reflexivity; rewrite IHu; reflexivity.
Qed.

Lemma uint_of_chars u : uint_of_digits (chars_of_uint u) = u.
Proof.
  induction u; simpl; try reflexivity; rewrite IHu; reflexivity.
Qed.

(** The decimal digits of a number start with no zero, unless the number
    is zero. *)
Lemma to_uint_head n :
  N.to_uint n = D0 Nil
  \/ exists c t, chars_of_uint (N.to_uint n) = c :: chars_of_uint t
       /\ c <> 48 /\ is_digit c = true.
Proof.
  pose proof (DecimalN.Unsigned.to_of (N.to_uint n)) as H.
  rewrite DecimalN.Unsigned.of_to in H.
  destruct (nzhead (N.to_uint n)) eqn:Hnz;
    unfold unorm in H; rewrite Hnz in H.
  1: left; exact H.
  1: exfalso; exact (nzhead_nonzero _ _ Hnz).
  all: right; rewrite H; eexists; eexists; simpl;
    (split; [reflexivity|split; [discriminate|reflexivity]]).
Qed.

Lemma match_integer_digits c t rest :
  c <> 48 -> is_digit c = true -> no_digit_ahead rest ->
  match_integer (c :: chars_of_uint t ++ rest)
  = Some (c :: chars_of_uint t, rest).
Proof.
  intros H48 Hd Hrest. unfold match_integer.
  assert (H45 : (c =? 45) = false).
  { apply N.eqb_neq. intros ->. discriminate. }
  apply N.eqb_neq in H48. rewrite H45, H48, Hd.
  rewrite (span_digits_app _ _ _ rest (span_digits_chars t) Hrest).
  reflexivity.
Qed.

Lemma match_integer_minus c t rest :
  c <> 48 -> is_digit c = true -> no_digit_ahead rest ->
  match_integer (45 :: c :: chars_of_uint t ++ rest)
  = Some (45 :: c :: chars_of_uint t, rest).
Proof.
  intros H48 Hd Hrest. unfold match_integer.
  change (45 =? 45) with true. cbv iota.
  apply N.eqb_neq in H48. rewrite H48, Hd.
  rewrite (span_digits_app _ _ _ rest (span_digits_chars t) Hrest).
  reflexivity.
Qed.

Lemma delimited_no_digit rest : delimited rest -> no_digit_ahead rest.
Proof. destruct rest as [|c rest]; [trivial|]. intros [->| ->]; reflexivity. Qed.

Lemma match_frac_delimited rest : delimited rest -> match_frac rest = ([], rest).
Proof. destruct rest as [|c rest]; [trivial|]. intros [->| ->]; reflexivity. Qed.

Lemma match_exp_delimited rest : delimited rest -> match_exp rest = ([], rest).
Proof. destruct rest as [|c rest]; [trivial|]. intros [->| ->]; reflexivity. Qed.

(** The printed integer is matched whole, as an integer. *)
Lemma match_number_intstr z rest :
  delimited rest ->
  match_number (intstr z ++ rest) = Some (intstr z, [], [], rest).
Proof.
  intros Hrest. pose proof (delimited_no_digit rest Hrest) as Hnd.
  unfold match_number.
  assert (H : match_integer (intstr z ++ rest) = Some (intstr z, rest)).
  { unfold intstr. destruct z as [|p|p].
    - reflexivity.
    - destruct (to_uint_head (Z.abs_N (Z.pos p))) as [H0|(c & t & Hc & H48 & Hd)].
      + exfalso. apply (f_equal N.of_uint) in H0.
        rewrite DecimalN.Unsigned.of_to in H0. discriminate.
      + rewrite Hc. apply match_integer_digits; assumption.
    - destruct (to_uint_head (Z.abs_N (Z.neg p))) as [H0|(c & t & Hc & H48 & Hd)].
      + exfalso. apply (f_equal N.of_uint) in H0.
        rewrite DecimalN.Unsigned.of_to in H0. discriminate.
      + rewrite Hc. apply match_integer_minus; assumption. }
  rewrite H, (match_frac_delimited rest Hrest), (match_exp_delimited rest Hrest).
  reflexivity.
Qed.

Lemma intstr_head z :
  exists c t, intstr z = c :: t /\ (is_digit c = true \/ c = 45).
Proof.
  unfold intstr. destruct z as [|p|p].
  - exists 48, []. split; [reflexivity|left; reflexivity].
  - destruct (to_uint_head (Z.abs_N (Z.pos p))) as [H0|(c & t & Hc & H48 & Hd)].
    + rewrite H0. exists 48, []. split; [reflexivity|left; reflexivity].
    + rewrite Hc. eauto.
  - eauto.
Qed.

Lemma parse_int_intstr z : parse_int (intstr z) = z.
Proof.
  unfold intstr. destruct z as [|p|p].
  - reflexivity.
  - destruct (to_uint_head (Z.abs_N (Z.pos p))) as [H0|(c & t & Hc & H48 & Hd)].
    + exfalso. apply (f_equal N.of_uint) in H0.
      rewrite DecimalN.Unsigned.of_to in H0. discriminate.
    + unfold parse_int. rewrite Hc.
      assert (H45 : (c =? 45) = false)
        by (apply N.eqb_neq; intros ->; discriminate).
      rewrite H45, <- Hc, uint_of_chars, DecimalN.Unsigned.of_to.
      reflexivity.
  - unfold parse_int. change (45 =? 45) with true. cbv iota.
    rewrite uint_of_chars, DecimalN.Unsigned.of_to. reflexivity.
Qed.

Lemma strip_prefix_head x p c t : x <> c -> strip_prefix (x :: p) (c :: t) = None.
Proof. intros H. simpl. apply N.eqb_neq in H. rewrite H. reflexivity. Qed.

(** A printed integer reads back. *)
Lemma scan_atom_intstr pf z rest :
  delimited rest -> scan_atom pf (intstr z ++ rest) = Some (VInt z, rest).
Proof.
  intros Hrest. unfold scan_atom.
  rewrite (match_number_intstr z rest Hrest), parse_int_intstr.
  destruct (intstr_head z) as (c & t & Hz & Hc). rewrite Hz.
  assert (Hn : c <> 110 /\ c <> 116 /\ c <> 102).
  { destruct Hc as [Hd| ->]; [|repeat split; discriminate].
    repeat split; intros ->; discriminate. }
  destruct Hn as (H1 & H2 & H3).
  cbn [List.app].
  change (pystr "null") with [110; 117; 108; 108].
  change (pystr "true") with [116; 114; 117; 101].
  change (pystr "false") with [102; 97; 108; 115; 101].
  rewrite (strip_prefix_head 110), (strip_prefix_head 116),
    (strip_prefix_head 102) by congruence.
  reflexivity.
Qed.

(** ** Containers *)

Lemma value_ind' (P : value -> Prop) :
  P VNone -> (forall b, P (VBool b)) -> (forall z, P (VInt z)) ->
  (forall r, P (VFloat r)) -> (forall s, P (VStr s)) ->
  (forall l, Forall P l -> P (VList l)) ->
  (forall d, Forall (fun kv => P (snd kv)) d -> P (VDict d)) ->
  forall v, P v.
Proof.
  intros HN HB HI HF HS HL HD. fix IH 1.
  intros [ |b|z|r|s|l|d];
    [exact HN | apply HB | apply HI | apply HF | apply HS | | ].
  - apply HL. induction l as [|x l IHl]; constructor; [apply IH|exact IHl].
  - apply HD. induction d as [|[k x] d IHd]; constructor;
      [apply IH|exact IHd].
Qed.

Lemma skip_ws_start c t : is_ws c = false -> skip_ws (c :: t) = c :: t.
Proof. intros H. simpl. rewrite H. reflexivity. Qed.

Lemma skip_ws_spaces n s : skip_ws (repeat 32 n ++ s) = skip_ws s.
Proof. induction n as [|n IH]; [reflexivity|exact IH]. Qed.

Lemma skip_ws_newline_indent level s :
  skip_ws (newline_indent level ++ s) = skip_ws s.
Proof. unfold newline_indent. simpl. apply skip_ws_spaces. Qed.

Lemma join_cons sep c cs :
  join sep (c :: cs) = c ++ flat_map (fun x => sep ++ x) cs.
Proof.
  revert c; induction cs as [|c' cs IH]; intros c; simpl.
  - rewrite List.app_nil_r. reflexivity.
  - simpl in IH. rewrite IH, <- List.app_assoc. reflexivity.
Qed.

Lemma value_head_app s t : value_head s -> value_head (s ++ t).
Proof. intros (c & r & -> & Hc). exists c, (r ++ t). split; [reflexivity|exact Hc]. Qed.

Lemma skip_ws_value_head s t : value_head s -> skip_ws (s ++ t) = s ++ t.
Proof. intros (c & r & -> & Hc & _). apply skip_ws_start, Hc. Qed.

Lemma array_items_last scan n x s s1 rest :
  scan s = Some (x, s1) -> skip_ws s1 = 93 :: rest ->
  array_items scan (S n) s = Some ([x], rest).
Proof. intros H1 H2. simpl. rewrite H1, H2. reflexivity. Qed.

Lemma array_items_more scan n x s s1 s2 vs rest :
  scan s = Some (x, s1) -> skip_ws s1 = 44 :: s2 ->
  array_items scan n (skip_ws s2) = Some (vs, rest) ->
  array_items scan (S n) s = Some (x :: vs, rest).
Proof. intros H1 H2 H3. simpl. rewrite H1, H2. simpl. rewrite H3. reflexivity. Qed.

Lemma array_items_reads scan level rest x items n :
  Forall (reads scan (S level)) (x :: items) ->
  (List.length items < n)%nat ->
  array_items scan n
    (iterencode (S level) x
       ++ flat_map (fun c => (44 :: newline_indent (S level)) ++ c)
                   (map (iterencode (S level)) items)
       ++ newline_indent level ++ 93 :: rest)
  = Some (x :: items, rest).
Proof.
  revert x n; induction items as [|y items IH]; intros x n Hall Hn;
    (destruct n as [|n]; [inversion Hn|]);
    inversion Hall as [|? ? [_ Hx] Hrest]; subst.
  - eapply array_items_last.
    + apply Hx. right; reflexivity.
    + simpl flat_map. cbn [List.app].
      rewrite skip_ws_newline_indent. reflexivity.
  - inversion Hrest as [|? ? [Hy _] _]; subst.
    set (R := flat_map (fun c => (44 :: newline_indent (S level)) ++ c)
                (map (iterencode (S level)) items)
              ++ newline_indent level ++ 93 :: rest) in *.
    assert (Heq :
      flat_map (fun c => (44 :: newline_indent (S level)) ++ c)
        (map (iterencode (S level)) (y :: items))
        ++ newline_indent level ++ 93 :: rest
      = 44 :: newline_indent (S level) ++ iterencode (S level) y ++ R).
    { unfold R. cbn [map flat_map]. rewrite <- !List.app_assoc. reflexivity. }
    rewrite Heq.
    apply (array_items_more scan n x _
             (44 :: newline_indent (S level) ++ iterencode (S level) y ++ R)
             (newline_indent (S level) ++ iterencode (S level) y ++ R)).
    + apply Hx. left; reflexivity.
    + apply skip_ws_start. reflexivity.
    + rewrite skip_ws_newline_indent, skip_ws_value_head by exact Hy.
      apply IH; [exact Hrest|simpl in Hn; lia].
Qed.

Lemma object_pairs_last scan n s key s1 s2 v s3 rest :
  scanstring s = Some (key, s1) -> skip_ws s1 = 58 :: s2 ->
  scan (skip_ws s2) = Some (v, s3) -> skip_ws s3 = 125 :: rest ->
  object_pairs scan (S n) s = Some ([(key, v)], rest).
Proof.
  intros H1 H2 H3 H4. simpl. rewrite H1, H2. simpl. rewrite H3, H4.
  reflexivity.
Qed.

Lemma object_pairs_more scan n s key s1 s2 v s3 s4 s5 ps rest :
  scanstring s = Some (key, s1) -> skip_ws s1 = 58 :: s2 ->
  scan (skip_ws s2) = Some (v, s3) -> skip_ws s3 = 44 :: s4 ->
  skip_ws s4 = 34 :: s5 -> object_pairs scan n s5 = Some (ps, rest) ->
  object_pairs scan (S n) s = Some ((key, v) :: ps, rest).
Proof.
  intros H1 H2 H3 H4 H5 H6. simpl. rewrite H1, H2. simpl.
  rewrite H3, H4. simpl. rewrite H5. simpl. rewrite H6. reflexivity.
Qed.

Lemma object_pairs_reads scan level rest d k v n :
  key_ok k -> reads scan (S level) v ->
  Forall (fun kv => key_ok (fst kv) /\ reads scan (S level) (snd kv)) d ->
  (List.length d < n)%nat ->
  object_pairs scan n
    (flat_map escape_char k ++ 34 :: 58 :: 32 :: iterencode (S level) v
       ++ flat_map (fun c => (44 :: newline_indent (S level)) ++ c)
                   (map (member level) d)
       ++ newline_indent level ++ 125 :: rest)
  = Some ((k, v) :: d, rest).
Proof.
  revert k v n; induction d as [|[k' v'] d IH]; intros k v n [Hr Hp] [Hv Hx] Hall Hn;
    (destruct n as [|n]; [inversion Hn|]).
  - eapply object_pairs_last.
    + apply scanstring_escapes; assumption.
    + apply skip_ws_start. reflexivity.
    + cbn [skip_ws is_ws]. simpl. rewrite skip_ws_value_head by exact Hv.
      apply Hx. right; reflexivity.
    + exact (skip_ws_newline_indent level (125 :: rest)).
  - inversion Hall as [|? ? [Hk' Hv'] Hrest]; subst. simpl in Hk', Hv'.
    set (R := flat_map (fun c => (44 :: newline_indent (S level)) ++ c)
                (map (member level) d)
              ++ newline_indent level ++ 125 :: rest) in *.
    assert (Heq :
      flat_map (fun c => (44 :: newline_indent (S level)) ++ c)
        (map (member level) ((k', v') :: d))
        ++ newline_indent level ++ 125 :: rest
      = 44 :: newline_indent (S level)
          ++ 34 :: flat_map escape_char k'
          ++ 34 :: 58 :: 32 :: iterencode (S level) v' ++ R).
    { unfold R. cbn [map flat_map member]. unfold encode_basestring_ascii.
      repeat first [rewrite <- List.app_assoc | progress cbn [List.app]].
      reflexivity. }
    rewrite Heq.
    eapply (object_pairs_more scan n _ k _ _ v
              (44 :: newline_indent (S level)
                 ++ 34 :: flat_map escape_char k'
                 ++ 34 :: 58 :: 32 :: iterencode (S level) v' ++ R)
              (newline_indent (S level)
                 ++ 34 :: flat_map escape_char k'
                 ++ 34 :: 58 :: 32 :: iterencode (S level) v' ++ R)
              (flat_map escape_char k'
                 ++ 34 :: 58 :: 32 :: iterencode (S level) v' ++ R)).
    + apply scanstring_escapes; assumption.
    + apply skip_ws_start. reflexivity.
    + cbn [skip_ws is_ws]. simpl. rewrite skip_ws_value_head by exact Hv.
      apply Hx. left; reflexivity.
    + apply skip_ws_start. reflexivity.
    + rewrite skip_ws_newline_indent. apply skip_ws_start. reflexivity.
    + apply IH; [exact Hk'|exact Hv'|exact Hrest|simpl in Hn; lia].
Qed.

Lemma JSONArray_items scan s X vs rest :
  skip_ws s = X -> value_head X ->
  array_items scan (S (List.length s)) X = Some (vs, rest) ->
  JSONArray scan s = Some (VList vs, rest).
Proof.
  intros Hs (c & t & -> & _ & Hc) Hitems. unfold JSONArray.
  rewrite Hs. apply N.eqb_neq in Hc. rewrite Hc, Hitems. reflexivity.
Qed.

Lemma JSONObject_pairs scan s r ps rest :
  skip_ws s = 34 :: r ->
  object_pairs scan (S (List.length s)) r = Some (ps, rest) ->
  JSONObject scan s = Some (VDict (dict ps), rest).
Proof.
  intros Hs Hpairs. unfold JSONObject. rewrite Hs.
  change (34 =? 125) with false. change (34 =? 34) with true. cbv iota.
  rewrite Hpairs. reflexivity.
Qed.

Lemma dict_set_fresh d k v :
  ~ In k (map fst d) -> dict_set d k v = d ++ [(k, v)].
Proof.
  induction d as [|[k' v'] d IH]; simpl; intros Hnot; [reflexivity|].
  destruct (str_eqb k' k) eqn:Hk.
  - apply str_eqb_eq in Hk. tauto.
  - rewrite IH by tauto. reflexivity.
Qed.

Lemma fold_dict_set pairs acc :
  NoDup (map fst (acc ++ pairs)) ->
  fold_left (fun d kv => dict_set d (fst kv) (snd kv)) pairs acc
  = acc ++ pairs.
Proof.
  revert acc; induction pairs as [|[k v] pairs IH]; intros acc Hnd; simpl.
  - rewrite List.app_nil_r. reflexivity.
  - rewrite dict_set_fresh.
    + rewrite IH; rewrite <- List.app_assoc; [reflexivity|exact Hnd].
    + rewrite map_app in Hnd. simpl in Hnd.
      apply NoDup_remove_2 in Hnd. intros Hin. apply Hnd.
      apply in_or_app. left. exact Hin.
Qed.

(** On distinct keys [dict] keeps the pairs as they are. *)
Lemma dict_distinct d : NoDup (map fst d) -> dict d = d.
Proof. intros H. apply (fold_dict_set d []). exact H. Qed.

(** ** Values *)

Lemma scan_atom_head pf s v rest :
  scan_atom pf s = Some (v, rest) ->
  exists c t, s = c :: t
    /\ is_ws c = false /\ c <> 93 /\ c <> 34 /\ c <> 123 /\ c <> 91.
Proof.
  destruct s as [|c t]; [discriminate|]. intros H. exists c, t.
  split; [reflexivity|].
  assert (Hne : forall k, scan_atom pf (k :: t) = None -> c <> k)
    by (intros k Hk ->; rewrite Hk in H; discriminate).
  assert (H32 := Hne 32 eq_refl). assert (H9 := Hne 9 eq_refl).
  assert (H10 := Hne 10 eq_refl). assert (H13 := Hne 13 eq_refl).
  repeat split; try (apply Hne; reflexivity).
  unfold is_ws. apply N.eqb_neq in H32, H9, H10, H13.
  rewrite H32, H9, H10, H13. reflexivity.
Qed.

Lemma scan_once_atom pf d s v rest :
  scan_atom pf s = Some (v, rest) -> scan_once pf (S d) s = Some (v, rest).
Proof.
  intros H.
  destruct (scan_atom_head pf s v rest H)
    as (c & t & -> & _ & _ & H34 & H123 & H91).
  simpl. apply N.eqb_neq in H34, H123, H91. rewrite H34, H123, H91.
  exact H.
Qed.

Lemma printed_float_head pf r :
  printed_float pf r ->
  exists c t, r = c :: t
    /\ is_ws c = false /\ c <> 93 /\ c <> 34 /\ c <> 123 /\ c <> 91.
Proof.
  intros [_ H]. specialize (H [] I). rewrite List.app_nil_r in H.
  exact (scan_atom_head pf r _ _ H).
Qed.

Lemma iterencode_head pf level v :
  parsed_form pf v -> value_head (iterencode level v).
Proof.
  intros H. unfold value_head. inversion H; subst.
  - exists 110, [117; 108; 108]. repeat split; discriminate.
  - destruct b.
    + exists 116, [114; 117; 101]. repeat split; discriminate.
    + exists 102, [97; 108; 115; 101]. repeat split; discriminate.
  - destruct (intstr_head z) as (c & t & Hz & Hc). exists c, t.
    split; [exact Hz|].
    destruct Hc as [Hd| ->]; [|split; [reflexivity|discriminate]].
    split; [|intros ->; discriminate].
    unfold is_ws.
    destruct (N.eqb_spec c 32) as [->|]; [discriminate|].
    destruct (N.eqb_spec c 9) as [->|]; [discriminate|].
    destruct (N.eqb_spec c 10) as [->|]; [discriminate|].
    destruct (N.eqb_spec c 13) as [->|]; [discriminate|reflexivity].
  - destruct (printed_float_head pf r) as (c & t & Hr & Hw & H93 & _);
      [assumption|].
    exists c, t. auto.
  - eexists 34, _. split; [reflexivity|]. split; [reflexivity|discriminate].
  - destruct l.
    + exists 91, [93]. repeat split; discriminate.
    + eexists 91, _. split; [reflexivity|]. split; [reflexivity|discriminate].
  - destruct d.
    + exists 123, [125]. repeat split; discriminate.
    + eexists 123, _. split; [reflexivity|]. split; [reflexivity|discriminate].
Qed.

Lemma depth_item x l : In x l -> (depth x <= list_max (map depth l))%nat.
Proof.
  intros Hin.
  assert (H : Forall (fun k => (k <= list_max (map depth l))%nat)
                (map depth l)) by (apply list_max_le; lia).
  rewrite Forall_forall in H. apply H, in_map, Hin.
Qed.

Lemma depth_field k x d :
  In (k, x) d ->
  (depth x <= list_max (map (fun kv : str * value =>
                               let (_, y) := kv in depth y) d))%nat.
Proof.
  intros Hin.
  set (f := fun kv : str * value => let (_, y) := kv in depth y).
  assert (H : Forall (fun n => (n <= list_max (map f d))%nat) (map f d))
    by (apply list_max_le; lia).
  rewrite Forall_forall in H. apply (H (f (k, x))), in_map, Hin.
Qed.

Lemma flat_map_length_le sep (cs : list str) :
  sep <> [] ->
  (List.length cs <= List.length (flat_map (fun c => sep ++ c) cs))%nat.
Proof.
  intros Hsep.
  assert (Hlen : (1 <= List.length sep)%nat)
    by (destruct sep; [congruence|simpl; lia]).
  induction cs as [|c cs IH]; cbn [flat_map List.length]; [lia|].
  rewrite !length_app. lia.
Qed.

(** What [json.dump] prints for a value in parsed form is read back by the
    scanner as that value, unless one of its strings has a high surrogate
    right before a low one. *)
Theorem scan_once_iterencode pf v :
  parsed_form pf v -> no_surrogate_pair v = true ->
  forall level rest d,
    delimited rest -> (depth v < d)%nat ->
    scan_once pf d (iterencode level v ++ rest) = Some (v, rest).
Proof.
  induction v as [ |b|z|r|s|l IHl|fields IHd] using value_ind';
    intros Hform Hpair level rest d Hrest Hd;
    (destruct d as [|d]; [inversion Hd|]).
  - reflexivity.
  - destruct b; reflexivity.
  - apply scan_once_atom, scan_atom_intstr, Hrest.
  - inversion Hform as [| | |? [_ Hr]| | |]; subst.
    apply scan_once_atom, Hr, Hrest.
  - inversion Hform; subst. simpl in Hpair.
    unfold iterencode, encode_basestring_ascii.
    cbn [List.app scan_once]. change (34 =? 34) with true. cbv iota.
    rewrite <- List.app_assoc. cbn [List.app].
    rewrite scanstring_escapes by assumption. reflexivity.
  - inversion Hform as [| | | | |? Hl|]; subst.
    destruct l as [|x xs]; [reflexivity|].
    assert (Hreads : Forall (reads (scan_once pf d) (S level)) (x :: xs)).
    { simpl in Hpair. rewrite Forall_forall in IHl, Hl |- *.
      intros y Hy. split; [apply (iterencode_head pf), Hl, Hy|].
      intros rest' Hrest'. apply IHl; [exact Hy|apply Hl, Hy| |exact Hrest'|].
      - change (forallb no_surrogate_pair (x :: xs) = true) in Hpair.
        rewrite forallb_forall in Hpair. apply Hpair, Hy.
      - pose proof (depth_item y (x :: xs) Hy).
        change (S (list_max (map depth (x :: xs))) < S d)%nat in Hd. lia. }
    cbn [iterencode map]. rewrite join_cons.
    rewrite <- !List.app_assoc. cbn [List.app scan_once].
    change (91 =? 34) with false. change (91 =? 123) with false.
    change (91 =? 91) with true. cbv iota.
    rewrite <- !List.app_assoc.
    assert (Hx : value_head (iterencode (S level) x))
      by (inversion Hreads as [|? ? [Hx _] _]; exact Hx).
    eapply JSONArray_items.
    + rewrite skip_ws_newline_indent. apply skip_ws_value_head, Hx.
    + apply value_head_app, Hx.
    + cbn [List.app]. apply array_items_reads; [exact Hreads|].
      rewrite !length_app.
      pose proof (flat_map_length_le (44 :: newline_indent (S level))
                    (map (iterencode (S level)) xs) ltac:(discriminate)).
      rewrite length_map in H. cbn [List.app] in H. lia.
  - inversion Hform as [| | | | | |? Hnd Hfields]; subst.
    destruct fields as [|[k x] fields]; [reflexivity|].
    assert (Hreads : Forall
      (fun kv => key_ok (fst kv) /\ reads (scan_once pf d) (S level) (snd kv))
      ((k, x) :: fields)).
    { simpl in Hpair. rewrite Forall_forall in IHd, Hfields |- *.
      intros [k' y] Hy. destruct (Hfields _ Hy) as [Hrange Hyform].
      change (forallb (fun kv : str * value =>
                let (k0, x0) := kv in no_pair k0 && no_surrogate_pair x0)
                ((k, x) :: fields) = true) in Hpair.
      rewrite forallb_forall in Hpair. specialize (Hpair _ Hy).
      apply andb_true_iff in Hpair as [Hk' Hy'].
      split; [split; assumption|].
      split; [apply (iterencode_head pf), Hyform|].
      intros rest' Hrest'.
      apply (IHd _ Hy); [exact Hyform|exact Hy'|exact Hrest'|].
      pose proof (depth_field k' y _ Hy).
      change (S (list_max (map (fun kv : str * value =>
                                  let (_, y) := kv in depth y)
                               ((k, x) :: fields))) < S d)%nat in Hd.
      simpl snd. lia. }
    cbn [iterencode].
    change (map (fun kv : str * value =>
                   let (k0, v) := kv in
                   encode_basestring_ascii k0 ++ [58; 32]
                     ++ iterencode (S level) v) ((k, x) :: fields))
      with (map (member level) ((k, x) :: fields)).
    cbn [map]. rewrite join_cons. cbn [member].
    unfold encode_basestring_ascii.
    repeat first [rewrite <- List.app_assoc | progress cbn [List.app]].
    cbn [scan_once].
    change (123 =? 34) with false. change (123 =? 123) with true. cbv iota.
    inversion Hreads as [|? ? [Hk Hx] Hrest']; subst. simpl in Hk, Hx.
    rewrite <- (dict_distinct ((k, x) :: fields) Hnd).
    eapply JSONObject_pairs.
    + rewrite skip_ws_newline_indent. apply skip_ws_start. reflexivity.
    + apply object_pairs_reads; [exact Hk|exact Hx|exact Hrest'|].
      rewrite !length_app.
      pose proof (flat_map_length_le (44 :: newline_indent (S level))
                    (map (member level) fields) ltac:(discriminate)).
      rewrite length_map in H. cbn [List.app] in H.
      repeat first [rewrite length_app | progress cbn [List.length]]. lia.
Qed.

(** ** The bytes of the file *)

Lemma ascii_text_app s t : ascii_text s -> ascii_text t -> ascii_text (s ++ t).
Proof.
  unfold ascii_text. intros Hs Ht. rewrite forallb_app, Hs, Ht. reflexivity.
Qed.

Lemma ascii_text_cons c s : is_ascii c = true -> ascii_text s -> ascii_text (c :: s).
Proof. unfold ascii_text. intros Hc Hs. simpl. rewrite Hc, Hs. reflexivity. Qed.

Lemma hexdigit_ascii d : d < 16 -> is_ascii (hexdigit d) = true.
Proof.
  intros H.
  assert (Hd : d = 0 \/ d = 1 \/ d = 2 \/ d = 3 \/ d = 4 \/ d = 5 \/ d = 6
               \/ d = 7 \/ d = 8 \/ d = 9 \/ d = 10 \/ d = 11 \/ d = 12
               \/ d = 13 \/ d = 14 \/ d = 15) by lia.
  repeat (destruct Hd as [->|Hd]; [reflexivity|]). subst; reflexivity.
Qed.

Lemma hex4_ascii n : ascii_text (hex4 n).
Proof.
  unfold ascii_text, hex4. simpl.
  rewrite !hexdigit_ascii by (apply N.mod_lt; discriminate). reflexivity.
Qed.

Lemma escape_char_ascii c : ascii_text (escape_char c).
Proof.
  unfold escape_char.
  destruct (c =? 92); [reflexivity|]. destruct (c =? 34); [reflexivity|].
  destruct (c =? 8); [reflexivity|]. destruct (c =? 12); [reflexivity|].
  destruct (c =? 10); [reflexivity|]. destruct (c =? 13); [reflexivity|].
  destruct (c =? 9); [reflexivity|].
  destruct ((32 <=? c) && (c <=? 126)) eqn:Hp; [|destruct (c <? 65536)].
  - apply andb_true_iff in Hp as [Hlo Hhi].
    apply N.leb_le in Hlo, Hhi. unfold ascii_text, is_ascii. simpl.
    rewrite andb_true_r. apply andb_true_iff; split;
      apply N.ltb_lt; lia.
  - apply ascii_text_cons; [reflexivity|].
    apply ascii_text_cons; [reflexivity|apply hex4_ascii].
  - apply ascii_text_cons; [reflexivity|].
    apply ascii_text_cons; [reflexivity|].
    apply ascii_text_app; [apply hex4_ascii|].
    apply ascii_text_cons; [reflexivity|].
    apply ascii_text_cons; [reflexivity|apply hex4_ascii].
Qed.

Lemma flat_map_ascii {A} (f : A -> str) l :
  (forall x, In x l -> ascii_text (f x)) -> ascii_text (flat_map f l).
Proof.
  induction l as [|x l IH]; intros H; [reflexivity|]. simpl.
  apply ascii_text_app; [apply H; left; reflexivity|].
  apply IH. intros y Hy. apply H. right; exact Hy.
Qed.

Lemma encode_basestring_ascii_ascii s : ascii_text (encode_basestring_ascii s).
Proof.
  unfold encode_basestring_ascii. apply ascii_text_cons; [reflexivity|].
  apply ascii_text_app; [|reflexivity].
  apply flat_map_ascii. intros c _. apply escape_char_ascii.
Qed.

Lemma chars_of_uint_ascii u : ascii_text (chars_of_uint u).
Proof.
  induction u; try reflexivity; simpl;
    (apply ascii_text_cons; [reflexivity|assumption]).
Qed.

Lemma intstr_ascii z : ascii_text (intstr z).
Proof.
  unfold intstr.
  destruct z;
    first [apply chars_of_uint_ascii
          |apply ascii_text_cons; [reflexivity|apply chars_of_uint_ascii]].
Qed.

Lemma newline_indent_ascii level : ascii_text (newline_indent level).
Proof.
  unfold newline_indent. apply ascii_text_cons; [reflexivity|].
  induction (2 * level)%nat as [|n IH]; [reflexivity|].
  simpl. apply ascii_text_cons; [reflexivity|exact IH].
Qed.

Lemma iterencode_ascii pf v :
  parsed_form pf v -> forall level, ascii_text (iterencode level v).
Proof.
  induction v as [ |b|z|r|s|l IHl|fields IHd] using value_ind';
    intros Hform level.
  - reflexivity.
  - destruct b; reflexivity.
  - apply intstr_ascii.
  - inversion Hform as [| | |? [Hr _]| | |]; subst. exact Hr.
  - apply encode_basestring_ascii_ascii.
  - inversion Hform as [| | | | |? Hl|]; subst.
    destruct l as [|x xs]; [reflexivity|].
    cbn [iterencode map]. rewrite join_cons.
    apply ascii_text_cons; [reflexivity|].
    apply ascii_text_app; [apply newline_indent_ascii|].
    apply ascii_text_app; [|apply ascii_text_app;
                             [apply newline_indent_ascii|reflexivity]].
    rewrite Forall_forall in IHl, Hl.
    apply ascii_text_app; [apply IHl; [|apply Hl]; left; reflexivity|].
    apply flat_map_ascii. intros c Hc. apply in_map_iff in Hc as (y & <- & Hy).
    apply ascii_text_app;
      [apply ascii_text_cons; [reflexivity|apply newline_indent_ascii]|].
    apply IHl; [|apply Hl]; right; exact Hy.
  - inversion Hform as [| | | | | |? Hnd Hfields]; subst.
    destruct fields as [|[k x] fields]; [reflexivity|].
    assert (Hmember : forall kv, In kv ((k, x) :: fields) ->
                        ascii_text (member level kv)).
    { rewrite Forall_forall in IHd, Hfields. intros [k' y] Hy.
      unfold member. apply ascii_text_app;
        [apply encode_basestring_ascii_ascii|].
      apply ascii_text_app; [reflexivity|].
      apply (IHd _ Hy). apply (Hfields _ Hy). }
    cbn [iterencode].
    change (map (fun kv : str * value =>
                   let (k0, v) := kv in
                   encode_basestring_ascii k0 ++ [58; 32]
                     ++ iterencode (S level) v) ((k, x) :: fields))
      with (map (member level) ((k, x) :: fields)).
    cbn [map]. rewrite join_cons.
    apply ascii_text_cons; [reflexivity|].
    apply ascii_text_app; [apply newline_indent_ascii|].
    apply ascii_text_app; [|apply ascii_text_app;
                             [apply newline_indent_ascii|reflexivity]].
    apply ascii_text_app; [apply Hmember; left; reflexivity|].
    apply flat_map_ascii. intros c Hc. apply in_map_iff in Hc as (y & <- & Hy).
    apply ascii_text_app;
      [apply ascii_text_cons; [reflexivity|apply newline_indent_ascii]|].
    apply Hmember. right; exact Hy.
Qed.

Lemma is_ascii_bounds c : is_ascii c = true -> 0 < c < 128.
Proof.
  unfold is_ascii. intros H. apply andb_true_iff in H as [H0 H1].
  apply N.ltb_lt in H0, H1. lia.
Qed.

(** The bytes of an ASCII text are its characters. *)
Lemma file_bytes_values s :
  ascii_text s -> map Byte.to_N (file_bytes s) = s.
Proof.
  unfold ascii_text, file_bytes. induction s as [|c s IH]; [reflexivity|].
  simpl. intros H. apply andb_true_iff in H as [Hc Hs].
  rewrite (IH Hs). f_equal.
  destruct (Byte.of_N c) as [b|] eqn:Hb.
  - apply Byte.to_of_N, Hb.
  - apply Byte.of_N_None_iff in Hb. apply is_ascii_bounds in Hc. lia.
Qed.

Lemma decode_utf_8_ascii s : ascii_text s -> Codecs.decode_utf_8 s = Some s.
Proof.
  unfold ascii_text. induction s as [|c s IH]; [reflexivity|].
  simpl. intros H. apply andb_true_iff in H as [Hc Hs].
  apply is_ascii_bounds in Hc.
  replace (c <? 128) with true by (symmetry; apply N.ltb_lt; lia).
  rewrite (IH Hs). reflexivity.
Qed.

Lemma startswith_head x p c b : x <> c -> Codecs.startswith (x :: p) (c :: b) = false.
Proof. intros H. simpl. apply N.eqb_neq in H. rewrite H. reflexivity. Qed.

Lemma detect_encoding_ascii s :
  ascii_text s -> Codecs.detect_encoding s = Codecs.utf_8.
Proof.
  unfold ascii_text. destruct s as [|b0 s]; [reflexivity|].
  simpl forallb. intros H. apply andb_true_iff in H as [H0 Hs].
  apply is_ascii_bounds in H0. unfold Codecs.detect_encoding.
  unfold Codecs.BOM_UTF32_BE, Codecs.BOM_UTF32_LE, Codecs.BOM_UTF16_BE,
    Codecs.BOM_UTF16_LE, Codecs.BOM_UTF8.
  rewrite !startswith_head by lia. simpl orb. cbv iota.
  assert (Hz0 : (b0 =? 0) = false) by (apply N.eqb_neq; lia).
  destruct s as [|b1 s]; [reflexivity|].
  simpl forallb in Hs. apply andb_true_iff in Hs as [H1 Hs].
  apply is_ascii_bounds in H1.
  assert (Hz1 : (b1 =? 0) = false) by (apply N.eqb_neq; lia).
  rewrite Hz0, Hz1. destruct s as [|b2 [|b3 s]]; reflexivity.
Qed.

Lemma decode_file_bytes s :
  ascii_text s -> Codecs.decode (file_bytes s) = Some s.
Proof.
  intros H. unfold Codecs.decode.
  rewrite (file_bytes_values s H), (detect_encoding_ascii s H).
  apply decode_utf_8_ascii, H.
Qed.

Lemma join_length_item sep c (cs : list str) :
  In c cs -> (List.length c <= List.length (join sep cs))%nat.
Proof.
  induction cs as [|c' cs IH]; [contradiction|].
  rewrite join_cons, length_app. intros [->|Hin]; [lia|].
  specialize (IH Hin). destruct cs as [|c'' cs]; [contradiction|].
  rewrite join_cons in IH. cbn [flat_map]. rewrite !length_app in *.
  lia.
Qed.

Lemma depth_le_length v :
  forall level, (depth v <= List.length (iterencode level v))%nat.
Proof.
  induction v as [ |b|z|r|s|l IHl|fields IHd] using value_ind'; intros level;
    try (simpl; lia).
  - destruct l as [|x xs]; [simpl; lia|].
    cbn [iterencode depth].
    set (cs := map (iterencode (S level)) (x :: xs)).
    assert (H : (list_max (map depth (x :: xs))
                 <= List.length (join (44%N :: newline_indent (S level)) cs))%nat).
    { apply list_max_le. rewrite Forall_forall. intros n Hn.
      apply in_map_iff in Hn as (y & <- & Hy).
      rewrite Forall_forall in IHl.
      etransitivity; [apply (IHl y Hy (S level))|].
      apply join_length_item, in_map, Hy. }
    cbn [List.length]. rewrite !length_app. lia.
  - destruct fields as [|[k x] fields]; [simpl; lia|].
    cbn [iterencode depth].
    set (f := fun kv : str * value =>
                let (k0, v) := kv in
                encode_basestring_ascii k0 ++ [58; 32]
                  ++ iterencode (S level) v).
    set (g := fun kv : str * value => let (_, y) := kv in depth y).
    assert (H : (list_max (map g ((k, x) :: fields))
                 <= List.length (join (44%N :: newline_indent (S level))
                                   (map f ((k, x) :: fields))))%nat).
    { apply list_max_le. rewrite Forall_forall. intros n Hn.
      apply in_map_iff in Hn as ([k' y] & <- & Hy).
      rewrite Forall_forall in IHd.
      etransitivity; [apply (IHd _ Hy (S level))|].
      etransitivity; [|apply join_length_item, (in_map f), Hy].
      unfold f. rewrite !length_app. simpl snd. lia. }
    cbn [List.length]. rewrite !length_app. lia.
Qed.

(** What [json.dump] writes for a value in parsed form is loaded as that
    value, unless one of its strings has a high surrogate right before a
    low one. *)
Theorem loads_dumps pf v :
  parsed_form pf v -> no_surrogate_pair v = true ->
  Decoder.loads pf (file_bytes (dumps v)) = Ok v.
Proof.
  intros Hform Hpair. unfold Decoder.loads, dumps.
  rewrite decode_file_bytes by (apply (iterencode_ascii pf), Hform).
  unfold Decoder.decode.
  pose proof (iterencode_head pf 0 v Hform) as Hhead.
  rewrite <- (List.app_nil_r (iterencode 0 v)) at 2.
  rewrite skip_ws_value_head by exact Hhead.
  rewrite (scan_once_iterencode pf v Hform Hpair 0 []);
    [reflexivity|exact I|].
  pose proof (depth_le_length v 0). lia.
Qed.

(** * What [json.load] builds *)

Lemma in_range_cons c s :
  in_range (c :: s) = true <-> c < 1114112 /\ in_range s = true.
Proof.
  unfold in_range. simpl. rewrite andb_true_iff, N.ltb_lt. reflexivity.
Qed.

Lemma in_range_app s t :
  in_range (s ++ t) = true <-> in_range s = true /\ in_range t = true.
Proof. unfold in_range. rewrite forallb_app, andb_true_iff. reflexivity. Qed.

Lemma hexval_bound c a : hexval c = Some a -> a < 16.
Proof.
  unfold hexval, is_digit. intros H.
  destruct ((48 <=? c) && (c <=? 57)) eqn:H1.
  { apply andb_true_iff in H1 as [Hlo Hhi]. apply N.leb_le in Hlo, Hhi.
    inversion H; subst. lia. }
  destruct ((97 <=? c) && (c <=? 102)) eqn:H2.
  { apply andb_true_iff in H2 as [Hlo Hhi]. apply N.leb_le in Hlo, Hhi.
    inversion H; subst. lia. }
  destruct ((65 <=? c) && (c <=? 70)) eqn:H3; [|discriminate].
  apply andb_true_iff in H3 as [Hlo Hhi]. apply N.leb_le in Hlo, Hhi.
  inversion H; subst. lia.
Qed.

Lemma decode_uXXXX_bound h1 h2 h3 h4 n :
  decode_uXXXX h1 h2 h3 h4 = Some n -> n < 65536.
Proof.
  unfold decode_uXXXX. intros H.
  destruct (hexval h1) as [a|] eqn:Ha; [|discriminate].
  destruct (hexval h2) as [b|] eqn:Hb; [|discriminate].
  destruct (hexval h3) as [c|] eqn:Hc; [|discriminate].
  destruct (hexval h4) as [d|] eqn:Hd; [|discriminate].
  apply hexval_bound in Ha, Hb, Hc, Hd. inversion H; subst. lia.
Qed.

Lemma join_surrogates_bound u l :
  Codecs.is_high u = true -> Codecs.is_low l = true ->
  join_surrogates u l < 1114112.
Proof.
  unfold Codecs.is_high, Codecs.is_low, join_surrogates. intros Hu Hl.
  apply andb_true_iff in Hu as [Hu1 Hu2], Hl as [Hl1 Hl2].
  apply N.leb_le in Hu1, Hu2, Hl1, Hl2.
  rewrite lor_shiftl_add by (change (2 ^ 10) with 1024; lia).
  change (2 ^ 10) with 1024. lia.
Qed.

Lemma emit_inv c r k rest :
  emit c r = Some (k, rest) ->
  exists k', r = Some (k', rest) /\ k = c :: k'.
Proof.
  unfold emit. destruct r as [[k' rest']|]; [|discriminate].
  intros H; inversion H; subst. eauto.
Qed.

Lemma BACKSLASH_bound esc c : BACKSLASH esc = Some c -> c < 1114112.
Proof.
  unfold BACKSLASH. intros H.
  repeat match type of H with
         | (if ?b then _ else _) = _ => destruct b
         end; inversion H; subst; reflexivity.
Qed.

Ltac split_range H :=
  repeat match type of H with
         | in_range (_ :: _) = true =>
             let Hc := fresh "Hc" in
             apply in_range_cons in H as [Hc H]
         end.

(** The characters of a scanned string are code points, and so is what
    follows it. *)
Lemma scanstring_range n : forall s k rest,
  (List.length s <= n)%nat -> in_range s = true ->
  scanstring s = Some (k, rest) ->
  in_range k = true /\ in_range rest = true.
Proof.
  induction n as [|n IH]; intros s k rest Hn Hr H.
  { destruct s; [discriminate|simpl in Hn; lia]. }
  assert (Hstep : forall c t k' rest',
    (List.length t <= n)%nat -> in_range t = true -> c < 1114112 ->
    emit c (scanstring t) = Some (k', rest') ->
    in_range k' = true /\ in_range rest' = true).
  { intros c t k' rest' Ht Hrt Hc He.
    apply emit_inv in He as (k'' & He & ->).
    destruct (IH t k'' rest' Ht Hrt He) as [Hk Hrest].
    split; [apply in_range_cons; auto|exact Hrest]. }
  destruct s as [|c s1]; [discriminate|].
  cbn [scanstring] in H.
  destruct (c =? 34).
  { inversion H; subst. apply in_range_cons in Hr as [_ Hr]. auto. }
  destruct (c =? 92).
  - destruct s1 as [|esc s2]; [discriminate|]. cbv match in H.
    destruct (esc =? 117).
    + destruct s2 as [|h1 [|h2 [|h3 [|h4 s6]]]]; try discriminate.
      cbv match in H.
      destruct (decode_uXXXX h1 h2 h3 h4) as [uni|] eqn:Hd; [|discriminate].
      pose proof (decode_uXXXX_bound _ _ _ _ _ Hd) as Huni.
      split_range Hr. simpl in Hn.
      assert (Hplain : forall k' rest',
        emit uni (scanstring s6) = Some (k', rest') ->
        in_range k' = true /\ in_range rest' = true)
        by (intros k' rest'; apply Hstep; [lia|exact Hr|lia]).
      destruct s6 as [|b [|u s8]]; try (apply Hplain; exact H).
      cbv match in H.
      destruct (Codecs.is_high uni && (b =? 92) && (u =? 117)) eqn:Hcond;
        [|apply Hplain; exact H].
      destruct s8 as [|g1 [|g2 [|g3 [|g4 s12]]]]; try discriminate.
      cbv match in H.
      destruct (decode_uXXXX g1 g2 g3 g4) as [uni2|] eqn:Hd2;
        [|discriminate].
      destruct (Codecs.is_low uni2) eqn:Hlow; [|apply Hplain; exact H].
      apply andb_true_iff in Hcond as [Hcond _].
      apply andb_true_iff in Hcond as [Hhigh _].
      split_range Hr. simpl in Hn.
      revert H. apply Hstep; [lia|exact Hr|].
      apply join_surrogates_bound; assumption.
    + destruct (BACKSLASH esc) as [char|] eqn:Hb; [|discriminate].
      split_range Hr. simpl in Hn.
      revert H. apply Hstep; [lia|exact Hr|].
      apply (BACKSLASH_bound esc), Hb.
  - destruct (c <=? 31); [discriminate|].
    split_range Hr. simpl in Hn. revert H. apply Hstep; [lia|exact Hr|exact Hc].
Qed.

(** ** Number literals *)

Lemma span_digits_spec s ds t :
  span_digits s = (ds, t) ->
  s = ds ++ t /\ forallb is_digit ds = true /\ no_digit_ahead t.
Proof.
  revert ds t; induction s as [|c s IH]; cbn [span_digits]; intros ds t H.
  - inversion H; subst. repeat split.
  - destruct (is_digit c) eqn:Hc.
    + destruct (span_digits s) as [ds' t'] eqn:Hs. inversion H; subst.
      destruct (IH ds' t eq_refl) as (-> & Hds & Ht).
      repeat split;
        [cbn [forallb]; rewrite Hc, Hds; reflexivity|exact Ht].
    + inversion H; subst. repeat split. exact Hc.
Qed.

Lemma span_digits_exact ds t :
  forallb is_digit ds = true -> no_digit_ahead t ->
  span_digits (ds ++ t) = (ds, t).
Proof.
  induction ds as [|c ds IH]; cbn [List.app span_digits forallb];
    intros Hds Ht.
  - destruct t as [|c t]; [reflexivity|].
    cbn [no_digit_ahead] in Ht. cbn [span_digits]. rewrite Ht. reflexivity.
  - apply andb_true_iff in Hds as [Hc Hds]. rewrite Hc, (IH Hds Ht).
    reflexivity.
Qed.

Lemma match_integer_spec s i s1 :
  match_integer s = Some (i, s1) ->
  s = i ++ s1 /\ integer_form i
  /\ (no_digit_ahead s1 \/ exists sign, i = sign ++ [48]).
Proof.
  unfold match_integer, integer_form.
  assert (Hbody : forall sign t,
    (sign = [] \/ sign = [45]) ->
    match t with
    | [] => None
    | c :: r =>
        if c =? 48 then Some (sign ++ [48], r)
        else if is_digit c
             then let (ds, rest) := span_digits r in Some (sign ++ c :: ds, rest)
             else None
    end = Some (i, s1) ->
    sign ++ t = i ++ s1
    /\ (exists sign0 body, i = sign0 ++ body
          /\ (sign0 = [] \/ sign0 = [45])
          /\ (body = [48]
              \/ exists c ds, body = c :: ds /\ c <> 48 /\ is_digit c = true
                   /\ forallb is_digit ds = true))
    /\ (no_digit_ahead s1 \/ exists sign0, i = sign0 ++ [48])).
  { intros sign t Hsign H. destruct t as [|c r]; [discriminate|].
    destruct (N.eqb_spec c 48) as [->|H48].
    - inversion H; subst. rewrite <- List.app_assoc.
      split; [reflexivity|]. split; [|right; eauto].
      exists sign, [48]. auto.
    - destruct (is_digit c) eqn:Hc; [|discriminate].
      destruct (span_digits r) as [ds rest] eqn:Hs. inversion H; subst.
      destruct (span_digits_spec _ _ _ Hs) as (-> & Hds & Hrest).
      rewrite <- List.app_assoc. split; [reflexivity|].
      split; [|left; exact Hrest].
      exists sign, (c :: ds). split; [reflexivity|]. split; [exact Hsign|].
      right. exists c, ds. auto. }
  destruct s as [|c r].
  - intros H. apply (Hbody [] []); auto.
  - destruct (N.eqb_spec c 45) as [->|H45]; intros H.
    + apply (Hbody [45] r); auto.
    + apply (Hbody [] (c :: r)); auto.
Qed.

Lemma match_frac_spec s f t :
  match_frac s = (f, t) ->
  s = f ++ t /\ frac_form f /\ (f = [] \/ no_digit_ahead t).
Proof.
  unfold match_frac, frac_form. destruct s as [|c r].
  - intros H; inversion H; subst. auto.
  - destruct (N.eqb_spec c 46) as [->|H46].
    + destruct (span_digits r) as [[|d ds] rest] eqn:Hs;
        intros H; inversion H; subst; [auto|].
      destruct (span_digits_spec _ _ _ Hs) as (-> & Hds & Hrest).
      split; [reflexivity|]. split; [right; eauto|right; exact Hrest].
    + intros H; inversion H; subst. auto.
Qed.

Lemma match_exp_spec s e t :
  match_exp s = (e, t) ->
  s = e ++ t /\ exp_form e /\ (e = [] \/ no_digit_ahead t).
Proof.
  unfold match_exp, exp_form. destruct s as [|c r].
  - intros H; inversion H; subst. auto.
  - destruct ((c =? 101) || (c =? 69)) eqn:Hc.
    + assert (Hc' : c = 101 \/ c = 69).
      { apply orb_true_iff in Hc as [Hc|Hc]; apply N.eqb_eq in Hc; auto. }
      assert (Hsign : exists sign r1,
        match r with
        | [] => ([], r)
        | c0 :: r' => if (c0 =? 45) || (c0 =? 43) then ([c0], r') else ([], r)
        end = (sign, r1)
        /\ r = sign ++ r1 /\ (sign = [] \/ sign = [45] \/ sign = [43])).
      { destruct r as [|c0 r']; [exists [], []; auto|].
        destruct ((c0 =? 45) || (c0 =? 43)) eqn:H0.
        - exists [c0], r'. split; [reflexivity|]. split; [reflexivity|].
          apply orb_true_iff in H0 as [H0|H0]; apply N.eqb_eq in H0; subst; auto.
        - exists [], (c0 :: r'). auto. }
      destruct Hsign as (sign & r1 & -> & -> & Hsign).
      destruct (span_digits r1) as [[|d ds] rest] eqn:Hs;
        intros H; inversion H; subst; [auto|].
      destruct (span_digits_spec _ _ _ Hs) as (-> & Hds & Hrest).
      cbn [List.app]. rewrite <- List.app_assoc. cbn [List.app].
      split; [reflexivity|]. split; [|right; exact Hrest].
      right. exists c, sign, d, ds. auto.
    + intros H; inversion H; subst. auto.
Qed.

Lemma match_number_spec s i f e rest :
  match_number s = Some (i, f, e, rest) ->
  s = i ++ f ++ e ++ rest /\ integer_form i /\ frac_form f /\ exp_form e.
Proof.
  unfold match_number.
  destruct (match_integer s) as [[i' s1]|] eqn:Hi; [|discriminate].
  destruct (match_frac s1) as [f' s2] eqn:Hf.
  destruct (match_exp s2) as [e' s3] eqn:He.
  intros H; inversion H; subst.
  destruct (match_integer_spec _ _ _ Hi) as (-> & Hif & _).
  destruct (match_frac_spec _ _ _ Hf) as (-> & Hff & _).
  destruct (match_exp_spec _ _ _ He) as (-> & Hef & _).
  auto.
Qed.

Lemma digits_no_sign d ds :
  forallb is_digit (d :: ds) = true -> ((d =? 45) || (d =? 43)) = false.
Proof.
  simpl. intros H. apply andb_true_iff in H as [H _].
  destruct (N.eqb_spec d 45) as [->|]; [discriminate|].
  destruct (N.eqb_spec d 43) as [->|]; [discriminate|reflexivity].
Qed.

Lemma exp_form_ahead e rest : exp_form e -> delimited rest -> no_digit_ahead (e ++ rest).
Proof.
  intros [->|(c & sign & d & ds & -> & [->| ->] & _)] Hrest;
    [apply delimited_no_digit, Hrest|reflexivity..].
Qed.

Lemma match_exp_form e rest :
  exp_form e -> delimited rest -> match_exp (e ++ rest) = (e, rest).
Proof.
  intros [->|(c & sign & d & ds & -> & Hc & Hsign & Hds)] Hrest.
  - apply match_exp_delimited, Hrest.
  - pose proof (span_digits_exact (d :: ds) rest Hds
                  (delimited_no_digit rest Hrest)) as Hspan.
    cbn [List.app] in Hspan. unfold match_exp. cbn [List.app].
    replace ((c =? 101) || (c =? 69)) with true
      by (destruct Hc as [->| ->]; reflexivity).
    destruct Hsign as [->|[->| ->]]; cbn [List.app].
    + rewrite (digits_no_sign d ds Hds). rewrite Hspan. reflexivity.
    + change ((45 =? 45) || (45 =? 43)) with true. cbv iota.
      rewrite Hspan. reflexivity.
    + change ((43 =? 45) || (43 =? 43)) with true. cbv iota.
      rewrite Hspan. reflexivity.
Qed.

Lemma match_frac_form f e rest :
  frac_form f -> exp_form e -> delimited rest ->
  match_frac (f ++ e ++ rest) = (f, e ++ rest).
Proof.
  intros [->|(d & ds & -> & Hds)] He Hrest.
  - cbn [List.app].
    destruct He as [->|(c & sign & d & ds & -> & [->| ->] & _)];
      [apply match_frac_delimited, Hrest|reflexivity..].
  - unfold match_frac. cbn [List.app]. change (46 =? 46) with true. cbv iota.
    pose proof (span_digits_exact (d :: ds) (e ++ rest) Hds
                  (exp_form_ahead e rest He Hrest)) as Hspan.
    cbn [List.app] in Hspan. rewrite Hspan. reflexivity.
Qed.

Lemma frac_exp_ahead f e rest :
  frac_form f -> exp_form e -> delimited rest ->
  no_digit_ahead (f ++ e ++ rest).
Proof.
  intros [->|(d & ds & -> & _)] He Hrest.
  - exact (exp_form_ahead e rest He Hrest).
  - reflexivity.
Qed.

Lemma match_integer_form i t :
  integer_form i -> no_digit_ahead t -> match_integer (i ++ t) = Some (i, t).
Proof.
  intros (sign & body & -> & Hsign & Hbody) Ht. unfold match_integer.
  assert (H : forall sg,
    match body ++ t with
    | [] => None
    | c :: r =>
        if c =? 48 then Some (sg ++ [48], r)
        else if is_digit c
             then let (ds, rest) := span_digits r in Some (sg ++ c :: ds, rest)
             else None
    end = Some (sg ++ body, t)).
  { intros sg. destruct Hbody as [->|(c & ds & -> & H48 & Hc & Hds)].
    - reflexivity.
    - cbn [List.app]. apply N.eqb_neq in H48. rewrite H48, Hc.
      rewrite (span_digits_exact ds t Hds Ht). reflexivity. }
  destruct Hsign as [->| ->].
  - cbn [List.app].
    destruct Hbody as [->|(c & ds & -> & H48 & Hc & Hds)].
    + reflexivity.
    + cbn [List.app].
      assert (H45 : (c =? 45) = false)
        by (apply N.eqb_neq; intros ->; discriminate).
      rewrite H45. apply (H []).
  - cbn [List.app]. change (45 =? 45) with true. cbv iota. apply (H [45]).
Qed.

(** A number literal followed by a delimiter is matched whole. *)
Lemma match_number_form i f e rest :
  integer_form i -> frac_form f -> exp_form e -> delimited rest ->
  match_number (i ++ f ++ e ++ rest) = Some (i, f, e, rest).
Proof.
  intros Hi Hf He Hrest. unfold match_number.
  rewrite (match_integer_form i _ Hi (frac_exp_ahead f e rest Hf He Hrest)).
  rewrite (match_frac_form f e rest Hf He Hrest).
  rewrite (match_exp_form e rest He Hrest). reflexivity.
Qed.

Lemma digits_ascii ds : forallb is_digit ds = true -> ascii_text ds.
Proof.
  unfold ascii_text. induction ds as [|c ds IH]; [reflexivity|].
  cbn [forallb]. intros H. apply andb_true_iff in H as [Hc Hds].
  rewrite (IH Hds), andb_true_r.
  unfold is_digit in Hc. apply andb_true_iff in Hc as [Hlo Hhi].
  apply N.leb_le in Hlo, Hhi. unfold is_ascii.
  apply andb_true_iff; split; apply N.ltb_lt; lia.
Qed.

Lemma integer_form_ascii i : integer_form i -> ascii_text i.
Proof.
  intros (sign & body & -> & Hsign & Hbody). apply ascii_text_app.
  - destruct Hsign as [->| ->]; reflexivity.
  - destruct Hbody as [->|(c & ds & -> & _ & Hc & Hds)]; [reflexivity|].
    apply (digits_ascii (c :: ds)). cbn [forallb]. rewrite Hc, Hds.
    reflexivity.
Qed.

Lemma frac_form_ascii f : frac_form f -> ascii_text f.
Proof.
  intros [->|(d & ds & -> & Hds)]; [reflexivity|].
  apply ascii_text_cons; [reflexivity|apply digits_ascii, Hds].
Qed.

Lemma exp_form_ascii e : exp_form e -> ascii_text e.
Proof.
  intros [->|(c & sign & d & ds & -> & Hc & Hsign & Hds)]; [reflexivity|].
  apply ascii_text_cons; [destruct Hc as [->| ->]; reflexivity|].
  apply ascii_text_app; [|apply digits_ascii, Hds].
  destruct Hsign as [->|[->| ->]]; reflexivity.
Qed.

Lemma integer_form_head i :
  integer_form i ->
  exists c t, i = c :: t /\ c <> 110 /\ c <> 116 /\ c <> 102.
Proof.
  intros (sign & body & -> & Hsign & Hbody).
  destruct Hsign as [->| ->].
  - destruct Hbody as [->|(c & ds & -> & _ & Hc & _)].
    + exists 48, []. repeat split; discriminate.
    + exists c, ds. repeat split; intros ->; discriminate.
  - eexists 45, _. repeat split; discriminate.
Qed.

(** Keeping the literal as it is written satisfies the contract of the
    float parser. *)
Lemma float_as_written_ok : float_parser_ok float_as_written.
Proof.
  intros s i f e rest Hm Hfe.
  destruct (match_number_spec _ _ _ _ _ Hm) as (_ & Hi & Hf & He).
  unfold float_as_written. split.
  - apply ascii_text_app; [apply integer_form_ascii, Hi|].
    apply ascii_text_app; [apply frac_form_ascii, Hf|apply exp_form_ascii, He].
  - intros rest' Hrest'. unfold scan_atom.
    rewrite <- !List.app_assoc.
    rewrite (match_number_form i f e rest' Hi Hf He Hrest').
    destruct (integer_form_head i Hi) as (c & t & -> & H1 & H2 & H3).
    cbn [List.app].
    change (pystr "null") with [110; 117; 108; 108].
    change (pystr "true") with [116; 114; 117; 101].
    change (pystr "false") with [102; 97; 108; 115; 101].
    rewrite (strip_prefix_head 110), (strip_prefix_head 116),
      (strip_prefix_head 102) by congruence.
    destruct f as [|x f]; [|reflexivity].
    destruct e as [|x e]; [|reflexivity].
    destruct Hfe as [Hfe|Hfe]; congruence.
Qed.

(** ** The scanner *)

Lemma strip_prefix_split p s r : strip_prefix p s = Some r -> s = p ++ r.
Proof.
  revert s; induction p as [|x p IH]; intros s H; simpl in H.
  - inversion H; reflexivity.
  - destruct s as [|y s]; [discriminate|].
    destruct (N.eqb_spec x y) as [->|]; [|discriminate].
    rewrite (IH s H). reflexivity.
Qed.

Lemma skip_ws_range s : in_range s = true -> in_range (skip_ws s) = true.
Proof.
  induction s as [|c s IH]; [reflexivity|]. intros H. cbn [skip_ws].
  destruct (is_ws c); [|exact H].
  apply in_range_cons in H as [_ H]. exact (IH H).
Qed.

Lemma printed_constant pf r :
  r = pystr "NaN" \/ r = pystr "Infinity" \/ r = pystr "-Infinity" ->
  printed_float pf r.
Proof.
  intros [->|[->| ->]]; split; try reflexivity; intros rest _; reflexivity.
Qed.

Section Form.

Variable pf : float_parser.
Hypothesis pf_ok : float_parser_ok pf.

Lemma scan_atom_form : well_scanned pf (scan_atom pf).
Proof.
  intros s v rest Hs. unfold scan_atom.
  destruct (strip_prefix (pystr "null") s) as [r|] eqn:H1.
  { intros H; inversion H; subst. split; [constructor|].
    apply strip_prefix_split in H1. subst. apply in_range_app in Hs. tauto. }
  destruct (strip_prefix (pystr "true") s) as [r|] eqn:H2.
  { intros H; inversion H; subst. split; [constructor|].
    apply strip_prefix_split in H2. subst. apply in_range_app in Hs. tauto. }
  destruct (strip_prefix (pystr "false") s) as [r|] eqn:H3.
  { intros H; inversion H; subst. split; [constructor|].
    apply strip_prefix_split in H3. subst. apply in_range_app in Hs. tauto. }
  destruct (match_number s) as [[[[i f] e] r]|] eqn:Hm.
  { assert (Hr : in_range r = true).
    { destruct (match_number_spec _ _ _ _ _ Hm) as (-> & _).
      apply in_range_app in Hs as [_ Hs].
      apply in_range_app in Hs as [_ Hs].
      apply in_range_app in Hs as [_ Hs]. exact Hs. }
    destruct f as [|x f].
    - destruct e as [|x e]; intros H; inversion H; subst;
        (split; [|exact Hr]); [constructor|].
      constructor. apply (pf_ok s i [] (x :: e) rest Hm). right; discriminate.
    - intros H; inversion H; subst. split; [|exact Hr].
      constructor. apply (pf_ok s i (x :: f) e rest Hm). left; discriminate. }
  destruct (strip_prefix (pystr "NaN") s) as [r|] eqn:H4.
  { intros H; inversion H; subst.
    split; [constructor; apply printed_constant; auto|].
    apply strip_prefix_split in H4. subst. apply in_range_app in Hs. tauto. }
  destruct (strip_prefix (pystr "Infinity") s) as [r|] eqn:H5.
  { intros H; inversion H; subst.
    split; [constructor; apply printed_constant; auto|].
    apply strip_prefix_split in H5. subst. apply in_range_app in Hs. tauto. }
  destruct (strip_prefix (pystr "-Infinity") s) as [r|] eqn:H6; [|discriminate].
  intros H; inversion H; subst.
  split; [constructor; apply printed_constant; auto|].
  apply strip_prefix_split in H6. subst. apply in_range_app in Hs. tauto.
Qed.

Lemma skip_ws_cons_range s c t :
  in_range s = true -> skip_ws s = c :: t -> in_range t = true.
Proof.
  intros Hs H. apply skip_ws_range in Hs. rewrite H in Hs.
  apply in_range_cons in Hs. tauto.
Qed.

Lemma array_items_form scan n :
  well_scanned pf scan ->
  forall s vs rest,
    in_range s = true -> array_items scan n s = Some (vs, rest) ->
    Forall (parsed_form pf) vs /\ in_range rest = true.
Proof.
  intros Hscan. induction n as [|n IH]; intros s vs rest Hs H;
    [discriminate|].
  cbn [array_items] in H.
  destruct (scan s) as [[v s1]|] eqn:Hv; [|discriminate].
  destruct (Hscan s v s1 Hs Hv) as [Hform Hs1].
  destruct (skip_ws s1) as [|c s2] eqn:Hw; [discriminate|].
  pose proof (skip_ws_cons_range s1 c s2 Hs1 Hw) as Hs2.
  destruct (c =? 93).
  { inversion H; subst. auto. }
  destruct (c =? 44); [|discriminate].
  destruct (array_items scan n (skip_ws s2)) as [[vs' rest']|] eqn:Hrec;
    [|discriminate].
  inversion H; subst.
  destruct (IH (skip_ws s2) vs' rest (skip_ws_range s2 Hs2) Hrec)
    as [Hvs Hrest].
  auto.
Qed.

Lemma object_pairs_form scan n :
  well_scanned pf scan ->
  forall s ps rest,
    in_range s = true -> object_pairs scan n s = Some (ps, rest) ->
    Forall (field_form pf) ps /\ in_range rest = true.
Proof.
  intros Hscan. induction n as [|n IH]; intros s ps rest Hs H;
    [discriminate|].
  cbn [object_pairs] in H.
  destruct (scanstring s) as [[key s1]|] eqn:Hk; [|discriminate].
  destruct (scanstring_range _ s key s1 (le_n _) Hs Hk) as [Hkey Hs1].
  destruct (skip_ws s1) as [|c s2] eqn:Hw; [discriminate|].
  pose proof (skip_ws_cons_range s1 c s2 Hs1 Hw) as Hs2.
  destruct (c =? 58); [|discriminate].
  destruct (scan (skip_ws s2)) as [[v s3]|] eqn:Hv; [|discriminate].
  destruct (Hscan _ v s3 (skip_ws_range s2 Hs2) Hv) as [Hform Hs3].
  destruct (skip_ws s3) as [|c' s4] eqn:Hw3; [discriminate|].
  pose proof (skip_ws_cons_range s3 c' s4 Hs3 Hw3) as Hs4.
  assert (Hfield : field_form pf (key, v)) by (split; assumption).
  destruct (c' =? 125).
  { inversion H; subst. auto. }
  destruct (c' =? 44); [|discriminate].
  destruct (skip_ws s4) as [|q s5] eqn:Hw4; [discriminate|].
  pose proof (skip_ws_cons_range s4 q s5 Hs4 Hw4) as Hs5.
  destruct (q =? 34); [|discriminate].
  destruct (object_pairs scan n s5) as [[ps' rest']|] eqn:Hrec;
    [|discriminate].
  inversion H; subst.
  destruct (IH s5 ps' rest Hs5 Hrec) as [Hps Hrest]. auto.
Qed.

Lemma dict_set_keys d k v :
  map fst (dict_set d k v) = map fst d
  \/ (~ In k (map fst d) /\ map fst (dict_set d k v) = map fst d ++ [k]).
Proof.
  induction d as [|[k' v'] d IH]; simpl.
  - right. auto.
  - destruct (str_eqb k' k) eqn:Hk; [left; reflexivity|].
    apply str_eqb_neq in Hk.
    destruct IH as [IH|[Hnot IH]]; simpl; rewrite IH; [auto|].
    right. split; [|reflexivity]. intros [H|H]; auto.
Qed.

Lemma dict_set_form d k v :
  Forall (field_form pf) d -> field_form pf (k, v) ->
  Forall (field_form pf) (dict_set d k v).
Proof.
  intros Hd Hkv. induction Hd as [|[k' v'] d Hx Hd IH]; simpl.
  - constructor; [exact Hkv|constructor].
  - destruct (str_eqb k' k) eqn:Hk.
    + constructor; [|exact Hd]. destruct Hx as [Hx _], Hkv as [_ Hv].
      split; assumption.
    + constructor; assumption.
Qed.

Lemma dict_form ps :
  Forall (field_form pf) ps ->
  NoDup (map fst (dict ps)) /\ Forall (field_form pf) (dict ps).
Proof.
  unfold dict.
  assert (H : forall acc,
    NoDup (map fst acc) -> Forall (field_form pf) acc ->
    Forall (field_form pf) ps ->
    NoDup (map fst (fold_left
             (fun d kv => dict_set d (fst kv) (snd kv)) ps acc))
    /\ Forall (field_form pf) (fold_left
             (fun d kv => dict_set d (fst kv) (snd kv)) ps acc)).
  { induction ps as [|[k v] ps IH]; intros acc Hnd Hacc Hps; [auto|].
    inversion Hps; subst. cbn [fold_left fst snd]. apply IH.
    - destruct (dict_set_keys acc k v) as [->|[Hnot ->]]; [exact Hnd|].
      apply NoDup_app; [exact Hnd|repeat constructor; intros []|].
      intros x Hx [<-|[]]. contradiction.
    - apply dict_set_form; assumption.
    - assumption. }
  intros Hps. apply H; [constructor|constructor|exact Hps].
Qed.

Lemma scan_once_form d : well_scanned pf (scan_once pf d).
Proof.
  induction d as [|d IH]; intros s v rest Hs H; [discriminate|].
  cbn [scan_once] in H. destruct s as [|c r]; [discriminate|].
  pose proof Hs as Hr. apply in_range_cons in Hr as [_ Hr].
  destruct (c =? 34).
  { destruct (scanstring r) as [[k rest']|] eqn:Hk; [|discriminate].
    inversion H; subst.
    destruct (scanstring_range _ r k rest (le_n _) Hr Hk) as [Hk' Hrest].
    split; [constructor; exact Hk'|exact Hrest]. }
  destruct (c =? 123).
  { unfold JSONObject in H.
    destruct (skip_ws r) as [|c' r'] eqn:Hw; [discriminate|].
    pose proof (skip_ws_cons_range r c' r' Hr Hw) as Hr'.
    destruct (c' =? 125).
    { inversion H; subst. split; [|exact Hr'].
      constructor; constructor. }
    destruct (c' =? 34); [|discriminate].
    destruct (object_pairs (scan_once pf d) (S (List.length r)) r')
      as [[ps rest']|] eqn:Hps; [|discriminate].
    inversion H; subst.
    destruct (object_pairs_form _ _ IH r' ps rest Hr' Hps) as [Hform Hrest].
    destruct (dict_form ps Hform) as [Hnd Hall].
    split; [constructor; assumption|exact Hrest]. }
  destruct (c =? 91).
  { unfold JSONArray in H.
    destruct (skip_ws r) as [|c' r'] eqn:Hw; [discriminate|].
    pose proof (skip_ws_cons_range r c' r' Hr Hw) as Hr'.
    destruct (c' =? 93).
    { inversion H; subst. split; [|exact Hr']. constructor; constructor. }
    destruct (array_items (scan_once pf d) (S (List.length r)) (c' :: r'))
      as [[vs rest']|] eqn:Hvs; [|discriminate].
    inversion H; subst.
    assert (Hcr : in_range (c' :: r') = true)
      by (rewrite <- Hw; apply skip_ws_range, Hr).
    destruct (array_items_form _ _ IH (c' :: r') vs rest Hcr Hvs)
      as [Hform Hrest].
    split; [constructor; exact Hform|exact Hrest]. }
  apply (scan_atom_form (c :: r) v rest Hs H).
Qed.

End Form.

(** ** The codecs *)

Lemma codecs_emit_inv c r s :
  Codecs.emit c r = Some s -> exists s', r = Some s' /\ s = c :: s'.
Proof.
  unfold Codecs.emit. destruct r as [s'|]; [|discriminate].
  intros H; inversion H; subst. eauto.
Qed.

Lemma is_cont_bound b : Codecs.is_cont b = true -> 128 <= b <= 191.
Proof.
  unfold Codecs.is_cont. intros H. apply andb_true_iff in H as [H1 H2].
  apply N.leb_le in H1, H2. lia.
Qed.

Lemma decode_utf_8_range n : forall b s,
  (List.length b <= n)%nat -> Codecs.decode_utf_8 b = Some s ->
  in_range s = true.
Proof.
  induction n as [|n IH]; intros b s Hn H.
  { destruct b; [inversion H; reflexivity|simpl in Hn; lia]. }
  assert (Hstep : forall c t s',
    (List.length t <= n)%nat -> c < 1114112 ->
    Codecs.emit c (Codecs.decode_utf_8 t) = Some s' -> in_range s' = true).
  { intros c t s' Ht Hc He. apply codecs_emit_inv in He as (s'' & He & ->).
    apply in_range_cons. split; [exact Hc|exact (IH t s'' Ht He)]. }
  destruct b as [|b0 r0]; [inversion H; reflexivity|].
  cbn [Codecs.decode_utf_8] in H. simpl in Hn.
  destruct (N.ltb_spec b0 128) as [H128|H128].
  { revert H. apply Hstep; lia. }
  destruct (b0 <? 194); [discriminate|].
  destruct (N.ltb_spec b0 224) as [H224|H224].
  { destruct r0 as [|b1 r1]; [discriminate|]. cbv match in H.
    destruct (Codecs.is_cont b1) eqn:H1; [|discriminate].
    apply is_cont_bound in H1. simpl in Hn. revert H. apply Hstep; lia. }
  destruct (N.ltb_spec b0 240) as [H240|H240].
  { destruct r0 as [|b1 [|b2 r2]]; try discriminate. cbv match zeta in H.
    destruct (Codecs.is_cont b1 && Codecs.is_cont b2
              && (2048 <=? (b0 - 224) * 4096 + (b1 - 128) * 64 + (b2 - 128)))
      eqn:Hc; [|discriminate].
    apply andb_true_iff in Hc as [Hc _]. apply andb_true_iff in Hc as [H1 H2].
    apply is_cont_bound in H1, H2. simpl in Hn. revert H. apply Hstep; lia. }
  destruct (b0 <? 245); [|discriminate].
  destruct r0 as [|b1 [|b2 [|b3 r3]]]; try discriminate. cbv match zeta in H.
  match type of H with
  | (if ?c then _ else _) = _ => destruct c eqn:Hc; [|discriminate]
  end.
  apply andb_true_iff in Hc as [_ Hc]. apply N.ltb_lt in Hc.
  simpl in Hn. revert H. apply Hstep; [lia|exact Hc].
Qed.

Lemma units_16_bound little n : forall b u,
  (List.length b <= n)%nat ->
  byte_values b -> Codecs.units_16 little b = Some u ->
  Forall (fun x => x < 65536) u.
Proof.
  induction n as [|n IH]; intros b u Hn Hb H.
  { destruct b; [inversion H; constructor|simpl in Hn; lia]. }
  destruct b as [|x [|y r]]; cbn [Codecs.units_16] in H.
  - inversion H; constructor.
  - discriminate.
  - apply codecs_emit_inv in H as (u' & H & ->).
    inversion Hb as [|? ? Hx Hb']; subst.
    inversion Hb' as [|? ? Hy Hr]; subst. simpl in Hn.
    constructor; [destruct little; lia|apply (IH r u'); [lia|exact Hr|exact H]].
Qed.

Lemma join_16_range n : forall u,
  (List.length u <= n)%nat -> Forall (fun x => x < 65536) u ->
  in_range (Codecs.join_16 u) = true.
Proof.
  induction n as [|n IH]; intros u Hn Hu.
  { destruct u; [reflexivity|simpl in Hn; lia]. }
  destruct u as [|h r]; [reflexivity|]. cbn [Codecs.join_16].
  inversion Hu as [|? ? Hh Hr]; subst. simpl in Hn.
  destruct r as [|l r'].
  { apply in_range_cons. split; [lia|reflexivity]. }
  inversion Hr as [|? ? Hl Hr']; subst. simpl in Hn.
  destruct (Codecs.is_high h && Codecs.is_low l) eqn:Hc.
  - apply andb_true_iff in Hc as [Hhi Hlo].
    unfold Codecs.is_high in Hhi. unfold Codecs.is_low in Hlo.
    apply andb_true_iff in Hhi as [Hh1 Hh2], Hlo as [Hl1 Hl2].
    apply N.leb_le in Hh1, Hh2, Hl1, Hl2.
    apply in_range_cons. split; [lia|apply IH; [lia|exact Hr']].
  - apply in_range_cons. split; [lia|apply IH; [simpl; lia|exact Hr]].
Qed.

Lemma decode_utf_16_range little b s :
  byte_values b -> Codecs.decode_utf_16 little b = Some s ->
  in_range s = true.
Proof.
  unfold Codecs.decode_utf_16. intros Hb H.
  destruct (Codecs.units_16 little b) as [u|] eqn:Hu; [|discriminate].
  inversion H; subst.
  apply (join_16_range _ u (le_n _)),
    (units_16_bound little _ b u (le_n _) Hb Hu).
Qed.

Lemma decode_utf_32_range little n : forall b s,
  (List.length b <= n)%nat ->
  Codecs.decode_utf_32 little b = Some s -> in_range s = true.
Proof.
  induction n as [|n IH]; intros b s Hn H.
  { destruct b; [inversion H; reflexivity|simpl in Hn; lia]. }
  destruct b as [|w [|x [|y [|z r]]]]; cbn [Codecs.decode_utf_32] in H;
    try discriminate.
  - inversion H; reflexivity.
  - cbv zeta in H.
    match type of H with
    | (if ?c then _ else _) = _ => destruct c eqn:Hc; [|discriminate]
    end.
    apply N.ltb_lt in Hc. apply codecs_emit_inv in H as (s' & H & ->).
    simpl in Hn.
    apply in_range_cons. split; [exact Hc|apply (IH r s'); [lia|exact H]].
Qed.

Lemma byte_values_skipn n b : byte_values b -> byte_values (skipn n b).
Proof.
  unfold byte_values. revert b; induction n as [|n IH]; intros b Hb;
    [exact Hb|].
  destruct b as [|x b]; [constructor|]. inversion Hb; subst. simpl. auto.
Qed.

Lemma decode_with_range e b s :
  byte_values b -> Codecs.decode_with e b = Some s -> in_range s = true.
Proof.
  intros Hb. pose proof (decode_utf_8_range (List.length b) b s (le_n _)) as H8.
  destruct e; cbn [Codecs.decode_with];
    repeat match goal with
           | |- (if ?c then _ else _) = _ -> _ => destruct c
           end;
    first [exact H8
          |apply (decode_utf_8_range _ _ s (le_n _))
          |apply decode_utf_16_range; try apply byte_values_skipn; exact Hb
          |apply (decode_utf_32_range _ _ _ s (le_n _))].
Qed.

(** The decoded text of a buffer consists of code points. *)
Lemma decode_range b s : Codecs.decode b = Some s -> in_range s = true.
Proof.
  unfold Codecs.decode. apply decode_with_range.
  unfold byte_values. apply Forall_forall. intros x Hx.
  apply in_map_iff in Hx as (y & <- & _). apply Byte.to_N_bounded.
Qed.

(** What [json.load] returns is in parsed form. *)
Theorem loads_form pf b v :
  float_parser_ok pf -> Decoder.loads pf b = Ok v -> parsed_form pf v.
Proof.
  intros Hok. unfold Decoder.loads.
  destruct (Codecs.decode b) as [s|] eqn:Hs; [|discriminate].
  unfold Decoder.decode.
  destruct (scan_once pf (S (List.length s)) (skip_ws s)) as [[v' rest]|]
    eqn:Hv; [|discriminate].
  destruct (skip_ws rest); [|discriminate].
  intros H; inversion H; subst.
  apply (scan_once_form pf Hok (S (List.length s)) (skip_ws s) v rest);
    [apply skip_ws_range, (decode_range b), Hs|exact Hv].
Qed.

(** Parsing what was serialized gives the document back, for every parsed
    document with no high surrogate right before a low one. *)
Theorem loads_dumps_loads pf b v :
  float_parser_ok pf -> Decoder.loads pf b = Ok v ->
  no_surrogate_pair v = true ->
  Decoder.loads pf (file_bytes (dumps v)) = Ok v.
Proof.
  intros Hok Hb Hpair. apply loads_dumps; [|exact Hpair].
  exact (loads_form pf b v Hok Hb).
Qed.

(** * The bounds of the scanner *)

Lemma skip_ws_length s : (List.length (skip_ws s) <= List.length s)%nat.
Proof.
  induction s as [|c s IH]; [simpl; lia|]. cbn [skip_ws].
  destruct (is_ws c); simpl; lia.
Qed.

Lemma skip_ws_cons_length s c t :
  skip_ws s = c :: t -> (List.length t < List.length s)%nat.
Proof.
  intros H. pose proof (skip_ws_length s) as Hl. rewrite H in Hl.
  simpl in Hl. lia.
Qed.

Lemma scanstring_consumes n : forall s k rest,
  (List.length s <= n)%nat -> scanstring s = Some (k, rest) ->
  (List.length rest < List.length s)%nat.
Proof.
  induction n as [|n IH]; intros s k rest Hn H.
  { destruct s; [discriminate|simpl in Hn; lia]. }
  assert (Hstep : forall c t k' rest',
    (List.length t <= n)%nat ->
    emit c (scanstring t) = Some (k', rest') ->
    (List.length rest' < List.length t)%nat).
  { intros c t k' rest' Ht He.
    apply emit_inv in He as (k'' & He & ->). exact (IH t k'' rest' Ht He). }
  destruct s as [|c s1]; [discriminate|].
  cbn [scanstring] in H. simpl in Hn.
  destruct (c =? 34).
  { inversion H; subst. simpl. lia. }
  destruct (c =? 92).
  - destruct s1 as [|esc s2]; [discriminate|]. cbv match in H. simpl in Hn.
    destruct (esc =? 117).
    + destruct s2 as [|h1 [|h2 [|h3 [|h4 s6]]]]; try discriminate.
      cbv match in H. simpl in Hn.
      destruct (decode_uXXXX h1 h2 h3 h4) as [uni|]; [|discriminate].
      assert (Hplain : forall k' rest',
        emit uni (scanstring s6) = Some (k', rest') ->
        (List.length rest'
         < List.length (c :: esc :: h1 :: h2 :: h3 :: h4 :: s6))%nat).
      { intros k' rest' He. apply Hstep in He; [|lia]. simpl. lia. }
      destruct s6 as [|b [|u s8]]; try (apply (Hplain k); exact H).
      cbv match in H.
      destruct (Codecs.is_high uni && (b =? 92) && (u =? 117));
        [|apply (Hplain k); exact H].
      destruct s8 as [|g1 [|g2 [|g3 [|g4 s12]]]]; try discriminate.
      cbv match in H.
      destruct (decode_uXXXX g1 g2 g3 g4) as [uni2|]; [|discriminate].
      destruct (Codecs.is_low uni2); [|apply (Hplain k); exact H].
      simpl in Hn. apply Hstep in H; [|lia]. simpl. lia.
    + destruct (BACKSLASH esc) as [char|]; [|discriminate].
      apply Hstep in H; [|lia]. simpl. lia.
  - destruct (c <=? 31); [discriminate|].
    apply Hstep in H; [|lia]. simpl. lia.
Qed.

Lemma integer_form_length i : integer_form i -> (0 < List.length i)%nat.
Proof.
  intros (sign & body & -> & _ & Hbody). rewrite length_app.
  destruct Hbody as [->|(c & ds & -> & _)]; simpl; lia.
Qed.

Lemma scan_atom_consumes pf : consuming (scan_atom pf).
Proof.
  intros s v rest. unfold scan_atom.
  assert (Hp : forall p r, strip_prefix p s = Some r -> p <> [] ->
                 (List.length r < List.length s)%nat).
  { intros p r Hr Hne. apply strip_prefix_split in Hr. subst.
    rewrite length_app. destruct p; [congruence|simpl; lia]. }
  destruct (strip_prefix (pystr "null") s) as [r|] eqn:H1.
  { intros H; inversion H; subst. apply (Hp _ _ H1). discriminate. }
  destruct (strip_prefix (pystr "true") s) as [r|] eqn:H2.
  { intros H; inversion H; subst. apply (Hp _ _ H2). discriminate. }
  destruct (strip_prefix (pystr "false") s) as [r|] eqn:H3.
  { intros H; inversion H; subst. apply (Hp _ _ H3). discriminate. }
  destruct (match_number s) as [[[[i f] e] r]|] eqn:Hm.
  { destruct (match_number_spec _ _ _ _ _ Hm) as (-> & Hi & _).
    apply integer_form_length in Hi.
    assert (Hr : (List.length r < List.length (i ++ f ++ e ++ r))%nat)
      by (rewrite !length_app; lia).
    destruct f, e; intros H; inversion H; subst; exact Hr. }
  destruct (strip_prefix (pystr "NaN") s) as [r|] eqn:H4.
  { intros H; inversion H; subst. apply (Hp _ _ H4). discriminate. }
  destruct (strip_prefix (pystr "Infinity") s) as [r|] eqn:H5.
  { intros H; inversion H; subst. apply (Hp _ _ H5). discriminate. }
  destruct (strip_prefix (pystr "-Infinity") s) as [r|] eqn:H6; [|discriminate].
  intros H; inversion H; subst. apply (Hp _ _ H6). discriminate.
Qed.

Lemma array_items_consumes scan n :
  consuming scan ->
  forall s vs rest,
    array_items scan n s = Some (vs, rest) ->
    (List.length rest < List.length s)%nat.
Proof.
  intros Hscan. induction n as [|n IH]; intros s vs rest H; [discriminate|].
  cbn [array_items] in H.
  destruct (scan s) as [[v s1]|] eqn:Hv; [|discriminate].
  apply Hscan in Hv.
  destruct (skip_ws s1) as [|c s2] eqn:Hw; [discriminate|].
  apply skip_ws_cons_length in Hw.
  destruct (c =? 93). { inversion H; subst. lia. }
  destruct (c =? 44); [|discriminate].
  destruct (array_items scan n (skip_ws s2)) as [[vs' rest']|] eqn:Hrec;
    [|discriminate].
  inversion H; subst. apply IH in Hrec.
  pose proof (skip_ws_length s2). lia.
Qed.

Lemma object_pairs_consumes scan n :
  consuming scan ->
  forall s ps rest,
    object_pairs scan n s = Some (ps, rest) ->
    (List.length rest < List.length s)%nat.
Proof.
  intros Hscan. induction n as [|n IH]; intros s ps rest H; [discriminate|].
  cbn [object_pairs] in H.
  destruct (scanstring s) as [[key s1]|] eqn:Hk; [|discriminate].
  apply (scanstring_consumes _ s key s1 (le_n _)) in Hk.
  destruct (skip_ws s1) as [|c s2] eqn:Hw; [discriminate|].
  apply skip_ws_cons_length in Hw.
  destruct (c =? 58); [|discriminate].
  destruct (scan (skip_ws s2)) as [[v s3]|] eqn:Hv; [|discriminate].
  apply Hscan in Hv. pose proof (skip_ws_length s2).
  destruct (skip_ws s3) as [|c' s4] eqn:Hw3; [discriminate|].
  apply skip_ws_cons_length in Hw3.
  destruct (c' =? 125). { inversion H; subst. lia. }
  destruct (c' =? 44); [|discriminate].
  destruct (skip_ws s4) as [|q s5] eqn:Hw4; [discriminate|].
  apply skip_ws_cons_length in Hw4.
  destruct (q =? 34); [|discriminate].
  destruct (object_pairs scan n s5) as [[ps' rest']|] eqn:Hrec;
    [|discriminate].
  inversion H; subst. apply IH in Hrec. lia.
Qed.

Lemma scan_once_consumes pf d : consuming (scan_once pf d).
Proof.
  induction d as [|d IH]; intros s v rest H; [discriminate|].
  cbn [scan_once] in H. destruct s as [|c r]; [discriminate|].
  destruct (c =? 34).
  { destruct (scanstring r) as [[k rest']|] eqn:Hk; [|discriminate].
    inversion H; subst.
    apply (scanstring_consumes _ r k rest (le_n _)) in Hk. simpl. lia. }
  destruct (c =? 123).
  { unfold JSONObject in H.
    destruct (skip_ws r) as [|c' r'] eqn:Hw; [discriminate|].
    apply skip_ws_cons_length in Hw.
    destruct (c' =? 125). { inversion H; subst. simpl. lia. }
    destruct (c' =? 34); [|discriminate].
    destruct (object_pairs (scan_once pf d) (S (List.length r)) r')
      as [[ps rest']|] eqn:Hps; [|discriminate].
    inversion H; subst. apply (object_pairs_consumes _ _ IH) in Hps.
    simpl. lia. }
  destruct (c =? 91).
  { unfold JSONArray in H.
    destruct (skip_ws r) as [|c' r'] eqn:Hw; [discriminate|].
    pose proof (skip_ws_length r) as Hl. rewrite Hw in Hl.
    destruct (c' =? 93). { inversion H; subst. simpl in *. lia. }
    destruct (array_items (scan_once pf d) (S (List.length r)) (c' :: r'))
      as [[vs rest']|] eqn:Hvs; [|discriminate].
    inversion H; subst. apply (array_items_consumes _ _ IH) in Hvs.
    simpl in *. lia. }
  exact (scan_atom_consumes pf (c :: r) v rest H).
Qed.

(** The loops do not depend on a bound above the length of the text. *)
Lemma array_items_bound scan :
  consuming scan ->
  forall n n' s,
    (List.length s < n)%nat -> (List.length s < n')%nat ->
    array_items scan n s = array_items scan n' s.
Proof.
  intros Hscan. induction n as [|n IH]; intros n' s Hn Hn'; [lia|].
  destruct n' as [|n']; [lia|]. cbn [array_items].
  destruct (scan s) as [[v s1]|] eqn:Hv; [|reflexivity].
  apply Hscan in Hv.
  destruct (skip_ws s1) as [|c s2] eqn:Hw; [reflexivity|].
  apply skip_ws_cons_length in Hw. pose proof (skip_ws_length s2).
  destruct (c =? 93); [reflexivity|].
  destruct (c =? 44); [|reflexivity].
  rewrite (IH n' (skip_ws s2)) by lia. reflexivity.
Qed.

Lemma object_pairs_bound scan :
  consuming scan ->
  forall n n' s,
    (List.length s < n)%nat -> (List.length s < n')%nat ->
    object_pairs scan n s = object_pairs scan n' s.
Proof.
  intros Hscan. induction n as [|n IH]; intros n' s Hn Hn'; [lia|].
  destruct n' as [|n']; [lia|]. cbn [object_pairs].
  destruct (scanstring s) as [[key s1]|] eqn:Hk; [|reflexivity].
  apply (scanstring_consumes _ s key s1 (le_n _)) in Hk.
  destruct (skip_ws s1) as [|c s2] eqn:Hw; [reflexivity|].
  apply skip_ws_cons_length in Hw. pose proof (skip_ws_length s2).
  destruct (c =? 58); [|reflexivity].
  destruct (scan (skip_ws s2)) as [[v s3]|] eqn:Hv; [|reflexivity].
  apply Hscan in Hv.
  destruct (skip_ws s3) as [|c' s4] eqn:Hw3; [reflexivity|].
  apply skip_ws_cons_length in Hw3.
  destruct (c' =? 125); [reflexivity|].
  destruct (c' =? 44); [|reflexivity].
  destruct (skip_ws s4) as [|q s5] eqn:Hw4; [reflexivity|].
  apply skip_ws_cons_length in Hw4.
  destruct (q =? 34); [|reflexivity].
  rewrite (IH n' s5) by lia. reflexivity.
Qed.

(** The loops call the scanning function on shorter texts only. *)
Lemma array_items_agree scan1 scan2 n :
  consuming scan1 ->
  forall s, agree (List.length s) scan1 scan2 ->
    array_items scan1 n s = array_items scan2 n s.
Proof.
  intros Hscan. induction n as [|n IH]; intros s Hagree; [reflexivity|].
  cbn [array_items]. rewrite <- (Hagree s (le_n _)).
  destruct (scan1 s) as [[v s1]|] eqn:Hv; [|reflexivity].
  apply Hscan in Hv.
  destruct (skip_ws s1) as [|c s2] eqn:Hw; [reflexivity|].
  apply skip_ws_cons_length in Hw. pose proof (skip_ws_length s2).
  destruct (c =? 93); [reflexivity|].
  destruct (c =? 44); [|reflexivity].
  rewrite (IH (skip_ws s2)); [reflexivity|].
  intros t Ht. apply Hagree. lia.
Qed.

Lemma object_pairs_agree scan1 scan2 n :
  consuming scan1 ->
  forall s, agree (List.length s) scan1 scan2 ->
    object_pairs scan1 n s = object_pairs scan2 n s.
Proof.
  intros Hscan. induction n as [|n IH]; intros s Hagree; [reflexivity|].
  cbn [object_pairs].
  destruct (scanstring s) as [[key s1]|] eqn:Hk; [|reflexivity].
  apply (scanstring_consumes _ s key s1 (le_n _)) in Hk.
  destruct (skip_ws s1) as [|c s2] eqn:Hw; [reflexivity|].
  apply skip_ws_cons_length in Hw. pose proof (skip_ws_length s2).
  destruct (c =? 58); [|reflexivity].
  rewrite <- (Hagree (skip_ws s2)) by lia.
  destruct (scan1 (skip_ws s2)) as [[v s3]|] eqn:Hv; [|reflexivity].
  apply Hscan in Hv.
  destruct (skip_ws s3) as [|c' s4] eqn:Hw3; [reflexivity|].
  apply skip_ws_cons_length in Hw3.
  destruct (c' =? 125); [reflexivity|].
  destruct (c' =? 44); [|reflexivity].
  destruct (skip_ws s4) as [|q s5] eqn:Hw4; [reflexivity|].
  apply skip_ws_cons_length in Hw4.
  destruct (q =? 34); [|reflexivity].
  rewrite (IH s5); [reflexivity|].
  intros t Ht. apply Hagree. lia.
Qed.

(** The scanner does not depend on a depth above the length of the text:
    the bound of [decode] is never what makes it fail. *)
Theorem scan_once_bound pf : forall d d' s,
  (List.length s < d)%nat -> (List.length s < d')%nat ->
  scan_once pf d s = scan_once pf d' s.
Proof.
  induction d as [|d IH]; intros d' s Hd Hd'; [lia|].
  destruct d' as [|d']; [lia|]. cbn [scan_once].
  destruct s as [|c r]; [reflexivity|]. simpl in Hd, Hd'.
  destruct (c =? 34); [reflexivity|].
  destruct (c =? 123).
  { unfold JSONObject.
    destruct (skip_ws r) as [|c' r'] eqn:Hw; [reflexivity|].
    apply skip_ws_cons_length in Hw.
    destruct (c' =? 125); [reflexivity|].
    destruct (c' =? 34); [|reflexivity].
    rewrite (object_pairs_agree (scan_once pf d) (scan_once pf d'));
      [reflexivity|apply scan_once_consumes|].
    intros t Ht. apply IH; lia. }
  destruct (c =? 91); [|reflexivity].
  unfold JSONArray.
  destruct (skip_ws r) as [|c' r'] eqn:Hw; [reflexivity|].
  pose proof (skip_ws_length r) as Hl. rewrite Hw in Hl.
  destruct (c' =? 93); [reflexivity|].
  rewrite (array_items_agree (scan_once pf d) (scan_once pf d'));
    [reflexivity|apply scan_once_consumes|].
  intros t Ht. apply IH; lia.
Qed.

(** * Round trips of the state document *)

(** C2, as the code has it.  For a document that [json.load] returned and
    in which no string has a high surrogate right before a low one,
    serializing it with [json.dump] and parsing the bytes with [json.load]
    gives the document back. *)
Theorem parse_serialize_roundtrip pf data d w :
  float_parser_ok pf ->
  fst (json_load pf data w) = Ok d ->
  no_surrogate_pair d = true ->
  bindM (json_dump d) (json_load pf) w = (Ok d, w).
Proof.
  intros Hok Hparsed Hpair. unfold json_load, lift in Hparsed. simpl in Hparsed.
  unfold bindM, json_dump, ret, json_load, lift.
  rewrite (loads_dumps_loads pf data d Hok Hparsed Hpair). reflexivity.
Qed.

Lemma parse_serialize_roundtrip_witness :
  bindM (json_dump (VDict scenario_fields)) (json_load float_as_written)
    empty_world
  = (Ok (VDict scenario_fields), empty_world).
Proof.
  apply (parse_serialize_roundtrip float_as_written scenario
           (VDict scenario_fields) empty_world).
  - exact float_as_written_ok.
  - vm_compute. reflexivity.
  - vm_compute. reflexivity.
Defined.

(** A parsed document whose string is a high surrogate followed by a low
    one comes back with the two joined into one character. *)
Lemma parse_serialize_counterexample :
  fst (json_load float_as_written surrogate_output empty_world)
  = Ok (VDict [(pystr "outputs",
                VDict [(pystr "icon",
                        VDict [(pystr "value", VStr [55357; 56832])])])])
  /\ fst (bindM
            (json_dump
               (VDict [(pystr "outputs",
                        VDict [(pystr "icon",
                                VDict [(pystr "value",
                                        VStr [55357; 56832])])])]))
            (json_load float_as_written) empty_world)
     = Ok (VDict [(pystr "outputs",
                   VDict [(pystr "icon",
                           VDict [(pystr "value", VStr [128512])])])]).
Proof. vm_compute. split; reflexivity. Qed.

Lemma lookup_replace os bucket key data :
  Blob.lookup (Blob.replace os bucket key data) bucket key = Some data.
Proof.
  induction os as [|[[b k] d] os IH]; simpl.
  - rewrite !str_eqb_refl. reflexivity.
  - destruct (str_eqb b bucket && str_eqb k key) eqn:H; simpl; rewrite H;
      [reflexivity|exact IH].
Qed.




(** After a successful upload, a download that the store does not fail
    returns the document. *)
Corollary download_after_upload pf self state_data data w :
  float_parser_ok pf ->
  Decoder.loads pf data = Ok (memory w state_data) ->
  no_surrogate_pair (memory w state_data) = true ->
  Blob.put_fault (s3 w) = None -> Blob.get_fault (s3 w) = None ->
  fst (download_state pf self (snd (upload_state self state_data w)))
  = Ok (memory w state_data).
Proof.
  intros Hok Hparsed Hpair Hput Hget.
  rewrite download_state_eq.
  unfold upload_state, try_except, bindM, deref, json_dump, ret, upload_file,
    Blob.put, Blob.get.
  simpl. rewrite Hput. simpl. rewrite Hget, lookup_replace.
  rewrite (loads_dumps_loads pf data _ Hok Hparsed Hpair). reflexivity.
Qed.

(** * The queries on other documents *)

Lemma download_state_store pf self w w' :
  s3 w = s3 w' ->
  fst (download_state pf self w) = fst (download_state pf self w').
Proof.
  intros Hs. rewrite !download_state_eq, Hs.
  destruct (Blob.get _ _ _) as [data|e]; [|reflexivity].
  destruct (Decoder.loads _ _); reflexivity.
Qed.

Lemma get_resources_store pf self w w' :
  s3 w = s3 w' ->
  fst (get_resources pf self w) = fst (get_resources pf self w').
Proof.
  intros Hs. rewrite !get_resources_eq, (download_state_store pf self w w' Hs).
  reflexivity.
Qed.

Lemma download_state_only_logged pf self w :
  only_logged w (snd (download_state pf self w)).
Proof.
  rewrite download_state_eq. unfold only_logged.
  destruct (Blob.get _ _ _) as [data|e];
    [destruct (Decoder.loads _ _)|]; simpl; eauto.
Qed.

Lemma get_resources_only_logged pf self w :
  only_logged w (snd (get_resources pf self w)).
Proof.
  pose proof (download_state_only_logged pf self w) as H.
  unfold get_resources, bindM.
  destruct (download_state pf self w) as [[sd|e] w']; simpl in *; [|exact H].
  destruct (truthy sd); exact H.
Qed.

(** X1.  A downloaded document that is falsy ([null], [false], a zero, an
    empty string, list or mapping) counts as no document: [get_resources]
    and [get_resource_by_type] return the empty list,
    [get_resource_by_name] returns [None] and [list_outputs] the empty
    mapping. *)
Theorem queries_on_falsy_document pf self w state_data
    resource_type resource_name :
  fst (download_state pf self w) = Ok state_data ->
  truthy state_data = false ->
  fst (get_resources pf self w) = Ok []
  /\ fst (get_resource_by_type pf self resource_type w) = Ok []
  /\ fst (get_resource_by_name pf self resource_name w) = Ok VNone
  /\ fst (list_outputs pf self w) = Ok (VDict []).
Proof.
  intros Hdown Hfalse.
  assert (Hrs : fst (get_resources pf self w) = Ok [])
    by (rewrite get_resources_eq, Hdown, Hfalse; reflexivity).
  split; [exact Hrs|].
  rewrite get_resource_by_type_eq, get_resource_by_name_eq, Hrs,
    list_outputs_eq, Hdown, Hfalse.
  repeat split.
Qed.

Lemma queries_on_falsy_document_witness :
  fst (get_resources float_as_written manager (world_with (json_text "[]")))
  = Ok []
  /\ fst (get_resource_by_type float_as_written manager (pystr "bucket")
            (world_with (json_text "[]"))) = Ok []
  /\ fst (get_resource_by_name float_as_written manager (pystr "logs")
            (world_with (json_text "[]"))) = Ok VNone
  /\ fst (list_outputs float_as_written manager
            (world_with (json_text "[]"))) = Ok (VDict []).
Proof.
  apply (queries_on_falsy_document float_as_written manager
           (world_with (json_text "[]")) (VList []));
    vm_compute; reflexivity.
Defined.

(** X2.  A downloaded document that is truthy and is not a mapping (a
    non-empty list or string, a number, [true]) makes each of the four
    queries raise [AttributeError]: nothing catches the failure of
    [state_data.get]. *)
Theorem queries_on_non_mapping pf self w state_data
    resource_type resource_name :
  fst (download_state pf self w) = Ok state_data ->
  truthy state_data = true ->
  Spec.is_dict state_data = false ->
  fst (get_resources pf self w) = Raise AttributeError
  /\ fst (get_resource_by_type pf self resource_type w) = Raise AttributeError
  /\ fst (get_resource_by_name pf self resource_name w) = Raise AttributeError
  /\ fst (list_outputs pf self w) = Raise AttributeError.
Proof.
  intros Hdown Htrue Hdict.
  assert (Hrs : fst (get_resources pf self w) = Raise AttributeError).
  { rewrite get_resources_eq, Hdown, Htrue.
    destruct state_data; try discriminate; reflexivity. }
  split; [exact Hrs|].
  rewrite get_resource_by_type_eq, get_resource_by_name_eq, Hrs,
    list_outputs_eq, Hdown, Htrue.
  repeat split. destruct state_data; try discriminate; reflexivity.
Qed.

Lemma queries_on_non_mapping_witness :
  fst (get_resources float_as_written manager (world_with (json_text "[1]")))
  = Raise AttributeError
  /\ fst (get_resource_by_type float_as_written manager (pystr "bucket")
            (world_with (json_text "[1]"))) = Raise AttributeError
  /\ fst (get_resource_by_name float_as_written manager (pystr "logs")
            (world_with (json_text "[1]"))) = Raise AttributeError
  /\ fst (list_outputs float_as_written manager
            (world_with (json_text "[1]"))) = Raise AttributeError.
Proof.
  apply (queries_on_non_mapping float_as_written manager
           (world_with (json_text "[1]")) (VList [VInt 1]));
    vm_compute; reflexivity.
Defined.

Lemma for_each_first_raises body x items e :
  body x = Raise e -> for_each body (x :: items) = Raise e.
Proof. intros H. simpl. rewrite H. reflexivity. Qed.

Lemma block_entries_str s : block_entries (VStr s) = Raise AttributeError.
Proof. reflexivity. Qed.

(** X3.  What [get_resources] does with the value stored under
    [resources]: a default only stands for a missing key, so [null], a
    boolean or a number raises [TypeError]; a non-empty string or mapping
    raises [AttributeError], its items being strings; an empty one gives
    the empty list; and a list is visited block by block. *)
Theorem resources_not_a_list pf self w d resources :
  fst (download_state pf self w) = Ok (VDict d) ->
  dict_lookup d (pystr "resources") = Some resources ->
  fst (get_resources pf self w)
  = match resources with
    | VNone | VBool _ | VInt _ | VFloat _ => Raise TypeError
    | VStr [] | VDict [] => Ok []
    | VStr (_ :: _) | VDict (_ :: _) => Raise AttributeError
    | VList blocks => for_each block_entries blocks
    end.
Proof.
  intros Hdown Hres.
  rewrite get_resources_eq, Hdown, (truthy_dict _ _ _ Hres).
  unfold flatten, py_get. rewrite Hres.
  destruct resources as [ | | | |[|c s]|l|[|[k v] fields]]; reflexivity.
Qed.

Lemma resources_not_a_list_witness :
  fst (get_resources float_as_written manager
         (world_with (json_text "{'resources':null}"))) = Raise TypeError.
Proof.
  apply (resources_not_a_list float_as_written manager
           (world_with (json_text "{'resources':null}"))
           [(pystr "resources", VNone)] VNone);
    vm_compute; reflexivity.
Defined.

Lemma for_each_app body xs ys :
  for_each body (xs ++ ys)
  = (a <- for_each body xs ;; b <- for_each body ys ;; Ok (a ++ b))%py.
Proof.
  induction xs as [|x xs IH]; simpl.
  - destruct (for_each body ys); reflexivity.
  - destruct (body x) as [l|e]; simpl; [|reflexivity].
    rewrite IH. destruct (for_each body xs) as [a|e]; simpl; [|reflexivity].
    destruct (for_each body ys) as [b|e]; simpl; [|reflexivity].
    rewrite List.app_assoc. reflexivity.
Qed.

(** The first instance that is not a mapping stops the inner loop. *)
Lemma for_each_instances_not_mapping block items :
  Spec.is_dict block = true ->
  Spec.has_identity block = true ->
  forallb Spec.is_dict items = false ->
  for_each (flat_resource block) items = Raise AttributeError.
Proof.
  intros Hd Hid. destruct block as [| | | | | |bd]; try discriminate.
  destruct (field_identity bd Hid) as (t & n & p & Ht & Hn & Hp).
  induction items as [|i items IH]; simpl; [discriminate|].
  intros Hall.
  destruct (Spec.is_dict i) eqn:Hi.
  - simpl in Hall. specialize (IH Hall). rewrite IH.
    destruct i as [| | | | | |a]; try discriminate.
    unfold flat_resource, py_getitem, py_get. rewrite Ht, Hn, Hp. simpl.
    destruct (dict_lookup a (pystr "attributes"));
      destruct (dict_lookup bd (pystr "depends_on")); reflexivity.
  - unfold flat_resource at 1, py_getitem. rewrite Ht, Hn, Hp. simpl.
    destruct i; try discriminate; reflexivity.
Qed.

(** X4.  In a document whose blocks before [fields] are well formed, the
    value under [instances] of the block [fields] stops [get_resources]:
    [null], a boolean or a number raises [TypeError]; and when the block has
    its [type], [name] and [provider], an instance that is not a mapping
    (an item of a list, a character of a string, a key of a mapping) raises
    [AttributeError]. *)
Theorem instances_not_mappings pf self w d before fields after instances :
  fst (download_state pf self w) = Ok (VDict d) ->
  dict_lookup d (pystr "resources")
  = Some (VList (before ++ VDict fields :: after)) ->
  forallb Spec.block_ok before = true ->
  dict_lookup fields (pystr "instances") = Some instances ->
  match instances with
  | VNone | VBool _ | VInt _ | VFloat _ =>
      fst (get_resources pf self w) = Raise TypeError
  | VList items =>
      Spec.has_identity (VDict fields) = true ->
      forallb Spec.is_dict items = false ->
      fst (get_resources pf self w) = Raise AttributeError
  | VStr s =>
      Spec.has_identity (VDict fields) = true -> s <> [] ->
      fst (get_resources pf self w) = Raise AttributeError
  | VDict keys =>
      Spec.has_identity (VDict fields) = true -> keys <> [] ->
      fst (get_resources pf self w) = Raise AttributeError
  end.
Proof.
  intros Hdown Hres Hbefore Hinst.
  assert (Hrs : fst (get_resources pf self w)
    = (a <- Ok (Spec.list_all before) ;;
       b <- for_each block_entries (VDict fields :: after) ;;
       Ok (a ++ b))%py).
  { rewrite get_resources_eq, Hdown, (truthy_dict _ _ _ Hres).
    unfold flatten, py_get. rewrite Hres. simpl bind at 1. simpl py_iter.
    simpl bind at 1. rewrite for_each_app, (for_each_blocks before Hbefore).
    reflexivity. }
  rewrite Hrs. simpl bind at 1.
  assert (Hblock : forall e,
    block_entries (VDict fields) = Raise e ->
    (b <- for_each block_entries (VDict fields :: after) ;;
     Ok (Spec.list_all before ++ b))%py = Raise e).
  { intros e He. rewrite (for_each_first_raises _ _ _ _ He). reflexivity. }
  unfold block_entries, py_get in Hblock. rewrite Hinst in Hblock.
  simpl bind in Hblock.
  destruct instances as [ |b|z|r|s|items|keys];
    try (apply Hblock; reflexivity).
  - intros Hid Hs. apply Hblock. destruct s as [|c s]; [congruence|].
    simpl. unfold flat_resource at 1, py_getitem.
    destruct (field_identity fields Hid) as (t & n & p & Ht & Hn & Hp).
    rewrite Ht, Hn, Hp. reflexivity.
  - intros Hid Hall. apply Hblock. simpl.
    apply for_each_instances_not_mapping; [reflexivity|exact Hid|exact Hall].
  - intros Hid Hk. apply Hblock. destruct keys as [|[k v] keys]; [congruence|].
    simpl. unfold flat_resource at 1, py_getitem.
    destruct (field_identity fields Hid) as (t & n & p & Ht & Hn & Hp).
    rewrite Ht, Hn, Hp. reflexivity.
Qed.

Lemma instances_not_mappings_witness :
  fst (get_resources float_as_written manager
         (world_with
            (json_text "{'resources':[{'type':'t','name':'n','provider':'p','instances':null}]}")))
  = Raise TypeError.
Proof.
  apply (instances_not_mappings float_as_written manager
           (world_with
              (json_text "{'resources':[{'type':'t','name':'n','provider':'p','instances':null}]}"))
           [(pystr "resources",
             VList [VDict [(pystr "type", VStr (pystr "t"));
                           (pystr "name", VStr (pystr "n"));
                           (pystr "provider", VStr (pystr "p"));
                           (pystr "instances", VNone)]])]
           []
           [(pystr "type", VStr (pystr "t"));
            (pystr "name", VStr (pystr "n"));
            (pystr "provider", VStr (pystr "p"));
            (pystr "instances", VNone)]
           [] VNone);
    vm_compute; reflexivity.
Defined.

Lemma list_outputs_only_logged pf self w :
  only_logged w (snd (list_outputs pf self w)).
Proof.
  pose proof (download_state_only_logged pf self w) as H.
  unfold list_outputs, bindM.
  destruct (download_state pf self w) as [[sd|e] w']; simpl in *; [|exact H].
  destruct (truthy sd); exact H.
Qed.

(** What is computed from the result of [get_resources] changes nothing. *)
Lemma after_get_resources_only_logged {A} pf self
    (k : list value -> result A) w :
  only_logged w
    (snd (bindM (get_resources pf self) (fun rs => lift (k rs)) w)).
Proof.
  pose proof (get_resources_only_logged pf self w) as H.
  unfold bindM, lift.
  destruct (get_resources pf self w) as [[rs|e] w']; exact H.
Qed.

(** X5.  A query only reads: [download_state], [get_resources],
    [get_resource_by_type], [get_resource_by_name] and [list_outputs]
    leave the blob store and the objects of the caller as they are, and
    add exactly one record, that of their one download, to the log. *)
Theorem queries_only_log pf self resource_type resource_name w :
  only_logged w (snd (download_state pf self w))
  /\ only_logged w (snd (get_resources pf self w))
  /\ only_logged w (snd (get_resource_by_type pf self resource_type w))
  /\ only_logged w (snd (get_resource_by_name pf self resource_name w))
  /\ only_logged w (snd (list_outputs pf self w)).
Proof.
  split; [apply download_state_only_logged|].
  split; [apply get_resources_only_logged|].
  split; [apply after_get_resources_only_logged|].
  split; [apply after_get_resources_only_logged|].
  apply list_outputs_only_logged.
Qed.

(** * More on the queries *)

Lemma first_named_in resource_name rs r :
  Forall is_entry rs ->
  first_named resource_name rs = Ok r -> r <> VNone ->
  In r rs /\ Spec.field r (pystr "name") = Some (VStr resource_name).
Proof.
  induction 1 as [|x rs (t & n & p & st & dp & ->) _ IH]; simpl;
    [intros H; inversion H; congruence|].
  change (py_getitem
            (VDict [(pystr "type", t); (pystr "name", n);
                    (pystr "provider", p); (pystr "state", st);
                    (pystr "dependencies", dp)]) (pystr "name"))
    with (Ok n).
  simpl bind. destruct (py_eq_str n resource_name) eqn:Hn.
  - intros Hr _. inversion Hr; subst. split; [left; reflexivity|].
    destruct n; try discriminate. simpl in Hn. apply str_eqb_eq in Hn.
    subst. reflexivity.
  - intros Hr Hne. destruct (IH Hr Hne) as [Hin Hf]. split; [right|]; auto.
Qed.

(** X6.  A resource that [get_resource_by_name] finds has the name asked
    for, and a following [get_resource_by_type] for its type lists it. *)
Theorem found_by_name_listed_by_type pf self w resource_name r :
  fst (get_resource_by_name pf self resource_name w) = Ok r ->
  r <> VNone ->
  Spec.field r (pystr "name") = Some (VStr resource_name)
  /\ forall resource_type,
       Spec.field r (pystr "type") = Some (VStr resource_type) ->
       exists rs,
         fst (get_resource_by_type pf self resource_type
                (snd (get_resource_by_name pf self resource_name w)))
         = Ok rs
         /\ In r rs.
Proof.
  intros Hfound Hne. rewrite get_resource_by_name_eq in Hfound.
  destruct (fst (get_resources pf self w)) as [all|e] eqn:Hall;
    [|discriminate].
  pose proof (get_resources_entries pf self w all Hall) as Hentries.
  destruct (first_named_in resource_name all r Hentries Hfound Hne)
    as [Hin Hname].
  split; [exact Hname|]. intros resource_type Htype.
  exists (filter (Spec.has_type resource_type) all). split.
  - rewrite get_resource_by_type_eq.
    rewrite (get_resources_store pf self _ w), Hall.
    + apply select_type_filter, Hentries.
    + unfold get_resource_by_name, bindM, lift.
      pose proof (get_resources_only_logged pf self w) as (Hs & _).
      destruct (get_resources pf self w) as [[rs|e] w']; exact Hs.
  - apply filter_In. split; [exact Hin|].
    unfold Spec.has_type. rewrite Htype. simpl. apply str_eqb_refl.
Qed.

Lemma found_by_name_listed_by_type_witness :
  exists rs,
    fst (get_resource_by_type float_as_written manager (pystr "bucket")
           (snd (get_resource_by_name float_as_written manager (pystr "x")
                   (world_with shared_name))))
    = Ok rs
    /\ In (VDict [(pystr "type", VStr (pystr "bucket"));
                  (pystr "name", VStr (pystr "x"));
                  (pystr "provider", VStr (pystr "p"));
                  (pystr "state", VDict []);
                  (pystr "dependencies", VList [])]) rs.
Proof.
  apply (found_by_name_listed_by_type float_as_written manager
           (world_with shared_name) (pystr "x")
           (VDict [(pystr "type", VStr (pystr "bucket"));
                   (pystr "name", VStr (pystr "x"));
                   (pystr "provider", VStr (pystr "p"));
                   (pystr "state", VDict []);
                   (pystr "dependencies", VList [])])).
  - vm_compute. reflexivity.
  - discriminate.
  - reflexivity.
Defined.

(** * More on the uploads *)

Lemma upload_state_eq self state_data w :
  upload_state self state_data w
  = match Blob.put (s3 w) (bucket_name self) (state_key self)
            (file_bytes (dumps (memory w state_data))) with
    | Ok stored =>
        (Ok true,
         logged (mkWorld stored (memory w) (journal w))
                (INFO "Successfully uploaded Terraform state"))
    | Raise e =>
        (Ok false, logged w (ERROR "Error uploading Terraform state" e))
    end.
Proof.
  unfold upload_state, try_except, bindM, deref, json_dump, ret, upload_file.
  simpl. destruct (Blob.put _ _ _ _); reflexivity.
Qed.




(** X8.  What [upload_state] stores is ASCII: every byte of the object is
    between 1 and 127, whatever characters the strings of the document
    hold. *)
Theorem upload_state_stores_ascii pf self state_data data w :
  float_parser_ok pf ->
  Decoder.loads pf data = Ok (memory w state_data) ->
  Blob.put_fault (s3 w) = None ->
  exists stored,
    Blob.lookup (Blob.objects (s3 (snd (upload_state self state_data w))))
      (bucket_name self) (state_key self) = Some stored
    /\ Forall (fun b => 0 < Byte.to_N b < 128) stored.
Proof.
  intros Hok Hparsed Hput. rewrite upload_state_eq. unfold Blob.put.
  rewrite Hput. simpl.
  exists (file_bytes (dumps (memory w state_data))).
  split; [apply lookup_replace|].
  pose proof (iterencode_ascii pf _ (loads_form pf data _ Hok Hparsed) 0%nat)
    as Hascii.
  apply Forall_forall. intros b Hb.
  apply (in_map Byte.to_N) in Hb. unfold dumps in Hb.
  rewrite (file_bytes_values _ Hascii) in Hb.
  unfold ascii_text in Hascii. rewrite forallb_forall in Hascii.
  apply is_ascii_bounds, Hascii, Hb.
Qed.

Lemma upload_state_stores_ascii_witness :
  exists stored,
    Blob.lookup
      (Blob.objects
         (s3 (snd (upload_state manager 0
                     (world_holding (VDict scenario_fields))))))
      (bucket_name manager) (state_key manager) = Some stored
    /\ Forall (fun b => 0 < Byte.to_N b < 128) stored.
Proof.
  apply (upload_state_stores_ascii float_as_written manager 0 scenario
           (world_holding (VDict scenario_fields))).
  - exact float_as_written_ok.
  - vm_compute. reflexivity.
  - reflexivity.
Defined.

(** * Surrogate pairs in a round trip *)






Lemma join_16_cons h l r :
  Codecs.join_16 (h :: l :: r)
  = if Codecs.is_high h && Codecs.is_low l
    then (65536 + (h - 55296) * 1024 + (l - 56320)) :: Codecs.join_16 r
    else h :: Codecs.join_16 (l :: r).
Proof. reflexivity. Qed.





Lemma join_16_fixed n : forall s,
  (List.length s <= n)%nat -> no_pair s = true -> Codecs.join_16 s = s.
Proof.
  induction n as [|n IH]; intros s Hlen Hp.
  - destruct s; [reflexivity|simpl in Hlen; lia].
  - destruct s as [|h [|l r]]; try reflexivity.
    simpl in Hlen. cbn [no_pair] in Hp.
    apply andb_true_iff in Hp as [Hhl Hp]. apply negb_true_iff in Hhl.
    rewrite join_16_cons, Hhl. f_equal.
    apply (IH (l :: r)); [simpl; lia|exact Hp].
Qed.




(** * The encodings of a state file *)

Lemma file_bytes_byte_values v :
  byte_values v -> map Byte.to_N (file_bytes v) = v.
Proof.
  unfold byte_values, file_bytes. induction 1 as [|c v Hc _ IH]; [reflexivity|].
  simpl. rewrite IH. f_equal.
  destruct (Byte.of_N c) as [b|] eqn:Hb.
  - apply Byte.to_of_N, Hb.
  - apply Byte.of_N_None_iff in Hb. lia.
Qed.

Lemma ascii_text_inv c s :
  ascii_text (c :: s) -> 0 < c < 128 /\ ascii_text s.
Proof.
  unfold ascii_text. simpl. intros H. apply andb_true_iff in H as [Hc Hs].
  split; [apply is_ascii_bounds, Hc|exact Hs].
Qed.

Lemma laid_out_byte_values l s :
  ascii_text s -> byte_values (byte_order_mark l ++ flat_map (code_unit l) s).
Proof.
  intros Hs. apply Forall_app. split.
  - destruct l as [|[] []|[] []]; repeat constructor; simpl; lia.
  - induction s as [|c s IH]; [constructor|].
    apply ascii_text_inv in Hs as [Hc Hs]. simpl. apply Forall_app.
    split; [|apply IH, Hs].
    destruct l as [|[] m|[] m]; repeat constructor; lia.
Qed.

Lemma ascii_no_pair s : ascii_text s -> no_pair s = true.
Proof.
  induction s as [|c s IH]; [reflexivity|]. intros Hs.
  apply ascii_text_inv in Hs as [Hc Hs]. cbn [no_pair].
  rewrite (IH Hs), andb_true_r. apply negb_true_iff, andb_false_iff. left.
  unfold Codecs.is_high. apply andb_false_iff. left. apply N.leb_gt. lia.
Qed.

Lemma units_16_ascii little mark s :
  Codecs.units_16 little (flat_map (code_unit (wide_16 little mark)) s)
  = Some s.
Proof.
  induction s as [|c s IH]; [reflexivity|].
  destruct little; cbn [flat_map code_unit List.app Codecs.units_16];
    rewrite IH; simpl; f_equal; f_equal; lia.
Qed.

Lemma decode_utf_16_ascii little mark s :
  ascii_text s ->
  Codecs.decode_utf_16 little (flat_map (code_unit (wide_16 little mark)) s)
  = Some s.
Proof.
  intros Hs. unfold Codecs.decode_utf_16. rewrite units_16_ascii. simpl.
  rewrite (join_16_fixed _ s (le_n _) (ascii_no_pair s Hs)). reflexivity.
Qed.

Lemma decode_utf_32_ascii little mark s :
  ascii_text s ->
  Codecs.decode_utf_32 little (flat_map (code_unit (wide_32 little mark)) s)
  = Some s.
Proof.
  induction s as [|c s IH]; [reflexivity|]. intros Hs.
  apply ascii_text_inv in Hs as [Hc Hs].
  destruct little; cbn [flat_map code_unit List.app Codecs.decode_utf_32];
    rewrite (IH Hs).
  - replace (c + 256 * 0 + 65536 * 0 + 16777216 * 0) with c by lia.
    replace (c <? 1114112) with true by (symmetry; apply N.ltb_lt; lia).
    reflexivity.
  - replace (16777216 * 0 + 65536 * 0 + 256 * 0 + c) with c by lia.
    replace (c <? 1114112) with true by (symmetry; apply N.ltb_lt; lia).
    reflexivity.
Qed.

(** The tests of [detect_encoding] on an ASCII character. *)
Ltac ascii_tests c Hc :=
  repeat match goal with
  | |- context [?k =? c] =>
      replace (k =? c) with false by (symmetry; apply N.eqb_neq; lia)
  | |- context [c =? ?k] =>
      replace (c =? k) with false by (symmetry; apply N.eqb_neq; lia)
  end.

Ltac detect_tests :=
  cbn [byte_order_mark] in *;
  unfold Codecs.detect_encoding, Codecs.BOM_UTF32_BE,
    Codecs.BOM_UTF32_LE, Codecs.BOM_UTF16_BE, Codecs.BOM_UTF16_LE,
    Codecs.BOM_UTF8 in *;
  cbn [List.app flat_map code_unit] in *;
  cbn [Codecs.startswith].

Lemma decode_with_laid_out l s :
  ascii_text s ->
  let v := byte_order_mark l ++ flat_map (code_unit l) s in
  Codecs.decode_with (Codecs.detect_encoding v) v = Some s.
Proof.
  intros Hs. cbv zeta.
  pose proof (decode_utf_8_ascii s Hs) as H8.
  destruct l as [|little mark|little mark].
  - replace (flat_map (code_unit signed_utf_8) s) with s
      by (clear; induction s; simpl; congruence).
    exact H8.
  - pose proof (decode_utf_16_ascii little mark s Hs) as H16.
    destruct little, mark.
    + destruct s as [|c s]; [reflexivity|].
      apply ascii_text_inv in Hs as [Hc _].
      detect_tests. ascii_tests c Hc. simpl. exact H16.
    + destruct s as [|c0 [|c1 s]]; [reflexivity| |].
      * apply ascii_text_inv in Hs as [Hc0 _].
        detect_tests. ascii_tests c0 Hc0. simpl. exact H16.
      * apply ascii_text_inv in Hs as [Hc0 Hs].
        apply ascii_text_inv in Hs as [Hc1 _].
        detect_tests. ascii_tests c0 Hc0. ascii_tests c1 Hc1.
        simpl. exact H16.
    + exact H16.
    + destruct s as [|c0 [|c1 s]]; [reflexivity| |].
      * apply ascii_text_inv in Hs as [Hc0 _].
        detect_tests. ascii_tests c0 Hc0. simpl. exact H16.
      * apply ascii_text_inv in Hs as [Hc0 Hs].
        apply ascii_text_inv in Hs as [Hc1 _].
        detect_tests. ascii_tests c0 Hc0. ascii_tests c1 Hc1.
        simpl. exact H16.
  - pose proof (decode_utf_32_ascii little mark s Hs) as H32.
    destruct little, mark; try exact H32;
      (destruct s as [|c0 s]; [reflexivity|]);
      apply ascii_text_inv in Hs as [Hc0 _];
      detect_tests; ascii_tests c0 Hc0; simpl; exact H32.
Qed.

Lemma decode_laid_out l s :
  ascii_text s -> Codecs.decode (laid_out l s) = Some s.
Proof.
  intros Hs. unfold Codecs.decode, laid_out.
  rewrite (file_bytes_byte_values _ (laid_out_byte_values l s Hs)).
  apply decode_with_laid_out, Hs.
Qed.

(** X10.  [download_state] reads an ASCII state file in every layout that
    [json.load] detects, as it reads the plain file: with the UTF-8
    signature, and in UTF-16 or UTF-32 of either byte order, with or without
    a byte order mark. *)
Theorem download_state_reads_encodings pf self w w' l s :
  ascii_text s ->
  Blob.get (s3 w) (bucket_name self) (state_key self) = Ok (file_bytes s) ->
  Blob.get (s3 w') (bucket_name self) (state_key self) = Ok (laid_out l s) ->
  fst (download_state pf self w') = fst (download_state pf self w).
Proof.
  intros Hs Hplain Hlaid. rewrite !download_state_eq, Hplain, Hlaid.
  unfold Decoder.loads.
  rewrite (decode_laid_out l s Hs), (decode_file_bytes s Hs).
  destruct (Decoder.decode pf s); reflexivity.
Qed.

Lemma download_state_reads_encodings_witness :
  fst (download_state float_as_written manager
         (world_with (laid_out (wide_16 true true) (pystr "{}"))))
  = fst (download_state float_as_written manager
           (world_with (file_bytes (pystr "{}")))).
Proof.
  apply (download_state_reads_encodings float_as_written manager
           (world_with (file_bytes (pystr "{}")))
           (world_with (laid_out (wide_16 true true) (pystr "{}")))
           (wide_16 true true) (pystr "{}")).
  - reflexivity.
  - vm_compute. reflexivity.
  - vm_compute. reflexivity.
Defined.

(** * The script *)

Lemma list_outputs_store pf self w w' :
  s3 w = s3 w' ->
  fst (list_outputs pf self w) = fst (list_outputs pf self w').
Proof.
  intros Hs. rewrite !list_outputs_eq, (download_state_store pf self w w' Hs).
  reflexivity.
Qed.





(** The worlds that the script goes through. *)
Section Run.

Variable pf : Decoder.float_parser.
Variable pr : N -> bool.
Variable p : process.

Let w1 : world :=
  logged (state p)
    (INFO "Initialized Terraform state manager for s3://{bucket_name}/{state_key}").
Let w2 : world := snd (download_state pf manager w1).
Let w3 : world := snd (get_resources pf manager w2).

Lemma run_stores :
  s3 w1 = s3 (state p) /\ s3 w2 = s3 (state p) /\ s3 w3 = s3 (state p).
Proof.
  assert (H1 : s3 w1 = s3 (state p)) by reflexivity.
  assert (H2 : s3 w2 = s3 (state p)).
  { unfold w2. destruct (download_state_only_logged pf manager w1) as (H & _).
    rewrite H. exact H1. }
  assert (H3 : s3 w3 = s3 (state p)).
  { unfold w3. destruct (get_resources_only_logged pf manager w2) as (H & _).
    rewrite H. exact H2. }
  auto.
Qed.

Lemma run_download :
  fst (download_state pf manager w1)
  = fst (download_state pf manager (state p)).
Proof. apply download_state_store, run_stores. Qed.

Lemma run_resources :
  fst (get_resources pf manager w2) = fst (get_resources pf manager (state p)).
Proof. apply get_resources_store, run_stores. Qed.

Lemma run_outputs :
  fst (list_outputs pf manager w3) = fst (list_outputs pf manager (state p)).
Proof. apply list_outputs_store, run_stores. Qed.

(** The script, step by step. *)
Lemma main_eq :
  main pf pr p =
  let out1 := stdout p ++ banner in
  match download_state pf manager w1 with
  | (Raise e, w) => (Raise e, mkProcess w out1)
  | (Ok state_data, w) =>
      if truthy state_data then
        let out2 :=
          out1 ++ [pystr "   " ++ 10003 :: pystr " Successfully downloaded state";
                   10 :: pystr "2. Resources in state:"] in
        match get_resources pf manager w with
        | (Raise e, w') => (Raise e, mkProcess w' out2)
        | (Ok resources, w') =>
            match
              match resources with
              | _ :: _ =>
                  for_in resources
                    (fun resource =>
                       line <- eval (resource_line pr resource) ;;
                       print line)%IO
              | [] => print (pystr "   No resources found")
              end (mkProcess w' out2)
            with
            | (Raise e, p3) => (Raise e, p3)
            | (Ok _, p3) =>
                let out3 := stdout p3 ++ [10 :: pystr "3. Terraform outputs:"] in
                match list_outputs pf manager (state p3) with
                | (Raise e, w'') => (Raise e, mkProcess w'' out3)
                | (Ok outputs, w'') =>
                    match
                      (if truthy outputs then
                         items <- eval (py_items outputs) ;;
                         for_in items
                           (fun item =>
                              line <- eval (output_line pr item) ;;
                              print line)
                       else print (pystr "   No outputs found"))%IO
                        (mkProcess w'' out3)
                    with
                    | (Raise e, p4) => (Raise e, p4)
                    | (Ok _, p4) =>
                        (Ok tt,
                         mkProcess (state p4)
                           (stdout p4 ++ [10 :: rule; pystr "Demo completed!"]))
                    end
                end
            end
        end
      else
        (Ok tt,
         mkProcess w
           (out1 ++ [pystr "   " ++ 10007
                       :: pystr " Failed to download state (expected with example bucket)";
                     pystr "   This is normal - replace bucket_name and state_key with real values";
                     10 :: rule; pystr "Demo completed!"]))
  end.
Proof.
  unfold main, banner, __init__, bindM, logger_info, ret. cbv zeta.
  unfold bindIO, print, call, eval. cbn [state stdout fst snd].
  change (mkManager (pystr "your-terraform-state-bucket")
            (pystr "dev/terraform.tfstate") (pystr "us-east-1"))
    with manager.
  fold w1. rewrite <- !List.app_assoc. cbn [List.app].
  destruct (download_state pf manager w1) as [[state_data|e] w]; [|reflexivity].
  destruct (truthy state_data);
    [|cbn [state stdout]; rewrite <- !List.app_assoc; reflexivity].
  cbn [state stdout]. rewrite <- !List.app_assoc. cbn [List.app].
  destruct (get_resources pf manager w) as [[resources|e] w']; [|reflexivity].
  match goal with
  | |- (let (_, _) := (let (_, _) := ?m in _) in _)
       = (let (_, _) := ?m' in _) =>
      change m' with m; destruct m as [[u|e] p3]
  end; [|reflexivity].
  cbn [state stdout].
  destruct (list_outputs pf manager (state p3)) as [[outputs|e] w''];
    [|reflexivity].
  match goal with
  | |- (let (_, _) := ?m in _) = (let (_, _) := ?m' in _) =>
      change m' with m; destruct m as [[u'|e] p4]
  end; [|reflexivity].
  cbn [state stdout]. rewrite <- !List.app_assoc. reflexivity.
Qed.

End Run.




(** X11.  When the download gives no document, or a falsy one, the script
    ends normally: it prints the banner, the two lines of the failure and
    the closing lines, and it has made one download. *)
Theorem main_without_state pf pr p state_data :
  fst (download_state pf manager (state p)) = Ok state_data ->
  truthy state_data = false ->
  fst (main pf pr p) = Ok tt
  /\ stdout (snd (main pf pr p))
     = stdout p ++ banner ++ failure_lines ++ closing
  /\ exists r,
       journal (state (snd (main pf pr p)))
       = journal (state p) ++ [initialized; r].
Proof.
  intros Hdown Hfalse. rewrite main_eq. cbv zeta.
  pose proof (run_download pf p) as Hrun. rewrite Hdown in Hrun.
  destruct (download_state_only_logged pf manager (logged (state p) initialized))
    as (_ & _ & r & Hr).
  fold initialized in Hrun |- *.
  destruct (download_state pf manager (logged (state p) initialized))
    as [[sd|e] w]; simpl in Hrun; [|discriminate].
  injection Hrun as ->. rewrite Hfalse. cbn [fst snd state stdout].
  split; [reflexivity|]. split.
  - rewrite <- List.app_assoc. reflexivity.
  - exists r. simpl in Hr. rewrite Hr. rewrite <- List.app_assoc. reflexivity.
Qed.

Lemma main_without_state_witness :
  fst (main float_as_written ascii_printable (process_with truncated)) = Ok tt
  /\ stdout (snd (main float_as_written ascii_printable
                    (process_with truncated)))
     = stdout (process_with truncated) ++ banner ++ failure_lines ++ closing
  /\ exists r,
       journal (state (snd (main float_as_written ascii_printable
                              (process_with truncated))))
       = journal (state (process_with truncated)) ++ [initialized; r].
Proof.
  apply (main_without_state float_as_written ascii_printable
           (process_with truncated) VNone).
  - vm_compute. reflexivity.
  - reflexivity.
Defined.







(** * The listings of the infrastructure manager *)

Lemma aws_for_each_flat {A} (body : A -> result (list Aws.obj)) g items :
  (forall x, In x items -> body x = Ok (g x)) ->
  Aws.for_each body items = Ok (flat_map g items).
Proof.
  induction items as [|x items IH]; intros H; [reflexivity|].
  simpl. rewrite (H x (or_introl eq_refl)), IH; [reflexivity|].
  intros y Hy. apply H. right; exact Hy.
Qed.

Lemma aws_for_each_views {A} (body : A -> result (list Aws.obj)) view items :
  (forall x, In x items -> body x = Ok [view x]) ->
  Aws.for_each body items = Ok (map view items).
Proof.
  intros H. rewrite (aws_for_each_flat body (fun x => [view x]) items H).
  clear H. induction items as [|x items IH]; [reflexivity|].
  simpl. congruence.
Qed.

Lemma aws_for_each_app {A} (body : A -> result (list Aws.obj)) xs ys :
  Aws.for_each body (xs ++ ys)
  = (a <- Aws.for_each body xs ;; b <- Aws.for_each body ys ;;
     Ok (a ++ b))%py.
Proof.
  induction xs as [|x xs IH]; simpl.
  - destruct (Aws.for_each body ys); reflexivity.
  - destruct (body x) as [l|e]; simpl; [|reflexivity].
    rewrite IH. destruct (Aws.for_each body xs) as [a|e]; simpl; [|reflexivity].
    destruct (Aws.for_each body ys) as [b|e]; simpl; [|reflexivity].
    rewrite List.app_assoc. reflexivity.
Qed.

Lemma aws_field_getitem d k v :
  Aws.field (Aws.ODict d) k = Some v -> Aws.getitem (Aws.ODict d) k = Ok v.
Proof. unfold Aws.field, Aws.getitem. intros ->. reflexivity. Qed.

Lemma aws_has_field d k :
  Aws.has_field (Aws.ODict d) k = true ->
  Aws.getitem (Aws.ODict d) k
  = Ok (Aws.or_default (Aws.field (Aws.ODict d) k) Aws.ONone).
Proof.
  unfold Aws.has_field, Aws.field, Aws.getitem.
  destruct (Aws.lookup d (Aws.OStr k)); [reflexivity|discriminate].
Qed.

Lemma aws_get_default d k default :
  Aws.get (Aws.ODict d) k default
  = Ok (Aws.or_default (Aws.field (Aws.ODict d) k) default).
Proof.
  unfold Aws.field, Aws.get.
  destruct (Aws.lookup d (Aws.OStr k)); reflexivity.
Qed.

Lemma aws_has_time d k :
  Aws.has_time (Aws.ODict d) k = true ->
  (t <- Aws.getitem (Aws.ODict d) k ;; Aws.py_strftime t)%py
  = Ok (Aws.time_text (Aws.ODict d) k).
Proof.
  unfold Aws.has_time, Aws.time_text, Aws.field, Aws.getitem.
  destruct (Aws.lookup d (Aws.OStr k)) as [[| | | |t| |]|];
    try discriminate; reflexivity.
Qed.

(** ** Tags *)

Lemma tags_from_stored acc tags :
  forallb Aws.tag_ok tags = true ->
  Aws.tags_from acc tags
  = Ok (fold_left (fun acc tag => Aws.store acc (fst (Aws.tag_pair tag))
                                            (snd (Aws.tag_pair tag)))
                  tags acc).
Proof.
  revert acc. induction tags as [|tag tags IH]; intros acc H; [reflexivity|].
  simpl in H. apply andb_true_iff in H as [Htag H].
  unfold Aws.tag_ok in Htag.
  apply andb_true_iff in Htag as [Htag Hkey].
  apply andb_true_iff in Htag as [Hd Hv].
  destruct tag as [| | | | | |d]; try discriminate.
  cbn [Aws.tags_from fold_left]. rewrite <- (IH _ H).
  unfold Aws.tag_pair. rewrite (aws_has_field d _ Hv).
  destruct (Aws.field (Aws.ODict d) (pystr "Key")) as [key|] eqn:Hk;
    [|discriminate].
  rewrite (aws_field_getitem d _ key Hk). simpl bind. rewrite Hkey.
  reflexivity.
Qed.

Lemma tags_of_stored d :
  Aws.tags_ok (Aws.ODict d) = true ->
  Aws.tags_of (Aws.ODict d) = Ok (Aws.tags_dict (Aws.ODict d)).
Proof.
  unfold Aws.tags_ok, Aws.tags_of, Aws.tags_dict, Aws.items_of. intros H.
  rewrite aws_get_default.
  destruct (Aws.field (Aws.ODict d) (pystr "Tags")) as [[| | | | |tags|]|];
    try discriminate; simpl.
  - rewrite (tags_from_stored [] tags H). reflexivity.
  - reflexivity.
Qed.

(** ** Instances *)

Lemma instance_entry_view instance :
  Aws.instance_ok instance = true ->
  Aws.instance_entry instance = Ok [Aws.instance_view instance].
Proof.
  unfold Aws.instance_ok. intros H.
  apply andb_true_iff in H as [H Htags].
  apply andb_true_iff in H as [H Htime].
  apply andb_true_iff in H as [H Hstate].
  apply andb_true_iff in H as [H Htype].
  apply andb_true_iff in H as [Hd Hid].
  destruct instance as [| | | | | |d]; try discriminate.
  pose proof (aws_has_time d _ Htime) as Ht.
  unfold Aws.instance_entry, Aws.instance_view, bind in *.
  rewrite (aws_has_field d _ Hid), (aws_has_field d _ Htype).
  destruct (Aws.field (Aws.ODict d) (pystr "State")) as [state|] eqn:Hs;
    [|discriminate].
  apply andb_true_iff in Hstate as [Hsd Hname].
  destruct state as [| | | | | |sd]; try discriminate.
  rewrite (aws_field_getitem d _ _ Hs), (aws_has_field sd _ Hname).
  rewrite !aws_get_default.
  destruct (Aws.getitem (Aws.ODict d) (pystr "LaunchTime")) as [t|e];
    [|discriminate].
  rewrite Ht, (tags_of_stored d Htags). reflexivity.
Qed.

Lemma reservation_entries_views reservation :
  Aws.reservation_ok reservation = true ->
  Aws.reservation_entries reservation
  = Ok (map Aws.instance_view
          (Aws.items_of reservation (pystr "Instances"))).
Proof.
  unfold Aws.reservation_ok, Aws.reservation_entries, Aws.items_of. intros H.
  apply andb_true_iff in H as [Hd H].
  destruct reservation as [| | | | | |d]; try discriminate.
  destruct (Aws.field (Aws.ODict d) (pystr "Instances"))
    as [[| | | | |instances|]|] eqn:Hi; try discriminate.
  rewrite (aws_field_getitem d _ _ Hi). simpl.
  apply aws_for_each_views. intros x Hx. apply instance_entry_view.
  rewrite forallb_forall in H. apply H, Hx.
Qed.

Lemma all_instances_length reservations :
  List.length (Aws.all_instances reservations)
  = list_sum (map (fun r => List.length (Aws.items_of r (pystr "Instances")))
                  reservations).
Proof.
  unfold Aws.all_instances.
  induction reservations as [|r rs IH]; [reflexivity|].
  simpl. rewrite length_app, length_map, IH. reflexivity.
Qed.

(** X14.  For a response whose reservations are mappings with a sequence
    of well-formed instances, [list_ec2_instances] returns one entry for
    each instance of each reservation, in the order of the response, and
    logs nothing; their number is the sum of the numbers of instances. *)
Theorem list_ec2_instances_flattens cloud
    (self : Aws.AWSInfrastructureManager cloud) w response c reservations :
  Aws.ec2_describe_instances cloud (Aws.clients cloud self) (Aws.remote cloud w)
  = (Ok response, c) ->
  Aws.field response (pystr "Reservations") = Some (Aws.OList reservations) ->
  forallb Aws.reservation_ok reservations = true ->
  Aws.list_ec2_instances cloud self w
  = (Ok (Aws.OList (Aws.all_instances reservations)),
     Aws.mkAccount cloud c (Aws.journal cloud w))
  /\ List.length (Aws.all_instances reservations)
     = list_sum (map (fun r =>
                        List.length (Aws.items_of r (pystr "Instances")))
                     reservations).
Proof.
  intros Hcall Hres Hok. split; [|apply all_instances_length].
  unfold Aws.list_ec2_instances, Aws.try_except, Aws.bindM, Aws.call,
    Aws.lift, Aws.ret.
  rewrite Hcall.
  assert (H : Aws.instances_of response
              = Ok (Aws.all_instances reservations)).
  { unfold Aws.instances_of.
    destruct response as [| | | | | |d]; try discriminate.
    rewrite (aws_field_getitem d _ _ Hres). simpl.
    apply aws_for_each_flat. intros r Hr.
    apply reservation_entries_views.
    rewrite forallb_forall in Hok. apply Hok, Hr. }
  rewrite H. reflexivity.
Qed.

Lemma list_ec2_instances_flattens_witness :
  Aws.list_ec2_instances unit
    (fixed_manager (inventory [reservation_of [web_server; worker];
                               reservation_of []; reservation_of [worker]]))
    fresh_account
  = (Ok (Aws.OList (Aws.all_instances
                      [reservation_of [web_server; worker];
                       reservation_of []; reservation_of [worker]])),
     fresh_account)
  /\ List.length (Aws.all_instances
                    [reservation_of [web_server; worker];
                     reservation_of []; reservation_of [worker]])
     = list_sum (map (fun r =>
                        List.length (Aws.items_of r (pystr "Instances")))
                     [reservation_of [web_server; worker];
                      reservation_of []; reservation_of [worker]]).
Proof.
  apply (list_ec2_instances_flattens unit
           (fixed_manager (inventory [reservation_of [web_server; worker];
                                      reservation_of [];
                                      reservation_of [worker]]))
           fresh_account
           (inventory [reservation_of [web_server; worker];
                       reservation_of []; reservation_of [worker]])
           tt).
  - reflexivity.
  - reflexivity.
  - reflexivity.
Defined.

(** X15.  All or nothing: when one instance of the response makes its
    entry raise, the instances and reservations before it being well formed,
    [list_ec2_instances] returns the empty list, not the entries made so
    far, and logs the exception. *)
Theorem list_ec2_instances_all_or_nothing cloud
    (self : Aws.AWSInfrastructureManager cloud) w response c
    before reservation after earlier instance later e :
  Aws.ec2_describe_instances cloud (Aws.clients cloud self) (Aws.remote cloud w)
  = (Ok response, c) ->
  Aws.field response (pystr "Reservations")
  = Some (Aws.OList (before ++ reservation :: after)) ->
  forallb Aws.reservation_ok before = true ->
  Aws.field reservation (pystr "Instances")
  = Some (Aws.OList (earlier ++ instance :: later)) ->
  forallb Aws.instance_ok earlier = true ->
  Aws.instance_entry instance = Raise e ->
  Aws.list_ec2_instances cloud self w
  = (Ok (Aws.OList []),
     Aws.mkAccount cloud c
       (Aws.journal cloud w ++ [ERROR "Error listing EC2 instances" e])).
Proof.
  intros Hcall Hres Hbefore Hinst Hearlier Hraise.
  unfold Aws.list_ec2_instances, Aws.try_except, Aws.bindM, Aws.call,
    Aws.lift, Aws.ret, Aws.logger_error.
  rewrite Hcall.
  assert (H : Aws.instances_of response = Raise e).
  { unfold Aws.instances_of.
    destruct response as [| | | | | |d]; try discriminate.
    rewrite (aws_field_getitem d _ _ Hres). simpl bind.
    rewrite aws_for_each_app.
    rewrite (aws_for_each_flat _
               (fun r => map Aws.instance_view
                           (Aws.items_of r (pystr "Instances"))) before).
    - simpl bind. cbn [Aws.for_each].
      replace (Aws.reservation_entries reservation) with (@Raise (list Aws.obj) e);
        [reflexivity|].
      unfold Aws.reservation_entries.
      destruct reservation as [| | | | | |rd]; try discriminate.
      rewrite (aws_field_getitem rd _ _ Hinst). simpl bind.
      rewrite aws_for_each_app.
      rewrite (aws_for_each_views _ Aws.instance_view earlier).
      + simpl bind. cbn [Aws.for_each]. rewrite Hraise. reflexivity.
      + intros x Hx. apply instance_entry_view.
        rewrite forallb_forall in Hearlier. apply Hearlier, Hx.
    - intros r Hr. apply reservation_entries_views.
      rewrite forallb_forall in Hbefore. apply Hbefore, Hr. }
  rewrite H. reflexivity.
Qed.

Lemma list_ec2_instances_all_or_nothing_witness :
  Aws.list_ec2_instances unit
    (fixed_manager
       (inventory [reservation_of [web_server];
                   reservation_of [worker; unnamed_instance; web_server]]))
    fresh_account
  = (Ok (Aws.OList []),
     Aws.mkAccount unit tt
       [ERROR "Error listing EC2 instances" (KeyError (pystr "InstanceId"))]).
Proof.
  apply (list_ec2_instances_all_or_nothing unit
           (fixed_manager
              (inventory [reservation_of [web_server];
                          reservation_of
                            [worker; unnamed_instance; web_server]]))
           fresh_account
           (inventory [reservation_of [web_server];
                       reservation_of [worker; unnamed_instance; web_server]])
           tt
           [reservation_of [web_server]]
           (reservation_of [worker; unnamed_instance; web_server])
           []
           [worker] unnamed_instance [web_server]
           (KeyError (pystr "InstanceId"))).
  - reflexivity.
  - reflexivity.
  - reflexivity.
  - reflexivity.
  - reflexivity.
  - reflexivity.
Defined.

(** ** The keys of a dictionary *)

Lemma datetime_eqb_eq a b : Aws.datetime_eqb a b = true <-> a = b.
Proof.
  unfold Aws.datetime_eqb. destruct a, b; simpl.
  rewrite !andb_true_iff, !N.eqb_eq. split.
  - intros [[[[[[-> ->] ->] ->] ->] ->] ->]. reflexivity.
  - intros H; inversion H; subst; repeat split.
Qed.

Lemma key_eqb_same a b : Aws.key_eqb a b = true <-> Aws.same_key a b.
Proof.
  destruct a as [|[]|x|s|t|l|d], b as [|[]|y|s'|t'|l'|d'];
    cbn [Aws.key_eqb Aws.number Aws.same_key];
    first [ apply Z.eqb_eq | apply str_eqb_eq | apply datetime_eqb_eq
          | split; [discriminate|contradiction]
          | split; [discriminate|discriminate]
          | split; intros; (exact I || reflexivity) ].
Qed.

Lemma same_key_sym a b : Aws.same_key a b -> Aws.same_key b a.
Proof.
  destruct a as [|[]|x|s|t|l|d], b as [|[]|y|s'|t'|l'|d']; simpl;
    auto; congruence.
Qed.

Lemma same_key_trans a b c : Aws.same_key a b -> Aws.same_key b c -> Aws.same_key a c.
Proof.
  destruct a as [|[]|x|s|t|l|d], b as [|[]|y|s'|t'|l'|d'],
    c as [|[]|z|s''|t''|l''|d'']; simpl; auto; try contradiction;
    congruence.
Qed.

Lemma key_eqb_congr a b c :
  Aws.key_eqb a b = true -> Aws.key_eqb a c = Aws.key_eqb b c.
Proof.
  intros Hab. apply key_eqb_same in Hab.
  destruct (Aws.key_eqb b c) eqn:Hbc.
  - apply key_eqb_same. apply key_eqb_same in Hbc.
    eapply same_key_trans; eassumption.
  - destruct (Aws.key_eqb a c) eqn:Hac; [|reflexivity].
    apply key_eqb_same in Hac. rewrite <- Hbc. symmetry.
    apply key_eqb_same. eapply same_key_trans; [|exact Hac].
    apply same_key_sym, Hab.
Qed.

Lemma key_eqb_refl k : Aws.hashable k = true -> Aws.key_eqb k k = true.
Proof.
  intros H. apply key_eqb_same.
  destruct k as [|[]|x|s|t|l|d]; simpl; auto; discriminate.
Qed.

Lemma lookup_store d k v k' :
  Aws.hashable k = true ->
  Aws.lookup (Aws.store d k v) k'
  = if Aws.key_eqb k k' then Some v else Aws.lookup d k'.
Proof.
  intros Hk. induction d as [|[k0 v0] d IH]; simpl.
  - reflexivity.
  - destruct (Aws.key_eqb k0 k) eqn:H0; simpl.
    + rewrite (key_eqb_congr k0 k k' H0).
      destruct (Aws.key_eqb k k'); reflexivity.
    + rewrite IH. destruct (Aws.key_eqb k0 k') eqn:H0'; [|reflexivity].
      destruct (Aws.key_eqb k k') eqn:Hkk'; [|reflexivity].
      apply key_eqb_same in H0', Hkk'.
      assert (Hc : Aws.key_eqb k0 k = true).
      { apply key_eqb_same. eapply same_key_trans; [exact H0'|].
        apply same_key_sym, Hkk'. }
      congruence.
Qed.

Lemma lookup_last pairs p k :
  Aws.lookup (pairs ++ [p]) k
  = match Aws.lookup pairs k with
    | Some v => Some v
    | None => if Aws.key_eqb (fst p) k then Some (snd p) else None
    end.
Proof.
  induction pairs as [|[k0 v0] pairs IH]; simpl.
  - destruct p; reflexivity.
  - destruct (Aws.key_eqb k0 k); [reflexivity|exact IH].
Qed.

Lemma lookup_stored tags : forall acc k,
  forallb Aws.tag_ok tags = true ->
  Aws.lookup
    (fold_left (fun acc tag => Aws.store acc (fst (Aws.tag_pair tag))
                                         (snd (Aws.tag_pair tag)))
               tags acc) k
  = match Aws.lookup (List.rev (map Aws.tag_pair tags)) k with
    | Some v => Some v
    | None => Aws.lookup acc k
    end.
Proof.
  induction tags as [|tag tags IH]; intros acc k H; [reflexivity|].
  simpl in H. apply andb_true_iff in H as [Htag H].
  cbn [fold_left map List.rev]. rewrite (IH _ k H), lookup_last.
  destruct (Aws.lookup (List.rev (map Aws.tag_pair tags)) k); [reflexivity|].
  rewrite lookup_store;
    [destruct (Aws.key_eqb (fst (Aws.tag_pair tag)) k); reflexivity|].
  unfold Aws.tag_ok in Htag. apply andb_true_iff in Htag as [_ Hkey].
  unfold Aws.tag_pair. simpl.
  destruct (Aws.field tag (pystr "Key")); [exact Hkey|discriminate].
Qed.

(** X16.  The dictionary of the tags of a resource: for tags that are
    mappings with a hashable [Key] and a [Value], every lookup gives the
    value of the last tag that has the key. *)
Theorem tags_last_wins resource :
  Aws.is_dict resource = true ->
  Aws.tags_ok resource = true ->
  exists d,
    Aws.tags_of resource = Ok (Aws.ODict d)
    /\ forall k,
         Aws.lookup d k
         = Aws.lookup
             (List.rev (map Aws.tag_pair (Aws.items_of resource (pystr "Tags"))))
             k.
Proof.
  intros Hd Hok. destruct resource as [| | | | | |fields]; try discriminate.
  rewrite (tags_of_stored fields Hok). unfold Aws.tags_dict.
  eexists. split; [reflexivity|]. intros k.
  rewrite lookup_stored.
  - destruct (Aws.lookup _ k); reflexivity.
  - unfold Aws.tags_ok, Aws.items_of in *.
    destruct (Aws.field (Aws.ODict fields) (pystr "Tags"))
      as [[| | | | |tags|]|]; try discriminate; auto.
Qed.

Lemma tags_last_wins_witness :
  exists d,
    Aws.tags_of web_server = Ok (Aws.ODict d)
    /\ forall k,
         Aws.lookup d k
         = Aws.lookup
             (List.rev (map Aws.tag_pair
                          (Aws.items_of web_server (pystr "Tags"))))
             k.
Proof.
  apply (tags_last_wins web_server).
  - reflexivity.
  - reflexivity.
Defined.

(** ** Buckets *)

Section Buckets.

Variable cloud : Type.
Variable self : Aws.AWSInfrastructureManager cloud.

Lemma bucket_entry_located bucket w :
  Aws.bucket_ok bucket = true ->
  Aws.bucket_entry cloud self bucket w
  = let (answer, c) :=
      Aws.s3_get_bucket_location cloud (Aws.clients cloud self)
        (Aws.or_default (Aws.field bucket (pystr "Name")) Aws.ONone)
        (Aws.remote cloud w) in
    (Ok [Aws.bucket_view bucket (Aws.region_shown answer)],
     Aws.mkAccount cloud c (Aws.journal cloud w)).
Proof.
  unfold Aws.bucket_ok. intros H.
  apply andb_true_iff in H as [H Htime].
  apply andb_true_iff in H as [Hd Hname].
  destruct bucket as [| | | | | |d]; try discriminate.
  pose proof (aws_has_time d _ Htime) as Ht.
  unfold Aws.bucket_entry, Aws.bucket_region, Aws.try_except, Aws.bindM,
    Aws.lift, Aws.call, Aws.ret, bind in *.
  rewrite (aws_has_field d _ Hname).
  destruct (Aws.s3_get_bucket_location cloud _ _ _) as [[answer|e] c].
  - cbn [Aws.remote Aws.journal]. unfold Aws.region_shown, Aws.get.
    destruct answer as [| | | | | |ad].
    all: cbn [Aws.remote Aws.journal];
      try (destruct (Aws.getitem (Aws.ODict d) (pystr "CreationDate"));
           [rewrite Ht; reflexivity|discriminate]).
    destruct (Aws.lookup ad (Aws.OStr (pystr "LocationConstraint")));
      cbn [Aws.remote Aws.journal];
      (destruct (Aws.getitem (Aws.ODict d) (pystr "CreationDate"));
       [rewrite Ht; reflexivity|discriminate]).
  - cbn [Aws.remote Aws.journal].
    destruct (Aws.getitem (Aws.ODict d) (pystr "CreationDate"));
      [rewrite Ht; reflexivity|discriminate].
Qed.

Lemma for_eachM_located buckets : forall w,
  forallb Aws.bucket_ok buckets = true ->
  Aws.for_eachM cloud (Aws.bucket_entry cloud self) buckets w
  = let (entries, c) :=
      Aws.located (Aws.s3_get_bucket_location cloud (Aws.clients cloud self))
        buckets (Aws.remote cloud w) in
    (Ok entries, Aws.mkAccount cloud c (Aws.journal cloud w)).
Proof.
  induction buckets as [|bucket rest IH]; intros w H.
  - simpl. destruct w; reflexivity.
  - simpl in H. apply andb_true_iff in H as [Hb H].
    cbn [Aws.for_eachM Aws.located]. unfold Aws.bindM at 1.
    rewrite (bucket_entry_located bucket w Hb).
    destruct (Aws.s3_get_bucket_location cloud _ _ _) as [answer c1].
    unfold Aws.bindM at 1. rewrite (IH _ H). cbn [Aws.remote Aws.journal].
    destruct (Aws.located _ rest c1) as [entries c2]. reflexivity.
Qed.

Lemma located_length (ask : Aws.obj -> cloud -> result Aws.obj * cloud)
    buckets : forall c,
  List.length (fst (Aws.located ask buckets c)) = List.length buckets.
Proof.
  induction buckets as [|bucket rest IH]; intros c; [reflexivity|].
  simpl. destruct (ask _ c) as [answer c1]. specialize (IH c1).
  destruct (Aws.located ask rest c1) as [entries c2]. simpl in *.
  rewrite IH. reflexivity.
Qed.

End Buckets.

(** X17.  A failure of [get_bucket_location] costs no bucket: for a
    response whose buckets are mappings with a [Name] and a [datetime] as
    [CreationDate], [list_s3_buckets] returns one entry for each bucket, in
    order, and logs nothing, whatever the answers about the locations; the
    region shown is [unknown] when the answer is an exception or is not a
    mapping, the value under [LocationConstraint] when there is one, [None]
    included, and [us-east-1] otherwise. *)
Theorem list_s3_buckets_keeps_every_bucket cloud
    (self : Aws.AWSInfrastructureManager cloud) w response c buckets :
  Aws.s3_list_buckets cloud (Aws.clients cloud self) (Aws.remote cloud w)
  = (Ok response, c) ->
  Aws.field response (pystr "Buckets") = Some (Aws.OList buckets) ->
  forallb Aws.bucket_ok buckets = true ->
  let listed :=
    Aws.located (Aws.s3_get_bucket_location cloud (Aws.clients cloud self))
      buckets c in
  Aws.list_s3_buckets cloud self w
  = (Ok (Aws.OList (fst listed)),
     Aws.mkAccount cloud (snd listed) (Aws.journal cloud w))
  /\ List.length (fst listed) = List.length buckets.
Proof.
  intros Hcall Hres Hok listed. split; [|apply located_length].
  unfold Aws.list_s3_buckets, Aws.try_except.
  unfold Aws.bindM at 1. unfold Aws.call at 1. rewrite Hcall.
  destruct response as [| | | | | |d]; try discriminate.
  unfold Aws.bindM at 1. unfold Aws.lift at 1.
  rewrite (aws_field_getitem d _ _ Hres).
  unfold Aws.bindM at 1. unfold Aws.lift at 1. cbn [Aws.iter].
  unfold Aws.bindM at 1.
  rewrite (for_eachM_located cloud self buckets _ Hok).
  cbn [Aws.remote Aws.journal]. fold listed.
  destruct listed as [entries c2]. reflexivity.
Qed.

Lemma list_s3_buckets_keeps_every_bucket_witness :
  Aws.list_s3_buckets unit (fixed_manager (inventory [])) fresh_account
  = (Ok (Aws.OList
           [Aws.bucket_view (bucket_named "logs") (Aws.OStr (pystr "unknown"));
            Aws.bucket_view (bucket_named "state")
              (Aws.OStr (pystr "unknown"))]),
     fresh_account)
  /\ 2%nat = 2%nat.
Proof.
  apply (list_s3_buckets_keeps_every_bucket unit
           (fixed_manager (inventory [])) fresh_account (inventory []) tt
           [bucket_named "logs"; bucket_named "state"]).
  - reflexivity.
  - reflexivity.
  - reflexivity.
Defined.

(** ** Stacks and networks *)

Lemma stack_entry_view stack :
  Aws.stack_ok stack = true ->
  Aws.stack_entry stack = Ok [Aws.stack_view stack].
Proof.
  unfold Aws.stack_ok. intros H.
  apply andb_true_iff in H as [H Htime].
  apply andb_true_iff in H as [H Hstatus].
  apply andb_true_iff in H as [Hd Hname].
  destruct stack as [| | | | | |d]; try discriminate.
  pose proof (aws_has_time d _ Htime) as Ht.
  unfold Aws.stack_entry, Aws.stack_view, bind in *.
  rewrite (aws_has_field d _ Hname), (aws_has_field d _ Hstatus).
  destruct (Aws.getitem (Aws.ODict d) (pystr "CreationTime")) as [t|e];
    [|discriminate].
  rewrite Ht, aws_get_default. reflexivity.
Qed.

Lemma vpc_entry_view vpc :
  Aws.vpc_ok vpc = true -> Aws.vpc_entry vpc = Ok [Aws.vpc_view vpc].
Proof.
  unfold Aws.vpc_ok. intros H.
  apply andb_true_iff in H as [H Htags].
  apply andb_true_iff in H as [H Hdefault].
  apply andb_true_iff in H as [H Hstate].
  apply andb_true_iff in H as [H Hcidr].
  apply andb_true_iff in H as [Hd Hid].
  destruct vpc as [| | | | | |d]; try discriminate.
  unfold Aws.vpc_entry, Aws.vpc_view, bind.
  rewrite (aws_has_field d _ Hid), (aws_has_field d _ Hcidr),
    (aws_has_field d _ Hstate), (aws_has_field d _ Hdefault),
    (tags_of_stored d Htags).
  reflexivity.
Qed.

(** X18.  For a response whose stack summaries are well formed,
    [list_cloudformation_stacks] returns one entry for each of them, in
    order, and logs nothing. *)
Theorem list_cloudformation_stacks_keeps_every_stack cloud
    (self : Aws.AWSInfrastructureManager cloud) w response c stacks :
  Aws.cloudformation_list_stacks cloud (Aws.clients cloud self)
    [pystr "CREATE_COMPLETE"; pystr "UPDATE_COMPLETE"] (Aws.remote cloud w)
  = (Ok response, c) ->
  Aws.field response (pystr "StackSummaries") = Some (Aws.OList stacks) ->
  forallb Aws.stack_ok stacks = true ->
  Aws.list_cloudformation_stacks cloud self w
  = (Ok (Aws.OList (map Aws.stack_view stacks)),
     Aws.mkAccount cloud c (Aws.journal cloud w)).
Proof.
  intros Hcall Hres Hok.
  unfold Aws.list_cloudformation_stacks, Aws.try_except, Aws.bindM, Aws.call,
    Aws.lift, Aws.ret.
  rewrite Hcall.
  assert (H : Aws.stacks_of response = Ok (map Aws.stack_view stacks)).
  { unfold Aws.stacks_of.
    destruct response as [| | | | | |d]; try discriminate.
    rewrite (aws_field_getitem d _ _ Hres). simpl.
    apply aws_for_each_views. intros x Hx. apply stack_entry_view.
    rewrite forallb_forall in Hok. apply Hok, Hx. }
  rewrite H. reflexivity.
Qed.

Lemma list_cloudformation_stacks_keeps_every_stack_witness :
  Aws.list_cloudformation_stacks unit (fixed_manager (inventory []))
    fresh_account
  = (Ok (Aws.OList [Aws.stack_view network_stack]), fresh_account).
Proof.
  apply (list_cloudformation_stacks_keeps_every_stack unit
           (fixed_manager (inventory [])) fresh_account (inventory []) tt
           [network_stack]).
  - reflexivity.
  - reflexivity.
  - reflexivity.
Defined.

(** X19.  For a response whose VPCs are well formed, [get_vpc_info]
    returns one entry for each of them, in order, with the dictionary of
    its tags, and logs nothing. *)
Theorem get_vpc_info_keeps_every_vpc cloud
    (self : Aws.AWSInfrastructureManager cloud) w response c vpcs :
  Aws.ec2_describe_vpcs cloud (Aws.clients cloud self) (Aws.remote cloud w)
  = (Ok response, c) ->
  Aws.field response (pystr "Vpcs") = Some (Aws.OList vpcs) ->
  forallb Aws.vpc_ok vpcs = true ->
  Aws.get_vpc_info cloud self w
  = (Ok (Aws.OList (map Aws.vpc_view vpcs)),
     Aws.mkAccount cloud c (Aws.journal cloud w)).
Proof.
  intros Hcall Hres Hok.
  unfold Aws.get_vpc_info, Aws.try_except, Aws.bindM, Aws.call,
    Aws.lift, Aws.ret.
  rewrite Hcall.
  assert (H : Aws.vpcs_of response = Ok (map Aws.vpc_view vpcs)).
  { unfold Aws.vpcs_of.
    destruct response as [| | | | | |d]; try discriminate.
    rewrite (aws_field_getitem d _ _ Hres). simpl.
    apply aws_for_each_views. intros x Hx. apply vpc_entry_view.
    rewrite forallb_forall in Hok. apply Hok, Hx. }
  rewrite H. reflexivity.
Qed.

Lemma get_vpc_info_keeps_every_vpc_witness :
  Aws.get_vpc_info unit (fixed_manager (inventory [])) fresh_account
  = (Ok (Aws.OList [Aws.vpc_view default_vpc]), fresh_account).
Proof.
  apply (get_vpc_info_keeps_every_vpc unit
           (fixed_manager (inventory [])) fresh_account (inventory []) tt
           [default_vpc]).
  - reflexivity.
  - reflexivity.
  - reflexivity.
Defined.

(** ** What the methods do with an exception *)

Lemma try_except_returns cloud {A} (body : Aws.M cloud A) handler w :
  (forall e w', exists a, fst (handler e w') = Ok a) ->
  exists a, fst (Aws.try_except cloud body handler w) = Ok a.
Proof.
  intros H. unfold Aws.try_except.
  destruct (body w) as [[a|e] w']; [exists a; reflexivity|apply H].
Qed.

(** A [try] that starts with a request falls back when the request
    raises. *)
Lemma request_falls_back cloud {A B} (request : cloud -> result B * cloud)
    (rest : B -> Aws.M cloud A) (fallback : A) message w :
  Aws.falls_back
    (Aws.try_except cloud
       (Aws.bindM cloud (Aws.call cloud request) rest)
       (fun e =>
          Aws.bindM cloud (Aws.logger_error cloud message e)
            (fun _ => Aws.ret cloud fallback)))
    request fallback message w.
Proof.
  split.
  - apply try_except_returns. intros e w'. eexists. reflexivity.
  - intros e He. unfold Aws.try_except, Aws.bindM, Aws.call.
    destruct (request (Aws.remote cloud w)) as [r c]. simpl in He. subst r.
    reflexivity.
Qed.

(** X20.  No exception, all being of the class [Exception], leaves a
    method of the manager; and when the request that a method makes first
    raises, the method returns its fallback (an empty mapping, an empty
    list, [False] or [None]) and logs the exception, the account being as
    the request left it. *)
Theorem aws_methods_fall_back cloud
    (self : Aws.AWSInfrastructureManager cloud) w
    (bucket_name file_path key group_name description vpc_id : str)
    (region : option str) :
  let api := Aws.clients cloud self in
  Aws.falls_back (Aws.get_account_info cloud self)
    (Aws.sts_get_caller_identity cloud api)
    (Aws.ODict []) "Error getting account info" w
  /\ Aws.falls_back (Aws.list_ec2_instances cloud self)
       (Aws.ec2_describe_instances cloud api)
       (Aws.OList []) "Error listing EC2 instances" w
  /\ Aws.falls_back (Aws.list_s3_buckets cloud self)
       (Aws.s3_list_buckets cloud api)
       (Aws.OList []) "Error listing S3 buckets" w
  /\ Aws.falls_back (Aws.create_s3_bucket cloud self bucket_name region)
       (Aws.s3_create_bucket cloud api bucket_name
          (if str_eqb (Aws.region_or cloud self region) (pystr "us-east-1")
           then None else Some (Aws.region_or cloud self region)))
       false "Error creating S3 bucket {bucket_name}" w
  /\ Aws.falls_back
       (Aws.upload_file_to_s3 cloud self file_path bucket_name key)
       (Aws.s3_upload_file cloud api file_path bucket_name key)
       false "Error uploading file to S3" w
  /\ Aws.falls_back (Aws.list_cloudformation_stacks cloud self)
       (Aws.cloudformation_list_stacks cloud api
          [pystr "CREATE_COMPLETE"; pystr "UPDATE_COMPLETE"])
       (Aws.OList []) "Error listing CloudFormation stacks" w
  /\ Aws.falls_back (Aws.get_vpc_info cloud self)
       (Aws.ec2_describe_vpcs cloud api)
       (Aws.OList []) "Error getting VPC info" w
  /\ Aws.falls_back
       (Aws.create_security_group cloud self group_name description vpc_id)
       (Aws.ec2_create_security_group cloud api group_name description vpc_id)
       Aws.ONone "Error creating security group" w.
Proof.
  cbv zeta.
  refine (conj _ (conj _ (conj _ (conj _ (conj _ (conj _ (conj _ _)))))));
    try apply request_falls_back.
  unfold Aws.create_s3_bucket. cbv zeta.
  destruct (str_eqb _ _); apply request_falls_back.
Qed.

(** ** The region of a new bucket *)

Lemma region_or_idempotent cloud (self : Aws.AWSInfrastructureManager cloud)
    region :
  Aws.region_or cloud self (Some (Aws.region_or cloud self region))
  = Aws.region_or cloud self region.
Proof.
  unfold Aws.region_or. destruct region as [[|c s]|];
    destruct (Aws.region cloud self); reflexivity.
Qed.

(** X21.  The region of a new bucket: [create_s3_bucket] with no region,
    or with an empty one, is [create_s3_bucket] with the region of the
    manager; and when the region that counts is [us-east-1] the request
    carries no location constraint, the method returning [True] when the
    request returns and [False] when it raises. *)
Theorem create_s3_bucket_default_region cloud
    (self : Aws.AWSInfrastructureManager cloud) bucket_name region w :
  Aws.create_s3_bucket cloud self bucket_name region w
  = Aws.create_s3_bucket cloud self bucket_name
      (Some (Aws.region_or cloud self region)) w
  /\ Aws.create_s3_bucket cloud self bucket_name None w
     = Aws.create_s3_bucket cloud self bucket_name (Some []) w
  /\ (Aws.region_or cloud self region = pystr "us-east-1" ->
      Aws.create_s3_bucket cloud self bucket_name region w
      = match Aws.s3_create_bucket cloud (Aws.clients cloud self)
                bucket_name None (Aws.remote cloud w) with
        | (Ok _, c) =>
            (Ok true,
             Aws.mkAccount cloud c
               (Aws.journal cloud w
                  ++ [INFO "Created S3 bucket: {bucket_name}"]))
        | (Raise e, c) =>
            (Ok false,
             Aws.mkAccount cloud c
               (Aws.journal cloud w
                  ++ [ERROR "Error creating S3 bucket {bucket_name}" e]))
        end).
Proof.
  split; [|split].
  - unfold Aws.create_s3_bucket. cbv zeta.
    rewrite region_or_idempotent. reflexivity.
  - reflexivity.
  - intros Heast. unfold Aws.create_s3_bucket. cbv zeta. rewrite Heast.
    unfold Aws.try_except, Aws.bindM, Aws.call, Aws.logger_info,
      Aws.logger_error, Aws.ret.
    change (str_eqb (pystr "us-east-1") (pystr "us-east-1")) with true.
    cbv iota beta.
    destruct (Aws.s3_create_bucket cloud _ bucket_name None _) as [[r|e] c];
      reflexivity.
Qed.

(** ** The text of a time *)









